(** * Dify2OpenAI: the chat-completions proxy of [server.js]

    A shallow embedding of the request translator
    [convertOpenAIToDifyFormat], the stream-event translator
    [convertDifyToOpenAIStreamFormat], the [/v1/chat/completions] handler
    and its stream relay, over a small model of JavaScript values.  The
    conversation registry ([conversationStore], a JS [Map]) is a [gmap];
    the handler and the translators are written in a state-and-exception
    monad over the registry, the array objects, the clock, the requests
    posted to the backend and the calls made on the HTTP response object. *)

From Stdlib Require Import ZArith Ascii String List Lia DecimalString.
From stdpp Require Import base option list gmap strings.

(** ** JavaScript values *)

#[local] Set Warnings "-register-all".

(** Values as [JSON.parse] and object literals produce them.  Objects are
    association lists in insertion order; numbers are integers (the server
    only ever tests request and backend numbers for truthiness). *)
Inductive value : Type :=
| VUndef
| VNull
| VBool (b : bool)
| VNum (n : Z)
| VStr (s : string)
| VArr (elems : list value)
| VObj (fields : list (string * value)).

(** What a [throw] carries.  [AxiosError] keeps the two fields the handler
    reads: [error.response] and [error.message]. *)
Inductive exn : Type :=
| TypeError
| SyntaxError
| Error (message : string)
| AxiosError (response : value) (message : string).

Inductive outcome (A : Type) : Type :=
| Return (a : A)
| Throw (e : exn).
Arguments Return {A} a.
Arguments Throw {A} e.

Module JS.

(** [!!v] *)
Definition truthy (v : value) : bool :=
  match v with
  | VUndef | VNull => false
  | VBool b => b
  | VNum n => negb (Z.eqb n 0)
  | VStr s => negb (String.eqb s EmptyString)
  | VArr _ | VObj _ => true
  end.

(** [v == null]: the values on which a property access throws. *)
Definition nullish (v : value) : bool :=
  match v with
  | VUndef | VNull => true
  | _ => false
  end.

(** [v === 'lit'] *)
Definition is_str (v : value) (lit : string) : bool :=
  match v with
  | VStr s => String.eqb s lit
  | _ => false
  end.

(** [Array.isArray(v)] *)
Definition isArray (v : value) : bool :=
  match v with
  | VArr _ => true
  | _ => false
  end.

(** [a || b] on already evaluated operands. *)
Definition or (a b : value) : value := if truthy a then a else b.

Fixpoint lookup_field (name : string) (fields : list (string * value)) : value :=
  match fields with
  | [] => VUndef
  | (k, v) :: rest => if String.eqb k name then v else lookup_field name rest
  end.

(** [obj.name = v] on an object literal: an existing property keeps its
    place, a new one goes last. *)
Fixpoint set_field (name : string) (v : value) (fields : list (string * value))
  : list (string * value) :=
  match fields with
  | [] => [(name, v)]
  | (k, w) :: rest =>
      if String.eqb k name then (k, v) :: rest else (k, w) :: set_field name v rest
  end.

(** [v.name] for a [v] that is neither [null] nor [undefined], and a [name]
    that is no built-in member ([length], methods): every property name the
    server reads is of this kind.  Primitives and arrays have no such
    property. *)
Definition prop (v : value) (name : string) : value :=
  match v with
  | VObj fields => lookup_field name fields
  | _ => VUndef
  end.

(** [v?.name] *)
Definition opt (v : value) (name : string) : value :=
  if nullish v then VUndef else prop v name.

(** [v[0]] for a [v] that is neither [null] nor [undefined]. *)
Definition first (v : value) : value :=
  match v with
  | VArr (x :: _) => x
  | VStr (String c _) => VStr (String c EmptyString)
  | VObj fields => lookup_field "0" fields
  | _ => VUndef
  end.

(** A default parameter or destructuring default: used for [undefined] only. *)
Definition default_to (v d : value) : value :=
  match v with
  | VUndef => d
  | _ => v
  end.

End JS.

(** ** Strings

    A JS string is represented by its UTF-8 bytes, which is what the backend
    sends and [chunk.toString()] decodes. *)

Module Str.

Definition nl : string := String "010"%char EmptyString.

Definition dquote : ascii := "034"%char.

Definition byte_in (c : ascii) (codes : list nat) : bool :=
  existsb (Nat.eqb (nat_of_ascii c)) codes.

(** One-byte white space: TAB, LF, VT, FF, CR, SP. *)
Definition ws1 (c : ascii) : bool := byte_in c [9; 10; 11; 12; 13; 32].

(** U+00A0. *)
Definition ws2 (c1 c2 : ascii) : bool :=
  Nat.eqb (nat_of_ascii c1) 194 && Nat.eqb (nat_of_ascii c2) 160.

(** U+1680, U+2000..U+200A, U+2028, U+2029, U+202F, U+205F, U+3000, U+FEFF. *)
Definition ws3 (c1 c2 c3 : ascii) : bool :=
  let b1 := nat_of_ascii c1 in
  let b2 := nat_of_ascii c2 in
  let b3 := nat_of_ascii c3 in
  (Nat.eqb b1 225 && Nat.eqb b2 154 && Nat.eqb b3 128)
  || (Nat.eqb b1 226 && Nat.eqb b2 128
      && ((Nat.leb 128 b3 && Nat.leb b3 138) || byte_in c3 [168; 169; 175]))
  || (Nat.eqb b1 226 && Nat.eqb b2 129 && Nat.eqb b3 159)
  || (Nat.eqb b1 227 && Nat.eqb b2 128 && Nat.eqb b3 128)
  || (Nat.eqb b1 239 && Nat.eqb b2 187 && Nat.eqb b3 191).

(** [s.trimStart()]: also the longest match of the regular expression
    [\s*] at the start of [s]. *)
Fixpoint trimStart (s : string) : string :=
  match s with
  | String c1 r1 =>
      if ws1 c1 then trimStart r1
      else
        match r1 with
        | String c2 r2 =>
            if ws2 c1 c2 then trimStart r2
            else
              match r2 with
              | String c3 r3 => if ws3 c1 c2 c3 then trimStart r3 else s
              | EmptyString => s
              end
        | EmptyString => s
        end
  | EmptyString => s
  end.

Definition is_empty (s : string) : bool :=
  match s with
  | EmptyString => true
  | _ => false
  end.

(** [s.trimEnd()]: cut at the first position from which only white space
    follows. *)
Fixpoint trimEnd (s : string) : string :=
  match s with
  | EmptyString => EmptyString
  | String c r => if is_empty (trimStart s) then EmptyString else String c (trimEnd r)
  end.

(** [s.trim()] *)
Definition trim (s : string) : string := trimEnd (trimStart s).

Fixpoint drop (n : nat) (s : string) : string :=
  match n, s with
  | S m, String _ r => drop m r
  | _, _ => s
  end.

(** [s.startsWith(p)] *)
Definition startsWith (s p : string) : bool := String.prefix p s.

(** [s.replace(pat, rep)] with a string pattern: the first occurrence only. *)
Fixpoint replace (pat rep s : string) : string :=
  if String.prefix pat s then rep +:+ drop (String.length pat) s
  else
    match s with
    | EmptyString => EmptyString
    | String c r => String c (replace pat rep r)
    end.

(** [s.split('\n')] *)
Fixpoint split_lines (s : string) : list string :=
  match s with
  | EmptyString => [EmptyString]
  | String c r =>
      if Ascii.eqb c "010"%char then EmptyString :: split_lines r
      else
        match split_lines r with
        | line :: lines => String c line :: lines
        | [] => [String c EmptyString]
        end
  end.

(** A match of [/"\s+"(?!\})/] at the start of [s]: the text after it.  The
    greedy [\s+] has a single way to match, since a white-space character is
    never a quote. *)
Definition match_gap (s : string) : option string :=
  match s with
  | String q r =>
      let r' := trimStart r in
      if negb (Ascii.eqb q dquote) || Nat.eqb (String.length r') (String.length r)
      then None
      else
        match r' with
        | String q' r'' =>
            if Ascii.eqb q' dquote then
              match r'' with
              | String "}"%char _ => None
              | _ => Some r''
              end
            else None
        | EmptyString => None
        end
  | EmptyString => None
  end.

(** [s.replace(/"\s+"(?!\})/g, '", "')], scanning left to right and
    resuming after each match; [fuel] bounds the number of steps. *)
Fixpoint insert_commas (fuel : nat) (s : string) : string :=
  match fuel with
  | O => s
  | S fuel' =>
      match match_gap s with
      | Some rest => String dquote (", " +:+ String dquote (insert_commas fuel' rest))
      | None =>
          match s with
          | EmptyString => EmptyString
          | String c r => String c (insert_commas fuel' r)
          end
      end
  end.

Definition fix_json (s : string) : string := insert_commas (S (String.length s)) s.

(** A text without line feed, and lines joined by line feeds: how the
    backend frames its events. *)
Fixpoint no_newline (s : string) : bool :=
  match s with
  | EmptyString => true
  | String c r => negb (Ascii.eqb c "010"%char) && no_newline r
  end.

Fixpoint join_lines (lines : list string) : string :=
  match lines with
  | [] => EmptyString
  | [line] => line
  | line :: rest => line +:+ String "010"%char (join_lines rest)
  end.

End Str.

(** ** The conversation registry, the world and the monad *)

(** Keys of the JS [Map] [conversationStore].  A [Map] compares primitive
    keys by value and objects by identity.  The key of a request is the
    content of its first message: when that is an object or an array it is an
    object of this request alone, named here by the request. *)
Inductive mapkey : Type :=
| KUndef
| KNull
| KBool (b : bool)
| KNum (n : Z)
| KStr (s : string)
| KRef (request : nat).

#[global] Instance mapkey_eq_dec : EqDecision mapkey.
Proof. solve_decision. Defined.

#[global] Instance mapkey_countable : Countable mapkey.
Proof.
  refine (inj_countable'
    (fun k => match k with
              | KUndef => inl (inl true)
              | KNull => inl (inl false)
              | KBool b => inl (inr b)
              | KNum n => inr (inl n)
              | KStr s => inr (inr (inl s))
              | KRef r => inr (inr (inr r))
              end)
    (fun c => match c with
              | inl (inl true) => KUndef
              | inl (inl false) => KNull
              | inl (inr b) => KBool b
              | inr (inl n) => KNum n
              | inr (inr (inl s)) => KStr s
              | inr (inr (inr r)) => KRef r
              end) _).
  intros []; reflexivity.
Defined.

(** The value [v] of request [request] used as a [Map] key. *)
Definition key_of (request : nat) (v : value) : mapkey :=
  match v with
  | VUndef => KUndef
  | VNull => KNull
  | VBool b => KBool b
  | VNum n => KNum n
  | VStr s => KStr s
  | VArr _ | VObj _ => KRef request
  end.

(** Calls on the response object [res] of express, in the order made. *)
Inductive res_call : Type :=
| SetHeader (name contents : string)
| Status (code : value)
| Json (body : value)
| Write (chunk : string)
| End_.

(** Address of an array object. *)
Definition loc := nat.

Record world : Type := World {
  conversationStore : gmap mapkey value;
  arrays : list (list value);   (* the array objects that can be aliased *)
  clock : nat;                  (* calls of [Date.now()] made so far *)
  sent : list value;            (* request bodies posted to the backend so far *)
  res : list res_call           (* calls made on [res] so far *)
}.

Definition with_store (f : gmap mapkey value -> gmap mapkey value) (w : world) : world :=
  World (f (conversationStore w)) (arrays w) (clock w) (sent w) (res w).
Definition with_arrays (f : list (list value) -> list (list value)) (w : world) : world :=
  World (conversationStore w) (f (arrays w)) (clock w) (sent w) (res w).
Definition tick (w : world) : world :=
  World (conversationStore w) (arrays w) (S (clock w)) (sent w) (res w).
Definition with_sent (f : list value -> list value) (w : world) : world :=
  World (conversationStore w) (arrays w) (clock w) (f (sent w)) (res w).
Definition with_res (f : list res_call -> list res_call) (w : world) : world :=
  World (conversationStore w) (arrays w) (clock w) (sent w) (f (res w)).

(** A computation runs in a world and returns or throws; what it did to the
    world before a throw stays done. *)
Definition M (A : Type) : Type := world -> outcome A * world.

Definition ret {A} (a : A) : M A := fun w => (Return a, w).
Definition throw {A} (e : exn) : M A := fun w => (Throw e, w).
Definition bind {A B} (m : M A) (k : A -> M B) : M B :=
  fun w =>
    match m w with
    | (Return a, w') => k a w'
    | (Throw e, w') => (Throw e, w')
    end.
(** [try { m } catch (e) { h e }] *)
Definition try_catch {A} (m : M A) (h : exn -> M A) : M A :=
  fun w =>
    match m w with
    | (Return a, w') => (Return a, w')
    | (Throw e, w') => h e w'
    end.

Notation "'let*' x ':=' m 'in' k" := (bind m (fun x => k))
  (at level 10, x pattern, m at level 100, k at level 200).
Notation "m ';;' k" := (bind m (fun _ => k))
  (at level 100, k at level 200, right associativity).

(** *** Property access *)

(** [v.name]: a [TypeError] on [null] and [undefined]. *)
Definition get (v : value) (name : string) : M value :=
  if JS.nullish v then throw TypeError else ret (JS.prop v name).

(** [v[0]] *)
Definition get_first (v : value) : M value :=
  if JS.nullish v then throw TypeError else ret (JS.first v).

(** [a || b], the right operand evaluated only when the left is falsy. *)
Definition or_else (a b : M value) : M value :=
  let* x := a in if JS.truthy x then ret x else b.

(** [a && b], the right operand evaluated only when the left is truthy. *)
Definition and_then (a b : M value) : M value :=
  let* x := a in if JS.truthy x then b else ret x.

(** *** The registry *)

(** [conversationStore.get(key)] *)
Definition store_get (key : mapkey) : M value :=
  fun w => (Return (default VUndef (conversationStore w !! key)), w).

(** [conversationStore.set(key, v)] *)
Definition store_set (key : mapkey) (v : value) : M unit :=
  fun w => (Return tt, with_store (insert key v) w).

(** *** Array objects *)

Module Arr.

(** The elements of the array at [a]. *)
Definition read (a : loc) : M (list value) :=
  fun w => (Return (default [] (arrays w !! a)), w).

(** A new array object with the given elements. *)
Definition new (elems : list value) : M loc :=
  fun w => (Return (length (arrays w)), with_arrays (fun h => h ++ [elems]) w).

(** [a.reverse()]: reverses the array in place and returns it. *)
Definition reverse (a : loc) : M loc :=
  fun w => (Return a, with_arrays (alter (@rev value) a) w).

(** [a[0]] *)
Definition head (a : loc) : M value :=
  let* elems := read a in ret (JS.first (VArr elems)).

(** [elems.find(p)] *)
Fixpoint find (p : value -> M bool) (elems : list value) : M value :=
  match elems with
  | [] => ret VUndef
  | x :: rest => let* b := p x in if b then ret x else find p rest
  end.

(** [elems.map(f)] *)
Fixpoint map (f : value -> M value) (elems : list value) : M (list value) :=
  match elems with
  | [] => ret []
  | x :: rest => let* y := f x in let* ys := map f rest in ret (y :: ys)
  end.

(** [elems.filter(p)] *)
Fixpoint filter (p : value -> M bool) (elems : list value) : M (list value) :=
  match elems with
  | [] => ret []
  | x :: rest =>
      let* b := p x in
      let* ys := filter p rest in
      ret (if b then x :: ys else ys)
  end.

(** [for (const x of elems) body], threading the variables the body
    assigns. *)
Fixpoint for_of {A S} (elems : list A) (body : A -> S -> M S) (s : S) : M S :=
  match elems with
  | [] => ret s
  | x :: rest => let* s' := body x s in for_of rest body s'
  end.

End Arr.

(** [v.a?.b] *)
Definition get_opt (v : value) (a b : string) : M value :=
  let* m := get v a in ret (JS.opt m b).

(** [v.choices[0]?.a?.b] *)
Definition get_choice (v : value) (a b : string) : M value :=
  let* choices := get v "choices" in
  let* choice := get_first choices in
  ret (JS.opt (JS.opt choice a) b).

(** [{...obj, name: v}], and [obj.name = v] on an object that nothing else
    refers to. *)
Definition spread_with (obj : value) (name : string) (v : value) : value :=
  match obj with
  | VObj fields => VObj (JS.set_field name v fields)
  | _ => VObj [(name, v)]
  end.

(** [obj.choices[0].part.name = v] on a response under construction. *)
Definition assign_in_choice (obj : value) (part name : string) (v : value) : value :=
  match JS.prop obj "choices" with
  | VArr (choice :: rest) =>
      let inner := spread_with (JS.prop choice part) name v in
      spread_with obj "choices" (VArr (spread_with choice part inner :: rest))
  | _ => obj
  end.

(** [log(level, ...args)] writes to the console only; what remains of a call
    is the evaluation of its arguments, which can throw. *)
Definition log {A} (args : M A) : M unit := args ;; ret tt.

(** ** The request translator *)

(** The body of the loop over [nonSystemMessages] (lines 95 to 129).  The
    loop assigns [conversationId] and pushes on [history], a fresh array that
    nothing else refers to. *)
Definition history_step (msg : value) (s : value * list value) : M (value * list value) :=
  let '(conversationId, history) := s in
  let* content :=
    or_else (get msg "content")
      (or_else (get_opt msg "message" "content")
         (or_else (get_opt msg "delta" "content") (ret (VStr EmptyString)))) in
  let* messageId :=
    or_else (get msg "message_id")
      (or_else (get msg "id")
         (or_else (get_opt msg "message" "id") (get_opt msg "message" "message_id"))) in
  let* role := get msg "role" in
  let* msgConversationId :=
    if JS.is_str role "assistant" then
      or_else (get msg "conversation_id")
        (or_else (get_opt msg "message" "conversation_id")
           (or_else (get_opt msg "delta" "conversation_id")
              (or_else (and_then (get msg "choices")
                          (get_choice msg "message" "conversation_id"))
                 (or_else (and_then (get msg "choices")
                             (get_choice msg "delta" "conversation_id"))
                    (ret (VStr EmptyString))))))
    else ret (VStr EmptyString) in
  let conversationId :=
    if JS.is_str role "assistant" && JS.truthy msgConversationId
    then msgConversationId else conversationId in
  let* role := get msg "role" in
  let entry :=
    VObj ([("role", role); ("content", content); ("message_id", messageId)]
          ++ (if JS.truthy msgConversationId
              then [("conversation_id", msgConversationId)] else [])) in
  ret (conversationId, history ++ [entry]).

(** [convertOpenAIToDifyFormat(messages, conversationKey, user)], lines 51 to
    165.  [messages] is the address of the caller's array. *)
Definition convertOpenAIToDifyFormat
    (messages : loc) (conversationKey : mapkey) (user : value) : M value :=
  let user := JS.default_to user (VStr "default-user") in
  (* const messagesCopy = [...messages]; *)
  let* elems := Arr.read messages in
  let* messagesCopy := Arr.new elems in
  (* messagesCopy.reverse().find(msg => msg.role === 'user') *)
  let* reversed := Arr.reverse messagesCopy in
  let* elems := Arr.read reversed in
  let* lastUserMessage :=
    Arr.find (fun msg => let* role := get msg "role" in ret (JS.is_str role "user")) elems in
  if negb (JS.truthy lastUserMessage) then throw (Error "No user message found")
  else
    let* stored := store_get conversationKey in
    let conversationId := JS.or stored (VStr EmptyString) in
    (* log('debug', 'Conversation ID Extraction:', ...) *)
    let* elems := Arr.read messages in
    log (Arr.map (fun msg =>
           let* hasDirectId := get msg "conversation_id" in
           let* hasChoices := get msg "choices" in
           let* hasMessage := get msg "message" in
           let* hasDelta := get msg "delta" in
           ret (VObj [("hasDirectId", VBool (JS.truthy hasDirectId));
                      ("hasChoices", VBool (JS.truthy hasChoices));
                      ("hasMessage", VBool (JS.truthy hasMessage));
                      ("hasDelta", VBool (JS.truthy hasDelta))])) elems) ;;
    (* log('debug', 'OpenAI -> Dify Conversion:', ...) *)
    let* elems := Arr.read messages in
    log (get lastUserMessage "content" ;;
         Arr.map (fun m =>
           let* role := get m "role" in
           let* content := get m "content" in
           let* id := or_else (get m "message_id") (get m "id") in
           ret (VObj [("role", role); ("content", content); ("id", id)])) elems) ;;
    (* const nonSystemMessages = messages.filter(msg => msg.role !== 'system'); *)
    let* elems := Arr.read messages in
    let* nonSystemMessages :=
      Arr.filter (fun msg =>
        let* role := get msg "role" in ret (negb (JS.is_str role "system"))) elems in
    let* (conversationId, history) :=
      Arr.for_of nonSystemMessages history_step (conversationId, []) in
    let* query := get lastUserMessage "content" in
    (* if (conversationId) request.conversation_history = history.map(...) *)
    let* conversation_history :=
      if JS.truthy conversationId then
        Arr.map (fun msg =>
          let* own := get msg "conversation_id" in
          ret (spread_with msg "conversation_id" (JS.or own conversationId))) history
      else ret history in
    ret (VObj [("query", query);
               ("conversation_id", conversationId);
               ("user", user);
               ("inputs", VObj []);
               ("response_mode", VStr "streaming");
               ("conversation_history", VArr conversation_history)]).

(** *** The response object *)

Definition res_call_ (c : res_call) : M unit :=
  fun w => (Return tt, with_res (fun calls => calls ++ [c]) w).

Definition sentinel : string := "data: [DONE]" +:+ Str.nl +:+ Str.nl.

(** ** The response translator, the handler and the relay *)

Section Server.

(** The runtime and the backend: [JSON.parse] ([None] for a [SyntaxError]),
    [JSON.stringify], the conversion of a value inside a template literal,
    the successive readings of [Date.now()], and the reply of
    [difyClient.post('/chat-messages', body, ...)] to a request body in
    streaming or blocking mode. *)
Inductive post_result : Type :=
| Resolved (data : value)
| Rejected (error : exn).

Variable JSON_parse : string -> option value.
Variable JSON_stringify : value -> string.
Variable ToString : value -> string.
Variable Date_now : nat -> Z.
Variable difyClient_post : value -> bool -> post_result.

Definition parse (text : string) : M value :=
  match JSON_parse text with
  | Some v => ret v
  | None => throw SyntaxError
  end.

(** [Math.floor(Date.now() / 1000)] *)
Definition created_now : M value :=
  fun w => (Return (VNum (Date_now (clock w) / 1000)), tick w).

(** [await difyClient.post('/chat-messages', body, ...)] *)
Definition post (body : value) (streaming : bool) : M value :=
  fun w =>
    let w' := with_sent (fun bodies => bodies ++ [body]) w in
    match difyClient_post body streaming with
    | Resolved data => (Return data, w')
    | Rejected error => (Throw error, w')
    end.

(** The [if (data.conversation_id)] block shared by both event kinds and the
    blocking reply: register the id and attach it to the response. *)
Definition register_conversation
    (data : value) (conversationKey : mapkey) (part : string) (response : value) : M value :=
  let* present := get data "conversation_id" in
  if JS.truthy present then
    let* id := get data "conversation_id" in
    store_set conversationKey id ;;
    let* id := get data "conversation_id" in
    let response := spread_with response "conversation_id" id in
    let* id := get data "conversation_id" in
    ret (assign_in_choice response part "conversation_id" id)
  else ret response.

(** [convertDifyToOpenAIStreamFormat(difyChunk, conversationKey)], lines 168
    to 248; [null] is [VNull]. *)
Definition convertDifyToOpenAIStreamFormat
    (difyChunk : string) (conversationKey : mapkey) : M value :=
  let cleanChunk := Str.trim (Str.replace "data: " EmptyString difyChunk) in
  if Str.is_empty cleanChunk then ret VNull
  else
    try_catch
      (let fixedJson := Str.fix_json cleanChunk in
       let* data := parse fixedJson in
       let* event := get data "event" in
       if JS.is_str event "message" then
         log (get data "message_id" ;; get data "conversation_id" ;;
              get data "answer" ;; get data "event" ;; get data "metadata") ;;
         let* id := or_else (get data "message_id") (get data "id") in
         let* created := created_now in
         let* answer := get data "answer" in
         let response :=
           VObj [("id", id);
                 ("object", VStr "chat.completion.chunk");
                 ("created", created);
                 ("model", VStr "gpt-3.5-turbo");
                 ("choices",
                  VArr [VObj [("index", VNum 0);
                              ("delta", VObj [("role", VStr "assistant");
                                              ("content", answer)]);
                              ("finish_reason", VNull)]])] in
         register_conversation data conversationKey "delta" response
       else
         let* event := get data "event" in
         if JS.is_str event "message_end" then
           log (get data "id" ;; get data "conversation_id" ;;
                get data "metadata" ;; get_opt data "metadata" "usage") ;;
           let* id := or_else (get data "message_id") (get data "id") in
           let* created := created_now in
           let response :=
             VObj [("id", id);
                   ("object", VStr "chat.completion.chunk");
                   ("created", created);
                   ("model", VStr "gpt-3.5-turbo");
                   ("choices",
                    VArr [VObj [("index", VNum 0);
                                ("delta", VObj [("role", VStr "assistant")]);
                                ("finish_reason", VStr "stop")]])] in
           register_conversation data conversationKey "delta" response
         else ret VNull)
      (fun error => ret VNull).

(** The non-streaming branch of the handler, lines 326 to 361, from the
    backend's reply [data] on. *)
Definition blocking_reply (data : value) (conversationKey : mapkey) : M value :=
  let* id := or_else (get data "message_id") (get data "id") in
  let* created := created_now in
  let* answer := get data "answer" in
  let* usage :=
    or_else (get_opt data "metadata" "usage")
      (ret (VObj [("prompt_tokens", VNum 0);
                  ("completion_tokens", VNum 0);
                  ("total_tokens", VNum 0)])) in
  let openAIResponse :=
    VObj [("id", id);
          ("object", VStr "chat.completion");
          ("created", created);
          ("model", VStr "gpt-3.5-turbo");
          ("choices",
           VArr [VObj [("index", VNum 0);
                       ("message", VObj [("role", VStr "assistant");
                                         ("content", answer)]);
                       ("finish_reason", VStr "stop")]]);
          ("usage", usage)] in
  register_conversation data conversationKey "message" openAIResponse.

(** What the handler leaves behind: the response is complete, or the
    stream handlers are registered for [conversationKey]. *)
Inductive served : Type :=
| Finished
| Streaming (conversationKey : mapkey).

(** The [catch] block of the handler, lines 363 to 387. *)
Definition on_failure (error : exn) : M served :=
  match error with
  | AxiosError response message =>
      let status := JS.or (JS.opt response "status") (VNum 500) in
      let message :=
        JS.or (JS.opt (JS.opt response "data") "message") (VStr message) in
      res_call_ (Status status) ;;
      res_call_ (Json (VObj [("error",
                     VObj [("message", VStr ("Dify API error: " +:+ ToString message));
                           ("type", VStr "dify_api_error");
                           ("status", status)])])) ;;
      ret Finished
  | _ =>
      res_call_ (Status (VNum 500)) ;;
      res_call_ (Json (VObj [("error",
                     VObj [("message", VStr "An internal server error occurred.");
                           ("type", VStr "internal_server_error")])])) ;;
      ret Finished
  end.

(** [app.post('/v1/chat/completions', ...)], lines 257 to 388, for the
    request numbered [request] with parsed body [body], up to the point where
    it has answered or has registered the stream handlers. *)
Definition chat_completions (request : nat) (body : value) : M served :=
  try_catch
    (let* messages := get body "messages" in
     let* stream := get body "stream" in
     let stream := JS.default_to stream (VBool false) in
     let* user := get body "user" in
     match messages with
     | VArr elems =>
         (* the array object [messages] *)
         let* messages := Arr.new elems in
         let* first := Arr.head messages in
         let conversationKey :=
           key_of request (JS.or (JS.opt first "content") (VStr EmptyString)) in
         let* difyRequest := convertOpenAIToDifyFormat messages conversationKey user in
         if JS.truthy stream then
           res_call_ (SetHeader "Content-Type" "text/event-stream") ;;
           res_call_ (SetHeader "Cache-Control" "no-cache") ;;
           res_call_ (SetHeader "Connection" "keep-alive") ;;
           post difyRequest true ;;
           ret (Streaming conversationKey)
         else
           let difyRequest := spread_with difyRequest "response_mode" (VStr "blocking") in
           let* data := post difyRequest false in
           let* openAIResponse := blocking_reply data conversationKey in
           res_call_ (Json openAIResponse) ;;
           ret Finished
     | _ =>
         (* !messages || !Array.isArray(messages) *)
         res_call_ (Status (VNum 400)) ;;
         res_call_ (Json (VObj [("error", VStr "Invalid messages format")])) ;;
         ret Finished
     end)
    on_failure.

(** *** The stream relay, lines 287 to 317 *)

(** [response.data.on('data', chunk => ...)] *)
Definition on_data (conversationKey : mapkey) (chunkStr : string) : M unit :=
  try_catch
    (let chunks :=
       List.filter (fun line => Str.startsWith line "data:") (Str.split_lines chunkStr) in
     Arr.for_of chunks
       (fun chunk _ =>
          let* openAIFormat := convertDifyToOpenAIStreamFormat chunk conversationKey in
          if JS.truthy openAIFormat then
            res_call_ (Write ("data: " +:+ JSON_stringify openAIFormat +:+ Str.nl +:+ Str.nl))
          else ret tt)
       tt)
    (fun error => ret tt).

(** [response.data.on('error', error => ...)] *)
Definition on_error : M unit :=
  res_call_ (Write sentinel) ;; res_call_ End_.

(** [response.data.on('end', () => ...)] *)
Definition on_end : M unit :=
  res_call_ (Write sentinel) ;; res_call_ End_.

(** What the backend stream emits. *)
Inductive stream_event : Type :=
| DataEvent (chunk : string)
| ErrorEvent
| EndEvent.

Definition relay_step (conversationKey : mapkey) (ev : stream_event) : M unit :=
  match ev with
  | DataEvent chunk => on_data conversationKey chunk
  | ErrorEvent => on_error
  | EndEvent => on_end
  end.

(** The handlers run on the events of the backend stream, in order. *)
Definition relay (conversationKey : mapkey) (events : list stream_event) : M unit :=
  Arr.for_of events (fun ev _ => relay_step conversationKey ev) tt.

End Server.

(** ** What the translators compute, in the words of the specification *)

Module Spec.

(** A message list as the data model has it: every entry is a value with
    properties, that is, neither [null] nor [undefined]. *)
Definition message_list (msgs : list value) : Prop :=
  Forall (fun msg => JS.nullish msg = false) msgs.

Definition has_role (role : string) (msg : value) : bool :=
  JS.is_str (JS.prop msg "role") role.

(** The last user-role entry, in original order. *)
Definition last_user (msgs : list value) : option value :=
  last (List.filter (has_role "user") msgs).

(** [v?.[0]] *)
Definition opt_first (v : value) : value :=
  if JS.nullish v then VUndef else JS.first v.

(** The candidate locations of a conversation id in a message: the flat
    field, [message], [delta], [choices[0].message], [choices[0].delta]. *)
Definition candidates (msg : value) : list value :=
  [JS.prop msg "conversation_id";
   JS.opt (JS.prop msg "message") "conversation_id";
   JS.opt (JS.prop msg "delta") "conversation_id";
   JS.opt (JS.opt (opt_first (JS.prop msg "choices")) "message") "conversation_id";
   JS.opt (JS.opt (opt_first (JS.prop msg "choices")) "delta") "conversation_id"].

(** The conversation id a message carries, if any. *)
Definition carried_id (msg : value) : option value :=
  List.find JS.truthy (candidates msg).

(** The ids carried by assistant-role entries, scanning the non-system
    messages in original order. *)
Definition assistant_ids (msgs : list value) : list value :=
  omap (fun msg => if has_role "assistant" msg then carried_id msg else None)
       (List.filter (fun msg => negb (has_role "system" msg)) msgs).

(** The registry's value for the key, else the empty string. *)
Definition registered (store : gmap mapkey value) (key : mapkey) : value :=
  JS.or (default VUndef (store !! key)) (VStr EmptyString).

(** The last id carried by an assistant entry; if none, the registry's. *)
Definition resolved_id (store : gmap mapkey value) (key : mapkey) (msgs : list value)
  : value :=
  default (registered store key) (last (assistant_ids msgs)).

(** The shape [{error: {message: string, type: string, status: number}}]. *)
Definition error_shape (body : value) : bool :=
  match JS.prop body "error" with
  | VObj fields =>
      match JS.lookup_field "message" fields,
            JS.lookup_field "type" fields,
            JS.lookup_field "status" fields with
      | VStr _, VStr _, VNum _ => true
      | _, _, _ => false
      end
  | _ => false
  end.

(** Calls that send body data or close the response: they set no status. *)
Definition body_call (c : res_call) : bool :=
  match c with
  | Write _ | End_ => true
  | _ => false
  end.

(** The HTTP status of a response: the last [res.status(code)], else 200. *)
Definition status_of (calls : list res_call) : value :=
  default (VNum 200)
    (last (omap (fun c => match c with Status code => Some code | _ => None end) calls)).

Definition is_4xx (code : value) : bool :=
  match code with
  | VNum n => (400 <=? n)%Z && (n <? 500)%Z
  | _ => false
  end.

(** The JSON bodies sent with [res.json]. *)
Definition json_bodies (calls : list res_call) : list value :=
  omap (fun c => match c with Json body => Some body | _ => None end) calls.

(** The registry holds non-empty strings only. *)
Definition ids_are_strings (store : gmap mapkey value) : Prop :=
  forall key v, store !! key = Some v -> exists s, v = VStr s /\ s <> EmptyString.

(** The registry holds truthy values only. *)
Definition ids_are_truthy (store : gmap mapkey value) : Prop :=
  forall key v, store !! key = Some v -> JS.truthy v = true.

End Spec.

(** ** The pure content of the loop body *)

Module Pure.

(** [content], [messageId] and [msgConversationId] of lines 97 to 115. *)
Definition content (msg : value) : value :=
  JS.or (JS.prop msg "content")
    (JS.or (JS.opt (JS.prop msg "message") "content")
       (JS.or (JS.opt (JS.prop msg "delta") "content") (VStr EmptyString))).

Definition messageId (msg : value) : value :=
  JS.or (JS.prop msg "message_id")
    (JS.or (JS.prop msg "id")
       (JS.or (JS.opt (JS.prop msg "message") "id")
          (JS.opt (JS.prop msg "message") "message_id"))).

(** [msg.choices && msg.choices[0]?.a?.conversation_id] *)
Definition in_choice (msg : value) (a : string) : value :=
  if JS.truthy (JS.prop msg "choices")
  then JS.opt (JS.opt (JS.first (JS.prop msg "choices")) a) "conversation_id"
  else JS.prop msg "choices".

Definition msgConversationId (msg : value) : value :=
  if Spec.has_role "assistant" msg then
    JS.or (JS.prop msg "conversation_id")
      (JS.or (JS.opt (JS.prop msg "message") "conversation_id")
         (JS.or (JS.opt (JS.prop msg "delta") "conversation_id")
            (JS.or (in_choice msg "message")
               (JS.or (in_choice msg "delta") (VStr EmptyString)))))
  else VStr EmptyString.

Definition entry (msg : value) : value :=
  VObj ([("role", JS.prop msg "role");
         ("content", content msg);
         ("message_id", messageId msg)]
        ++ (if JS.truthy (msgConversationId msg)
            then [("conversation_id", msgConversationId msg)] else [])).

Definition step (s : value * list value) (msg : value) : value * list value :=
  (if JS.truthy (msgConversationId msg) then msgConversationId msg else fst s,
   snd s ++ [entry msg]).

(** The callback of line 143. *)
Definition stamp (conversationId : value) (msg : value) : value :=
  spread_with msg "conversation_id"
    (JS.or (JS.prop msg "conversation_id") conversationId).

(** [messages[0]?.content || ''] of line 267, as a [Map] key. *)
Definition conversationKey (request : nat) (msgs : list value) : mapkey :=
  key_of request
    (JS.or (JS.opt (JS.first (VArr msgs)) "content") (VStr EmptyString)).

(** The request built from line 132 on, [m] being the last user message. *)
Definition request (store : gmap mapkey value) (key : mapkey) (user : value)
    (msgs : list value) (m : value) : value :=
  let s := fold_left step
             (List.filter (fun msg => negb (Spec.has_role "system" msg)) msgs)
             (Spec.registered store key, []) in
  VObj [("query", JS.prop m "content");
        ("conversation_id", fst s);
        ("user", JS.default_to user (VStr "default-user"));
        ("inputs", VObj []);
        ("response_mode", VStr "streaming");
        ("conversation_history",
         VArr (if JS.truthy (fst s) then List.map (stamp (fst s)) (snd s) else snd s))].

(** The [if (data.conversation_id)] block: the response with the id
    attached, and the world with the id registered. *)
Definition attach (data : value) (part : string) (response : value) : value :=
  let id := JS.prop data "conversation_id" in
  if JS.truthy id
  then assign_in_choice (spread_with response "conversation_id" id) part "conversation_id" id
  else response.

Definition register (data : value) (key : mapkey) (w : world) : world :=
  let id := JS.prop data "conversation_id" in
  if JS.truthy id then with_store (insert key id) w else w.

(** The chunk for a [message] event, [now] being the reading of the clock. *)
Definition message_chunk (now : Z) (data : value) : value :=
  attach data "delta"
    (VObj [("id", JS.or (JS.prop data "message_id") (JS.prop data "id"));
           ("object", VStr "chat.completion.chunk");
           ("created", VNum (now / 1000));
           ("model", VStr "gpt-3.5-turbo");
           ("choices",
            VArr [VObj [("index", VNum 0);
                        ("delta", VObj [("role", VStr "assistant");
                                        ("content", JS.prop data "answer")]);
                        ("finish_reason", VNull)]])]).

(** The chunk for a [message_end] event. *)
Definition end_chunk (now : Z) (data : value) : value :=
  attach data "delta"
    (VObj [("id", JS.or (JS.prop data "message_id") (JS.prop data "id"));
           ("object", VStr "chat.completion.chunk");
           ("created", VNum (now / 1000));
           ("model", VStr "gpt-3.5-turbo");
           ("choices",
            VArr [VObj [("index", VNum 0);
                        ("delta", VObj [("role", VStr "assistant")]);
                        ("finish_reason", VStr "stop")]])]).

(** The completion for a blocking reply. *)
Definition completion (now : Z) (data : value) : value :=
  attach data "message"
    (VObj [("id", JS.or (JS.prop data "message_id") (JS.prop data "id"));
           ("object", VStr "chat.completion");
           ("created", VNum (now / 1000));
           ("model", VStr "gpt-3.5-turbo");
           ("choices",
            VArr [VObj [("index", VNum 0);
                        ("message", VObj [("role", VStr "assistant");
                                          ("content", JS.prop data "answer")]);
                        ("finish_reason", VStr "stop")]]);
           ("usage",
            JS.or (JS.opt (JS.prop data "metadata") "usage")
              (VObj [("prompt_tokens", VNum 0);
                     ("completion_tokens", VNum 0);
                     ("total_tokens", VNum 0)]))]).

(** What the stream translator makes of a parsed event. *)
Definition translated (now : Z) (data : value) (key : mapkey) (w : world)
  : value * world :=
  if JS.nullish data then (VNull, w)
  else if JS.is_str (JS.prop data "event") "message"
  then (message_chunk now data, register data key (tick w))
  else if JS.is_str (JS.prop data "event") "message_end"
  then (end_chunk now data, register data key (tick w))
  else (VNull, w).

(** The text handed to [JSON.parse] for a line. *)
Definition payload (line : string) : string :=
  Str.fix_json (Str.trim (Str.replace "data: " EmptyString line)).

(** What the stream translator makes of a line. *)
Definition line_result (JSON_parse : string -> option value) (Date_now : nat -> Z)
    (line : string) (key : mapkey) (w : world) : value * world :=
  if Str.is_empty (Str.trim (Str.replace "data: " EmptyString line)) then (VNull, w)
  else
    match JSON_parse (payload line) with
    | None => (VNull, w)
    | Some data => translated (Date_now (clock w)) data key w
    end.

(** The frame written for a chunk. *)
Definition frame (JSON_stringify : value -> string) (chunk : value) : string :=
  "data: " +:+ JSON_stringify chunk +:+ Str.nl +:+ Str.nl.

(** One turn of the loop of the data handler. *)
Definition relay_line (JSON_parse : string -> option value)
    (JSON_stringify : value -> string) (Date_now : nat -> Z)
    (key : mapkey) (w : world) (line : string) : world :=
  let (chunk, w2) := line_result JSON_parse Date_now line key w in
  if JS.truthy chunk
  then with_res (fun calls => calls ++ [Write (frame JSON_stringify chunk)]) w2
  else w2.

(** The lines of a data frame that the handler translates. *)
Definition event_lines (chunkStr : string) : list string :=
  List.filter (fun line => Str.startsWith line "data:") (Str.split_lines chunkStr).

(** The world after a handler of the relay has run on an event. *)
Definition relay_event (JSON_parse : string -> option value)
    (JSON_stringify : value -> string) (Date_now : nat -> Z)
    (key : mapkey) (w : world) (ev : stream_event) : world :=
  match ev with
  | DataEvent chunkStr =>
      fold_left (relay_line JSON_parse JSON_stringify Date_now key)
        (event_lines chunkStr) w
  | ErrorEvent | EndEvent =>
      with_res (fun calls => calls ++ [Write sentinel; End_]) w
  end.

(** The request body the handler posts: the translated request, switched
    to blocking mode when the client did not ask for a stream. *)
Definition outbound (store : gmap mapkey value) (number : nat) (body : value)
    (msgs : list value) (m : value) : value :=
  let translated :=
    request store (conversationKey number msgs) (JS.prop body "user") msgs m in
  if JS.truthy (JS.default_to (JS.prop body "stream") (VBool false))
  then translated
  else spread_with translated "response_mode" (VStr "blocking").

(** [choices[0].delta] and [choices[0].finish_reason] of a chunk. *)
Definition delta (chunk : value) : value :=
  JS.prop (JS.first (JS.prop chunk "choices")) "delta".

Definition finish_reason (chunk : value) : value :=
  JS.prop (JS.first (JS.prop chunk "choices")) "finish_reason".

End Pure.

(** ** Lines of the backend stream *)

Module Line.

(** [line] is a backend event line carrying the event [data]: it is one
    line that starts with [data:] and whose payload parses to [data]. *)
Definition carries (JSON_parse : string -> option value)
    (line : string) (data : value) : Prop :=
  Str.startsWith line "data:" = true
  /\ Str.no_newline line = true
  /\ Str.is_empty (Str.trim (Str.replace "data: " EmptyString line)) = false
  /\ JSON_parse (Pure.payload line) = Some data.

(** [line] is a line of the backend stream that does not parse, even after
    the repair. *)
Definition unparseable (JSON_parse : string -> option value) (line : string) : Prop :=
  Str.no_newline line = true /\ JSON_parse (Pure.payload line) = None.

(** [line] carries a [message] event with the given answer, or a
    [message_end] event. *)
Definition message_event (JSON_parse : string -> option value)
    (line : string) (answer : string) : Prop :=
  exists data,
    carries JSON_parse line data
    /\ JS.prop data "event" = VStr "message"
    /\ JS.prop data "answer" = VStr answer.


(** An event as the backend frames it: the line, then a blank line. *)
Definition framed (line : string) : string :=
  Str.join_lines [line; EmptyString; EmptyString].

End Line.

(** ** The operations on the registry *)

Module Registry.

(** The registry after a step is the one before it, or that one with a
    truthy value put in. *)
Definition written (before after : gmap mapkey value) : Prop :=
  after = before
  \/ exists key id, JS.truthy id = true /\ after = <[key := id]> before.

(** One run of a piece of code that reads or writes [conversationStore]
    (lines 62, 204, 235 and 351), on any input: the handling of a request,
    the relay of the events of a backend stream, and their parts, which are
    a request translation, the handling of a blocking reply and the
    translation of a line of the backend stream. *)
Inductive operation
    (JSON_parse : string -> option value) (JSON_stringify : value -> string)
    (ToString : value -> string) (Date_now : nat -> Z)
    (difyClient_post : value -> bool -> post_result)
  : world -> world -> Prop :=
| op_request request body w :
    operation JSON_parse JSON_stringify ToString Date_now difyClient_post w
      (snd (chat_completions ToString Date_now difyClient_post request body w))
| op_stream key events w :
    operation JSON_parse JSON_stringify ToString Date_now difyClient_post w
      (snd (relay JSON_parse JSON_stringify Date_now key events w))
| op_translate messages key user w :
    operation JSON_parse JSON_stringify ToString Date_now difyClient_post w
      (snd (convertOpenAIToDifyFormat messages key user w))
| op_reply data key w :
    operation JSON_parse JSON_stringify ToString Date_now difyClient_post w
      (snd (blocking_reply Date_now data key w))
| op_line line key w :
    operation JSON_parse JSON_stringify ToString Date_now difyClient_post w
      (snd (convertDifyToOpenAIStreamFormat JSON_parse Date_now line key w)).

End Registry.

(** ** Properties of computations *)

(** [m] returns [a] and leaves the world as it was. *)
Definition returns {A} (m : M A) (a : A) : Prop :=
  forall w, m w = (Return a, w).

(** [m] leaves the world as it was, whether it returns or throws. *)
Definition readonly {A} (m : M A) : Prop :=
  forall w, snd (m w) = w.

(** The world after a translation: one more array, [messagesCopy],
    reversed. *)
Definition after_translation (w : world) (msgs : list value) : world :=
  with_arrays (fun h => h ++ [rev msgs]) w.

(** The world when the handler has translated the request: the array
    object [messages] and the reversed copy. *)
Definition handler_world (w : world) (msgs : list value) : world :=
  after_translation (with_arrays (fun h => h ++ [msgs]) w) msgs.

(** ** Example data *)

Module Example.

Definition message (role content : string) : value :=
  VObj [("role", VStr role); ("content", VStr content)].

(** An assistant message that echoes a conversation id. *)
Definition reply (content id : string) : value :=
  VObj [("role", VStr "assistant"); ("content", VStr content);
        ("conversation_id", VStr id)].

Definition conversation : list value :=
  [message "system" "Be brief."; message "user" "Hello!";
   message "assistant" "Hi."; message "user" "More?"].

(** A world in which [conversation] is the array object at address 0. *)
Definition world_of (store : gmap mapkey value) (msgs : list value) : world :=
  World store [msgs] 0 [] [].

(** A follow-up request whose assistant message echoes the id "zzz". *)
Definition followup : list value :=
  [message "user" "Hello!"; reply "Hi." "zzz"; message "user" "More?"].

(** A registry that knows the conversation starting with "Hello!". *)
Definition known : gmap mapkey value := {[ KStr "Hello!" := VStr "abc" ]}.

(** *** A runtime to run the examples in *)

Definition quoted (s : string) : string :=
  String Str.dquote (s +:+ String Str.dquote EmptyString).

(** The JSON text of an object whose values are strings without escapes. *)
Fixpoint members (fields : list (string * string)) : string :=
  match fields with
  | [] => EmptyString
  | [(k, v)] => quoted k +:+ ": " +:+ quoted v
  | (k, v) :: rest => quoted k +:+ ": " +:+ quoted v +:+ ", " +:+ members rest
  end.

Definition text (fields : list (string * string)) : string :=
  "{" +:+ members fields +:+ "}".

Definition object (fields : list (string * string)) : value :=
  VObj (List.map (fun kv => (fst kv, VStr (snd kv))) fields).

(** The line of the backend stream for an event. *)
Definition line (fields : list (string * string)) : string :=
  "data: " +:+ text fields.

(** [JSON.parse] on the texts of the given objects; a [SyntaxError] on any
    other text. *)
Definition parse_known (known : list (list (string * string))) (s : string)
  : option value :=
  option_map object (List.find (fun fields => String.eqb (text fields) s) known).

Definition hi : list (string * string) := [("event", "message"); ("answer", "Hi")].
Definition there : list (string * string) := [("event", "message"); ("answer", " there")].
Definition finished : list (string * string) := [("event", "message_end")].
Definition named : list (string * string) :=
  [("event", "message"); ("answer", "Hi"); ("conversation_id", "abc")].
Definition ping : list (string * string) := [("event", "ping")].

Definition JSON_parse : string -> option value :=
  parse_known [hi; there; finished; named; ping].

(** A line that is no JSON at all. *)
Definition garbage : string := "data: {oops".

(** [JSON.stringify] on the values the server sends: properties that are
    [undefined] are left out; strings are taken to need no escapes. *)
Fixpoint JSON_stringify (v : value) : string :=
  match v with
  | VUndef | VNull => "null"
  | VBool true => "true"
  | VBool false => "false"
  | VNum n => NilZero.string_of_int (Z.to_int n)
  | VStr s => quoted s
  | VArr elems =>
      "[" +:+ (fix items (l : list value) : string :=
                 match l with
                 | [] => EmptyString
                 | [x] => JSON_stringify x
                 | x :: rest => JSON_stringify x +:+ "," +:+ items rest
                 end) elems +:+ "]"
  | VObj fields =>
      "{" +:+ (fix props (l : list (string * value)) (sep : string) : string :=
                 match l with
                 | [] => EmptyString
                 | (_, VUndef) :: rest => props rest sep
                 | (k, x) :: rest =>
                     sep +:+ quoted k +:+ ":" +:+ JSON_stringify x +:+ props rest ","
                 end) fields EmptyString +:+ "}"
  end.

(** A value inside a template literal; only strings occur in the examples. *)
Definition ToString (v : value) : string :=
  match v with
  | VStr s => s
  | _ => JSON_stringify v
  end.

Definition Date_now (n : nat) : Z := 1700000000000 + Z.of_nat n.

(** The blocking reply of the specification's example. *)
Definition reply_m1 : value :=
  object [("message_id", "m1"); ("answer", "Hello!"); ("conversation_id", "c1")].

(** A backend that answers every request with [reply_m1]. *)
Definition difyClient_post (body : value) (streaming : bool) : post_result :=
  Resolved reply_m1.

(** A backend that answers every request with the conversation id "abc". *)
Definition reply_abc : value :=
  object [("message_id", "m2"); ("answer", "Hi."); ("conversation_id", "abc")].

Definition abc_backend (body : value) (streaming : bool) : post_result :=
  Resolved reply_abc.

(** A backend whose replies carry a number as conversation id. *)
Definition reply_7 : value :=
  VObj [("message_id", VStr "m3"); ("answer", VStr "Hi."); ("conversation_id", VNum 7)].

Definition numeric_backend (body : value) (streaming : bool) : post_result :=
  Resolved reply_7.

(** Request bodies: a first request, and a follow-up that starts with the
    same message. *)
Definition body_of (msgs : list value) : value := VObj [("messages", VArr msgs)].

Definition opening : list value := [message "user" "Hello!"].

Definition plain_followup : list value :=
  [message "user" "Hello!"; message "assistant" "Hi."; message "user" "More?"].

(** The world when the server starts. *)
Definition start : world := World ∅ [] 0 [] [].

(** The conversation ids of the request bodies posted so far. *)
Definition posted_ids (w : world) : list value :=
  List.map (fun body => JS.prop body "conversation_id") (sent w).

End Example.

(** ** More of the server: the repair, logging, the earlier translator *)

Module Repair.

(** The text starts with a white-space character, of one, two or three
    bytes. *)
Definition starts_white (s : string) : bool :=
  match s with
  | String c1 r1 =>
      Str.ws1 c1
      || match r1 with
         | String c2 r2 =>
             Str.ws2 c1 c2
             || match r2 with
                | String c3 _ => Str.ws3 c1 c2 c3
                | EmptyString => false
                end
         | EmptyString => false
         end
  | EmptyString => false
  end.

(** No double quote of the text is directly followed by a white-space
    character. *)
Fixpoint tight (s : string) : bool :=
  match s with
  | EmptyString => true
  | String c r =>
      (if Ascii.eqb c Str.dquote then negb (starts_white r) else true) && tight r
  end.

(** One or more of TAB, LF, VT, FF, CR and SP. *)
Fixpoint spaces (s : string) : bool :=
  match s with
  | EmptyString => true
  | String c r => Str.ws1 c && spaces r
  end.

Definition blank (s : string) : bool := negb (Str.is_empty s) && spaces s.

(** The text starts with a closing brace. *)
Definition closes (s : string) : bool :=
  match s with
  | String c _ => Ascii.eqb c "}"%char
  | EmptyString => false
  end.

(** A double quote, a gap, a double quote: what the repair looks for. *)
Definition gap (ws : string) (rest : string) : string :=
  String Str.dquote (ws +:+ String Str.dquote rest).

(** What the repair puts in place of the quotes and the gap. *)
Definition comma (rest : string) : string :=
  String Str.dquote (", " +:+ String Str.dquote rest).

End Repair.

Module Log.

(** [s.toLowerCase()] on the letters A to Z.  No other character has a
    lower-case form made of the letters of the names below, so this decides
    the same look-ups as the full conversion. *)
Definition lower (c : ascii) : ascii :=
  let n := nat_of_ascii c in
  if Nat.leb 65 n && Nat.leb n 90 then ascii_of_nat (n + 32) else c.

Fixpoint toLowerCase (s : string) : string :=
  match s with
  | EmptyString => EmptyString
  | String c r => String (lower c) (toLowerCase r)
  end.

(** What [LOG_LEVELS[name]] finds: a level of the table of lines 12 to 17,
    a member inherited from [Object.prototype], or nothing. *)
Inductive found : Type :=
| Level (n : Z)
| Inherited
| Nothing.

Definition inherited : list string :=
  ["constructor"; "__proto__"; "hasOwnProperty"; "isPrototypeOf";
   "propertyIsEnumerable"; "toLocaleString"; "toString"; "valueOf";
   "__defineGetter__"; "__defineSetter__"; "__lookupGetter__"; "__lookupSetter__"].

Definition LOG_LEVELS (name : string) : found :=
  if String.eqb name "error" then Level 0
  else if String.eqb name "warn" then Level 1
  else if String.eqb name "info" then Level 2
  else if String.eqb name "debug" then Level 3
  else if existsb (String.eqb name) inherited then Inherited
  else Nothing.

(** [LOG_LEVELS[process.env.LOG_LEVEL?.toLowerCase()] ?? LOG_LEVELS.info],
    line 19; [None] is an unset variable. *)
Definition currentLogLevel (LOG_LEVEL : option string) : found :=
  match LOG_LEVEL with
  | None => LOG_LEVELS "info"
  | Some setting =>
      match LOG_LEVELS (toLowerCase setting) with
      | Nothing => LOG_LEVELS "info"
      | level => level
      end
  end.

(** The test of line 22, [LOG_LEVELS[level] <= currentLogLevel]: a
    comparison with a value that is no number is false. *)
Definition writes (LOG_LEVEL : option string) (level : string) : bool :=
  match LOG_LEVELS level, currentLogLevel LOG_LEVEL with
  | Level a, Level b => (a <=? b)%Z
  | _, _ => false
  end.

(** The text has a letter from A to Z. *)
Fixpoint has_upper (s : string) : bool :=
  match s with
  | EmptyString => false
  | String c r =>
      (Nat.leb 65 (nat_of_ascii c) && Nat.leb (nat_of_ascii c) 90) || has_upper r
  end.

(** The method of [console] that line 24 calls. *)
Definition console_method (level : string) : string :=
  if String.eqb level "debug" then "log" else level.

End Log.

Module Old.

(** [convertOpenAIToDifyFormat(messages)] of the earlier server
    (src/unnamed/part_000, lines 219 to 237): it reverses the caller's array
    itself. *)
Definition convertOpenAIToDifyFormat (messages : loc) : M value :=
  let* reversed := Arr.reverse messages in
  let* elems := Arr.read reversed in
  let* lastUserMessage :=
    Arr.find (fun msg => let* role := get msg "role" in ret (JS.is_str role "user")) elems in
  if negb (JS.truthy lastUserMessage) then throw (Error "No user message found")
  else
    let* elems := Arr.read messages in
    let* lastAssistantMessage :=
      Arr.find (fun msg => let* role := get msg "role" in
                           ret (JS.is_str role "assistant")) elems in
    let conversationId :=
      JS.or (JS.opt lastAssistantMessage "conversationId") (VStr EmptyString) in
    let* query := get lastUserMessage "content" in
    ret (VObj [("query", query);
               ("conversation_id", conversationId);
               ("user", VStr "default-user");
               ("inputs", VObj []);
               ("response_mode", VStr "streaming")]).

End Old.

Module Sample.

(** The three headers of an event stream, lines 277 to 279. *)
Definition sse_headers : list res_call :=
  [SetHeader "Content-Type" "text/event-stream";
   SetHeader "Cache-Control" "no-cache";
   SetHeader "Connection" "keep-alive"].

(** A call that sets a header or the status: it sends no body. *)
Definition head_call (c : res_call) : bool :=
  match c with
  | SetHeader _ _ | Status _ => true
  | _ => false
  end.

(** The non-system messages, which make the history. *)
Definition non_system (msgs : list value) : list value :=
  List.filter (fun msg => negb (Spec.has_role "system" msg)) msgs.

(** The conversation id an entry of the history gets from its own message:
    the id an assistant message carries. *)
Definition own_id (msg : value) : option value :=
  if Spec.has_role "assistant" msg then Spec.carried_id msg else None.

(** The first user-role entry. *)
Definition first_user (msgs : list value) : option value :=
  List.find (Spec.has_role "user") msgs.

(** [typeof v === 'object'] for a [v] that is not [null]: such a value is a
    [Map] key by identity. *)
Definition is_object (v : value) : bool :=
  match v with
  | VArr _ | VObj _ => true
  | _ => false
  end.

(** A request whose first message has a list of parts as content. *)
Definition parts : value := VArr [VObj [("type", VStr "text"); ("text", VStr "Hello!")]].

Definition structured : list value :=
  [VObj [("role", VStr "user"); ("content", parts)]].

(** A backend that is down: every call is rejected with status 503. *)
Definition unavailable : value :=
  VObj [("status", VNum 503); ("data", VObj [("message", VStr "overloaded")])].

Definition failing_backend (body : value) (streaming : bool) : post_result :=
  Rejected (AxiosError unavailable "Request failed with status code 503").

(** The line of the event "Hi", cut in two inside the JSON text. *)
Definition head : string := "data: {" +:+ Example.quoted "event" +:+ ": ".

Definition tail : string :=
  Example.quoted "message" +:+ ", " +:+ Example.quoted "answer" +:+ ": "
  +:+ Example.quoted "Hi" +:+ "}".

(** An event line without the space after the colon. *)
Definition unspaced : string := "data:" +:+ Example.text Example.hi.

(** An event whose answer is one blank, followed by another property: the
    text up to the answer, and the text after it. *)
Definition before_answer : string := "{" +:+ Example.quoted "answer" +:+ ": ".

Definition after_answer : string :=
  ", " +:+ Example.quoted "id" +:+ ": " +:+ Example.quoted "x" +:+ "}".

(** Another conversation that opens with the same message. *)
Definition other : list value :=
  [Example.message "user" "Hello!"; Example.message "assistant" "Good day.";
   Example.message "user" "What is the weather?"].

(** An answer that starts with a character of three bytes that is no white
    space, the dash U+2014, in compact JSON. *)
Definition dash : string :=
  String "226"%char (String "128"%char (String "148"%char EmptyString)).

Definition dashed : string :=
  "{" +:+ Example.quoted "answer" +:+ ":" +:+ Example.quoted dash +:+ "}".

End Sample.

Module Sent.

(** [text] is the JSON text of a [message] event with the given answer, as
    the backend sends it: one line, with no white space around it, that
    [JSON.parse] reads, as it is, as such an event. *)
Definition message_text (JSON_parse : string -> option value)
    (text : string) (answer : string) : Prop :=
  Str.no_newline text = true
  /\ Str.trim text = text
  /\ text <> EmptyString
  /\ exists data,
       JSON_parse text = Some data
       /\ JS.prop data "event" = VStr "message"
       /\ JS.prop data "answer" = VStr answer.

(** The line of the backend stream for a text. *)
Definition event_line (text : string) : string := "data: " +:+ text.

End Sent.

(** * Proofs *)

(** ** Reasoning about computations *)

Create HintDb returns.
Create HintDb readonly.

Lemma bind_eval {A B} (m : M A) (k : A -> M B) w a w' :
  m w = (Return a, w') -> bind m k w = k a w'.
Proof. intros H. unfold bind. now rewrite H. Qed.

Lemma bind_throw {A B} (m : M A) (k : A -> M B) w e w' :
  m w = (Throw e, w') -> bind m k w = (Throw e, w').
Proof. intros H. unfold bind. now rewrite H. Qed.

Lemma returns_ret {A} (a : A) : returns (ret a) a.
Proof. intros w. reflexivity. Qed.

Lemma returns_bind {A B} (m : M A) (k : A -> M B) a b :
  returns m a -> returns (k a) b -> returns (bind m k) b.
Proof. intros Hm Hk w. rewrite (bind_eval _ _ _ _ _ (Hm w)). apply Hk. Qed.

Lemma returns_get v name :
  JS.nullish v = false -> returns (get v name) (JS.prop v name).
Proof. intros H w. unfold get. now rewrite H. Qed.

Lemma returns_get_first v :
  JS.nullish v = false -> returns (get_first v) (JS.first v).
Proof. intros H w. unfold get_first. now rewrite H. Qed.

Lemma returns_or_else a b x y :
  returns a x -> returns b y -> returns (or_else a b) (JS.or x y).
Proof.
  intros Ha Hb w. unfold or_else, JS.or.
  rewrite (bind_eval _ _ _ _ _ (Ha w)).
  destruct (JS.truthy x); [reflexivity | apply Hb].
Qed.

Lemma returns_and_then a b x y :
  returns a x -> (JS.truthy x = true -> returns b y) ->
  returns (and_then a b) (if JS.truthy x then y else x).
Proof.
  intros Ha Hb w. unfold and_then.
  rewrite (bind_eval _ _ _ _ _ (Ha w)).
  destruct (JS.truthy x); [now apply Hb | reflexivity].
Qed.

Lemma truthy_not_nullish v : JS.truthy v = true -> JS.nullish v = false.
Proof. now destruct v. Qed.

Lemma returns_get_opt v a b :
  JS.nullish v = false -> returns (get_opt v a b) (JS.opt (JS.prop v a) b).
Proof.
  intros H. unfold get_opt.
  eapply returns_bind; [now apply returns_get | apply returns_ret].
Qed.

Lemma returns_get_choice v a b :
  JS.nullish v = false -> JS.truthy (JS.prop v "choices") = true ->
  returns (get_choice v a b)
          (JS.opt (JS.opt (JS.first (JS.prop v "choices")) a) b).
Proof.
  intros H Hc. unfold get_choice.
  eapply returns_bind; [now apply returns_get |].
  eapply returns_bind; [apply returns_get_first, truthy_not_nullish, Hc |].
  apply returns_ret.
Qed.

Lemma returns_in_choice msg a :
  JS.nullish msg = false ->
  returns (and_then (get msg "choices") (get_choice msg a "conversation_id"))
          (Pure.in_choice msg a).
Proof.
  intros H. unfold Pure.in_choice.
  apply returns_and_then; [now apply returns_get |].
  intros Hc. now apply returns_get_choice.
Qed.

Lemma returns_log {A} (m : M A) a : returns m a -> returns (log m) tt.
Proof. intros H. unfold log. eapply returns_bind; [apply H | apply returns_ret]. Qed.

Lemma returns_find (p : value -> M bool) (q : value -> bool) elems :
  Forall (fun x => returns (p x) (q x)) elems ->
  returns (Arr.find p elems) (default VUndef (List.find q elems)).
Proof.
  induction 1 as [| x rest Hx _ IH]; simpl; [apply returns_ret |].
  intros w. rewrite (bind_eval _ _ _ _ _ (Hx w)).
  destruct (q x); [reflexivity | apply IH].
Qed.

Lemma returns_map (f : value -> M value) (g : value -> value) elems :
  Forall (fun x => returns (f x) (g x)) elems ->
  returns (Arr.map f elems) (List.map g elems).
Proof.
  induction 1 as [| x rest Hx _ IH]; simpl; [apply returns_ret |].
  eapply returns_bind; [apply Hx |].
  eapply returns_bind; [apply IH | apply returns_ret].
Qed.

Lemma returns_filter (p : value -> M bool) (q : value -> bool) elems :
  Forall (fun x => returns (p x) (q x)) elems ->
  returns (Arr.filter p elems) (List.filter q elems).
Proof.
  induction 1 as [| x rest Hx _ IH]; simpl; [apply returns_ret |].
  eapply returns_bind; [apply Hx |].
  eapply returns_bind; [apply IH |].
  destruct (q x); apply returns_ret.
Qed.

Lemma returns_for_of {A S} (body : A -> S -> M S) (f : S -> A -> S) elems :
  Forall (fun x => forall s, returns (body x s) (f s x)) elems ->
  forall s, returns (Arr.for_of elems body s) (fold_left f elems s).
Proof.
  induction 1 as [| x rest Hx _ IH]; intros s; simpl; [apply returns_ret |].
  eapply returns_bind; [apply Hx | apply IH].
Qed.

#[global] Hint Resolve returns_ret returns_get returns_get_opt returns_in_choice
  returns_or_else : returns.

(** The loop body on a message with properties. *)
Lemma returns_history_step msg s :
  JS.nullish msg = false -> returns (history_step msg s) (Pure.step s msg).
Proof.
  intros H. destruct s as [conversationId history].
  unfold history_step, Pure.step, Pure.entry.
  eapply returns_bind.
  { apply returns_or_else; [auto with returns |].
    apply returns_or_else; [auto with returns |].
    apply returns_or_else; auto with returns. }
  eapply returns_bind.
  { apply returns_or_else; [auto with returns |].
    apply returns_or_else; [auto with returns |].
    apply returns_or_else; auto with returns. }
  eapply returns_bind; [auto with returns |].
  eapply returns_bind with (a := Pure.msgConversationId msg).
  { unfold Pure.msgConversationId, Spec.has_role.
    destruct (JS.is_str (JS.prop msg "role") "assistant"); [| apply returns_ret].
    repeat (apply returns_or_else; [auto with returns |]). apply returns_ret. }
  eapply returns_bind; [auto with returns |].
  fold (Pure.content msg). fold (Pure.messageId msg).
  replace (if JS.is_str (JS.prop msg "role") "assistant"
              && JS.truthy (Pure.msgConversationId msg)
           then Pure.msgConversationId msg else conversationId)
    with (if JS.truthy (Pure.msgConversationId msg)
          then Pure.msgConversationId msg else conversationId).
  { apply returns_ret. }
  unfold Pure.msgConversationId, Spec.has_role.
  destruct (JS.is_str (JS.prop msg "role") "assistant"); reflexivity.
Qed.

(** ** The request translator evaluated *)

Lemma find_append {A} (p : A -> bool) (l1 l2 : list A) :
  List.find p (l1 ++ l2) =
    match List.find p l1 with
    | Some x => Some x
    | None => List.find p l2
    end.
Proof.
  induction l1 as [| a l1 IH]; simpl; [reflexivity |].
  now destruct (p a).
Qed.

Lemma find_rev_last {A} (p : A -> bool) (l : list A) :
  List.find p (rev l) = last (List.filter p l).
Proof.
  induction l as [| a l IH]; [reflexivity |].
  simpl. rewrite find_append, IH. simpl.
  destruct (p a) eqn:Hpa.
  - rewrite last_cons. now destruct (last (List.filter p l)).
  - now destruct (last (List.filter p l)).
Qed.

Lemma fold_step_history msgs s :
  snd (fold_left Pure.step msgs s) = snd s ++ List.map Pure.entry msgs.
Proof.
  revert s. induction msgs as [| m msgs IH]; intros s; simpl.
  - now rewrite app_nil_r.
  - rewrite IH. simpl. now rewrite <- app_assoc.
Qed.

Lemma message_list_filter p msgs :
  Spec.message_list msgs -> Spec.message_list (List.filter p msgs).
Proof.
  unfold Spec.message_list. induction 1 as [| m msgs Hm _ IH]; simpl.
  - constructor.
  - destruct (p m); [constructor |]; assumption.
Qed.

Lemma has_role_object role msg :
  Spec.has_role role msg = true -> exists fields, msg = VObj fields.
Proof.
  unfold Spec.has_role. destruct msg; simpl; try discriminate. eauto.
Qed.

Lemma convertOpenAIToDifyFormat_eval messages key user w msgs :
  arrays w !! messages = Some msgs ->
  Spec.message_list msgs ->
  convertOpenAIToDifyFormat messages key user w =
    (match Spec.last_user msgs with
     | Some m => Return (Pure.request (conversationStore w) key user msgs m)
     | None => Throw (Error "No user message found")
     end, after_translation w msgs).
Proof.
  intros Hmsgs Hwf. unfold convertOpenAIToDifyFormat.
  assert (Hread : Arr.read messages w = (Return msgs, w)).
  { unfold Arr.read. now rewrite Hmsgs. }
  rewrite (bind_eval _ _ _ _ _ Hread).
  rewrite (bind_eval _ _ _ (length (arrays w))
             (with_arrays (fun h => h ++ [msgs]) w)) by reflexivity.
  set (w2 := after_translation w msgs).
  assert (Hrev : Arr.reverse (length (arrays w))
                   (with_arrays (fun h => h ++ [msgs]) w)
                 = (Return (length (arrays w)), w2)).
  { unfold Arr.reverse, w2, after_translation, with_arrays. simpl. do 2 f_equal.
    rewrite <- (Nat.add_0_r (length (arrays w))) at 1.
    now rewrite alter_app_r. }
  rewrite (bind_eval _ _ _ _ _ Hrev).
  assert (Hread2 : Arr.read (length (arrays w)) w2 = (Return (rev msgs), w2)).
  { unfold Arr.read, w2, after_translation, with_arrays. simpl.
    now rewrite list_lookup_middle. }
  rewrite (bind_eval _ _ _ _ _ Hread2).
  assert (Hread3 : Arr.read messages w2 = (Return msgs, w2)).
  { unfold Arr.read, w2, after_translation, with_arrays. simpl.
    now rewrite (lookup_app_l_Some _ _ _ _ Hmsgs). }
  assert (Hfind : returns
            (Arr.find (fun msg => let* role := get msg "role" in
                                  ret (JS.is_str role "user")) (rev msgs))
            (default VUndef (Spec.last_user msgs))).
  { unfold Spec.last_user. rewrite <- find_rev_last.
    apply returns_find. apply Forall_rev.
    eapply Forall_impl; [apply Hwf |]. intros msg Hmsg. simpl in Hmsg.
    eapply returns_bind; [now apply returns_get | apply returns_ret]. }
  rewrite (bind_eval _ _ _ _ _ (Hfind w2)).
  destruct (Spec.last_user msgs) as [m |] eqn:Hlast; simpl; [| reflexivity].
  assert (Hm : exists fields, m = VObj fields).
  { unfold Spec.last_user in Hlast. apply last_Some_elem_of in Hlast.
    apply list_elem_of_In, filter_In in Hlast. destruct Hlast as [_ Hrole].
    now apply has_role_object in Hrole. }
  destruct Hm as [fields ->]. simpl.
  rewrite (bind_eval _ _ _ _ _ (eq_refl : store_get key w2 = (Return _, w2))).
  rewrite (bind_eval _ _ _ _ _ Hread3).
  assert (Hlog1 : returns
    (log (Arr.map (fun msg =>
           let* hasDirectId := get msg "conversation_id" in
           let* hasChoices := get msg "choices" in
           let* hasMessage := get msg "message" in
           let* hasDelta := get msg "delta" in
           ret (VObj [("hasDirectId", VBool (JS.truthy hasDirectId));
                      ("hasChoices", VBool (JS.truthy hasChoices));
                      ("hasMessage", VBool (JS.truthy hasMessage));
                      ("hasDelta", VBool (JS.truthy hasDelta))])) msgs)) tt).
  { eapply returns_log. eapply returns_map with (g := fun msg => _).
    eapply Forall_impl; [apply Hwf |]. intros msg Hmsg. simpl in Hmsg.
    repeat (eapply returns_bind; [now apply returns_get |]). apply returns_ret. }
  rewrite (bind_eval _ _ _ _ _ (Hlog1 w2)).
  rewrite (bind_eval _ _ _ _ _ Hread3).
  assert (Hlog2 : returns
    (log (get (VObj fields) "content" ;;
         Arr.map (fun m =>
           let* role := get m "role" in
           let* content := get m "content" in
           let* id := or_else (get m "message_id") (get m "id") in
           ret (VObj [("role", role); ("content", content); ("id", id)])) msgs)) tt).
  { eapply returns_log. eapply returns_bind; [now apply returns_get |].
    eapply returns_map with (g := fun msg => _).
    eapply Forall_impl; [apply Hwf |]. intros msg Hmsg. simpl in Hmsg.
    repeat (eapply returns_bind; [now apply returns_get |]).
    eapply returns_bind; [apply returns_or_else; now apply returns_get |].
    apply returns_ret. }
  rewrite (bind_eval _ _ _ _ _ (Hlog2 w2)).
  rewrite (bind_eval _ _ _ _ _ Hread3).
  assert (Hfilter : returns
    (Arr.filter (fun msg => let* role := get msg "role" in
                            ret (negb (JS.is_str role "system"))) msgs)
    (List.filter (fun msg => negb (Spec.has_role "system" msg)) msgs)).
  { apply returns_filter.
    eapply Forall_impl; [apply Hwf |]. intros msg Hmsg. simpl in Hmsg.
    eapply returns_bind; [now apply returns_get | apply returns_ret]. }
  rewrite (bind_eval _ _ _ _ _ (Hfilter w2)).
  set (nonSystem := List.filter (fun msg => negb (Spec.has_role "system" msg)) msgs).
  assert (Hloop : returns
    (Arr.for_of nonSystem history_step (JS.or (default VUndef (conversationStore w2 !! key))
                                              (VStr EmptyString), []))
    (fold_left Pure.step nonSystem (Spec.registered (conversationStore w) key, []))).
  { apply returns_for_of.
    eapply Forall_impl; [apply (message_list_filter _ _ Hwf) |].
    intros msg Hmsg s. now apply returns_history_step. }
  rewrite (bind_eval _ _ _ _ _ (Hloop w2)).
  unfold Pure.request. fold nonSystem.
  destruct (fold_left Pure.step nonSystem
              (Spec.registered (conversationStore w) key, [])) as [cid hist] eqn:Hfold.
  rewrite (bind_eval _ _ _ _ _ (eq_refl : get (VObj fields) "content" w2 = (Return _, w2))).
  simpl fst. simpl snd.
  destruct (JS.truthy cid) eqn:Hcid.
  - assert (Hstamp : returns
      (Arr.map (fun msg => let* own := get msg "conversation_id" in
                  ret (spread_with msg "conversation_id" (JS.or own cid))) hist)
      (List.map (Pure.stamp cid) hist)).
    { apply returns_map.
      pose proof (fold_step_history nonSystem
                    (Spec.registered (conversationStore w) key, [])) as Hh.
      rewrite Hfold in Hh. simpl in Hh. subst hist.
      apply Forall_forall. intros e He.
      apply list_elem_of_In, in_map_iff in He. destruct He as [msg [<- _]].
      eapply returns_bind; [now apply returns_get | apply returns_ret]. }
    now rewrite (bind_eval _ _ _ _ _ (Hstamp w2)).
  - reflexivity.
Qed.

(** ** Computations that leave the world alone *)

Lemma readonly_ret {A} (a : A) : readonly (ret a).
Proof. intros w. reflexivity. Qed.

Lemma readonly_throw {A} e : readonly (@throw A e).
Proof. intros w. reflexivity. Qed.

Lemma readonly_bind {A B} (m : M A) (k : A -> M B) :
  readonly m -> (forall a, readonly (k a)) -> readonly (bind m k).
Proof.
  intros Hm Hk w. unfold bind. specialize (Hm w).
  destruct (m w) as [[a | e] w']; simpl in Hm; subst w'; [apply Hk | reflexivity].
Qed.

Lemma readonly_get v name : readonly (get v name).
Proof. intros w. unfold get. now destruct (JS.nullish v). Qed.

Lemma readonly_get_first v : readonly (get_first v).
Proof. intros w. unfold get_first. now destruct (JS.nullish v). Qed.

Lemma readonly_store_get key : readonly (store_get key).
Proof. intros w. reflexivity. Qed.

Lemma readonly_read a : readonly (Arr.read a).
Proof. intros w. reflexivity. Qed.

Lemma readonly_if {A} (c : bool) (a b : M A) :
  readonly a -> readonly b -> readonly (if c then a else b).
Proof. now destruct c. Qed.

Lemma readonly_or_else a b : readonly a -> readonly b -> readonly (or_else a b).
Proof.
  intros Ha Hb. unfold or_else. apply readonly_bind; [assumption |].
  intros x. apply readonly_if; [apply readonly_ret | assumption].
Qed.

Lemma readonly_and_then a b : readonly a -> readonly b -> readonly (and_then a b).
Proof.
  intros Ha Hb. unfold and_then. apply readonly_bind; [assumption |].
  intros x. apply readonly_if; [assumption | apply readonly_ret].
Qed.

Lemma readonly_log {A} (m : M A) : readonly m -> readonly (log m).
Proof.
  intros H. unfold log. apply readonly_bind; [assumption |].
  intros _. apply readonly_ret.
Qed.

#[global] Hint Resolve readonly_ret readonly_throw readonly_get readonly_get_first
  readonly_store_get readonly_read readonly_if readonly_or_else readonly_and_then
  readonly_log : readonly.

Ltac readonly_steps :=
  repeat first
    [ solve [auto with readonly]
    | apply readonly_or_else
    | apply readonly_and_then
    | apply readonly_if
    | apply readonly_log
    | apply readonly_bind; [| intros ?]
    | match goal with
      | |- readonly (match ?x with (_, _) => _ end) => destruct x
      | |- readonly (let (_, _) := ?x in _) => destruct x
      end ].

Lemma readonly_get_opt v a b : readonly (get_opt v a b).
Proof. unfold get_opt. readonly_steps. Qed.

Lemma readonly_get_choice v a b : readonly (get_choice v a b).
Proof. unfold get_choice. readonly_steps. Qed.

#[global] Hint Resolve readonly_get_opt readonly_get_choice : readonly.

Lemma readonly_find p elems :
  (forall x, readonly (p x)) -> readonly (Arr.find p elems).
Proof. intros Hp. induction elems; simpl; readonly_steps. Qed.

Lemma readonly_map f elems :
  (forall x, readonly (f x)) -> readonly (Arr.map f elems).
Proof. intros Hf. induction elems; simpl; readonly_steps. Qed.

Lemma readonly_filter p elems :
  (forall x, readonly (p x)) -> readonly (Arr.filter p elems).
Proof. intros Hp. induction elems; simpl; readonly_steps. Qed.

Lemma readonly_for_of {A S} (body : A -> S -> M S) elems :
  (forall x s, readonly (body x s)) -> forall s, readonly (Arr.for_of elems body s).
Proof.
  intros Hb. induction elems; intros s; simpl; readonly_steps.
Qed.

Lemma readonly_history_step msg s : readonly (history_step msg s).
Proof. unfold history_step. readonly_steps. Qed.

Ltac readonly_all :=
  repeat first
    [ progress readonly_steps
    | apply readonly_find; intros ?
    | apply readonly_map; intros ?
    | apply readonly_filter; intros ?
    | apply readonly_for_of; intros ? ?
    | apply readonly_history_step ].

(** Everything the translator does after [messagesCopy.reverse()]. *)
Lemma readonly_after_reverse messages key user reversed :
  readonly
    (let* elems := Arr.read reversed in
     let* lastUserMessage :=
       Arr.find (fun msg => let* role := get msg "role" in
                            ret (JS.is_str role "user")) elems in
     if negb (JS.truthy lastUserMessage) then throw (Error "No user message found")
     else
       let* stored := store_get key in
       let conversationId := JS.or stored (VStr EmptyString) in
       let* elems := Arr.read messages in
       log (Arr.map (fun msg =>
              let* hasDirectId := get msg "conversation_id" in
              let* hasChoices := get msg "choices" in
              let* hasMessage := get msg "message" in
              let* hasDelta := get msg "delta" in
              ret (VObj [("hasDirectId", VBool (JS.truthy hasDirectId));
                         ("hasChoices", VBool (JS.truthy hasChoices));
                         ("hasMessage", VBool (JS.truthy hasMessage));
                         ("hasDelta", VBool (JS.truthy hasDelta))])) elems) ;;
       let* elems := Arr.read messages in
       log (get lastUserMessage "content" ;;
            Arr.map (fun m =>
              let* role := get m "role" in
              let* content := get m "content" in
              let* id := or_else (get m "message_id") (get m "id") in
              ret (VObj [("role", role); ("content", content); ("id", id)])) elems) ;;
       let* elems := Arr.read messages in
       let* nonSystemMessages :=
         Arr.filter (fun msg =>
           let* role := get msg "role" in ret (negb (JS.is_str role "system"))) elems in
       let* (conversationId, history) :=
         Arr.for_of nonSystemMessages history_step (conversationId, []) in
       let* query := get lastUserMessage "content" in
       let* conversation_history :=
         if JS.truthy conversationId then
           Arr.map (fun msg =>
             let* own := get msg "conversation_id" in
             ret (spread_with msg "conversation_id" (JS.or own conversationId))) history
         else ret history in
       ret (VObj [("query", query);
                  ("conversation_id", conversationId);
                  ("user", user);
                  ("inputs", VObj []);
                  ("response_mode", VStr "streaming");
                  ("conversation_history", VArr conversation_history)])).
Proof. readonly_all. Qed.

(** The world after the translator has run, whatever it was given. *)
Lemma convertOpenAIToDifyFormat_world messages key user w :
  snd (convertOpenAIToDifyFormat messages key user w)
  = after_translation w (default [] (arrays w !! messages)).
Proof.
  unfold convertOpenAIToDifyFormat.
  rewrite (bind_eval _ _ _ _ _ (eq_refl : Arr.read messages w = (Return _, w))).
  set (elems := default [] (arrays w !! messages)).
  rewrite (bind_eval _ _ _ (length (arrays w))
             (with_arrays (fun h => h ++ [elems]) w)) by reflexivity.
  assert (Hrev : Arr.reverse (length (arrays w))
                   (with_arrays (fun h => h ++ [elems]) w)
                 = (Return (length (arrays w)), after_translation w elems)).
  { unfold Arr.reverse, after_translation, with_arrays. simpl. do 2 f_equal.
    rewrite <- (Nat.add_0_r (length (arrays w))) at 1.
    now rewrite alter_app_r. }
  rewrite (bind_eval _ _ _ _ _ Hrev).
  apply (readonly_after_reverse messages key
           (JS.default_to user (VStr "default-user")) (length (arrays w))).
Qed.

(** ** The request translator: query, conversation id, effects *)

Lemma last_user_exists msgs :
  existsb (Spec.has_role "user") msgs = true ->
  exists m, Spec.last_user msgs = Some m.
Proof.
  intros H. apply existsb_exists in H. destruct H as [m [Hin Hm]].
  unfold Spec.last_user.
  destruct (last (List.filter (Spec.has_role "user") msgs)) as [x |] eqn:Hlast; [eauto |].
  apply last_None in Hlast.
  assert (Hf : In m (List.filter (Spec.has_role "user") msgs)) by now apply filter_In.
  rewrite Hlast in Hf. destruct Hf.
Qed.

Lemma last_user_none msgs :
  existsb (Spec.has_role "user") msgs = false -> Spec.last_user msgs = None.
Proof.
  intros H. unfold Spec.last_user.
  destruct (last (List.filter (Spec.has_role "user") msgs)) as [x |] eqn:Hlast; [| reflexivity].
  apply last_Some_elem_of, list_elem_of_In, filter_In in Hlast.
  destruct Hlast as [Hin Hx].
  assert (Ht : existsb (Spec.has_role "user") msgs = true)
    by (apply existsb_exists; eauto).
  congruence.
Qed.

(** C2. On a message list with a user-role entry the translation returns a
    request whose query is the content of the last user-role entry; on a
    message list without one it throws [Error('No user message found')]. *)
Theorem translate_query messages key user w msgs :
  arrays w !! messages = Some msgs ->
  Spec.message_list msgs ->
  (existsb (Spec.has_role "user") msgs = true ->
   exists m request,
     Spec.last_user msgs = Some m
     /\ fst (convertOpenAIToDifyFormat messages key user w) = Return request
     /\ JS.prop request "query" = JS.prop m "content")
  /\ (existsb (Spec.has_role "user") msgs = false ->
      fst (convertOpenAIToDifyFormat messages key user w)
      = Throw (Error "No user message found")).
Proof.
  intros Hmsgs Hwf.
  rewrite (convertOpenAIToDifyFormat_eval _ _ _ _ _ Hmsgs Hwf).
  split; intros Huser.
  - destruct (last_user_exists _ Huser) as [m Hm].
    exists m. eexists. rewrite Hm. repeat split.
  - now rewrite (last_user_none _ Huser).
Qed.

Lemma translate_query_witness :
  exists m request,
    Spec.last_user Example.conversation = Some m
    /\ fst (convertOpenAIToDifyFormat 0 (KStr "Be brief.") VUndef
              (Example.world_of ∅ Example.conversation)) = Return request
    /\ JS.prop request "query" = JS.prop m "content".
Proof.
  refine (proj1 (translate_query 0 (KStr "Be brief.") VUndef
                   (Example.world_of ∅ Example.conversation)
                   Example.conversation eq_refl _) eq_refl).
  repeat constructor.
Defined.

Lemma opt_first_falsy c : JS.truthy c = false -> Spec.opt_first c = VUndef.
Proof.
  unfold Spec.opt_first.
  destruct c as [| | b | n | s | elems | fields]; simpl; try reflexivity; try discriminate.
  destruct s; [reflexivity | discriminate].
Qed.

Lemma opt_first_truthy c : JS.truthy c = true -> Spec.opt_first c = JS.first c.
Proof.
  intros H. unfold Spec.opt_first. now rewrite (truthy_not_nullish _ H).
Qed.

(** The id the loop body extracts is the one the message carries. *)
Lemma msgConversationId_carried msg :
  (if Spec.has_role "assistant" msg then Spec.carried_id msg else None)
  = if JS.truthy (Pure.msgConversationId msg)
    then Some (Pure.msgConversationId msg) else None.
Proof.
  unfold Pure.msgConversationId.
  destruct (Spec.has_role "assistant" msg); [| reflexivity].
  unfold Spec.carried_id, Spec.candidates, Pure.in_choice, JS.or. simpl List.find.
  destruct (JS.truthy (JS.prop msg "conversation_id")) eqn:H1; [now rewrite H1 |].
  destruct (JS.truthy (JS.opt (JS.prop msg "message") "conversation_id")) eqn:H2;
    [now rewrite H2 |].
  destruct (JS.truthy (JS.opt (JS.prop msg "delta") "conversation_id")) eqn:H3;
    [now rewrite H3 |].
  destruct (JS.truthy (JS.prop msg "choices")) eqn:Hc.
  - rewrite (opt_first_truthy _ Hc).
    destruct (JS.truthy (JS.opt (JS.opt (JS.first (JS.prop msg "choices")) "message")
                           "conversation_id")) eqn:H4; [now rewrite H4 |].
    destruct (JS.truthy (JS.opt (JS.opt (JS.first (JS.prop msg "choices")) "delta")
                           "conversation_id")) eqn:H5; [now rewrite H5 |].
    reflexivity.
  - rewrite (opt_first_falsy _ Hc). simpl. now rewrite Hc.
Qed.

Lemma fold_step_id msgs s :
  fst (fold_left Pure.step msgs s)
  = default (fst s)
      (last (omap (fun msg => if Spec.has_role "assistant" msg
                              then Spec.carried_id msg else None) msgs)).
Proof.
  revert s. induction msgs as [| m msgs IH]; intros s; [reflexivity |].
  simpl. rewrite IH, msgConversationId_carried. simpl.
  destruct (JS.truthy (Pure.msgConversationId m)); simpl; [| reflexivity].
  rewrite last_cons.
  match goal with
  | |- default _ (last ?l) = default _ (match last ?l2 with _ => _ end) =>
      change l2 with l; now destruct (last l)
  end.
Qed.

(** C7. The outbound [conversation_id] is the id carried by the last
    assistant-role entry that has one, looked up across the candidate
    locations while scanning the non-system messages in order; if no
    assistant entry carries one it is the registry's value for the key, else
    the empty string. *)
Theorem translate_conversation_id messages key user w msgs :
  arrays w !! messages = Some msgs ->
  Spec.message_list msgs ->
  existsb (Spec.has_role "user") msgs = true ->
  exists request,
    fst (convertOpenAIToDifyFormat messages key user w) = Return request
    /\ JS.prop request "conversation_id"
       = Spec.resolved_id (conversationStore w) key msgs.
Proof.
  intros Hmsgs Hwf Huser.
  rewrite (convertOpenAIToDifyFormat_eval _ _ _ _ _ Hmsgs Hwf).
  destruct (last_user_exists _ Huser) as [m ->].
  eexists. split; [reflexivity |].
  unfold Pure.request. simpl JS.prop.
  rewrite fold_step_id. reflexivity.
Qed.

Lemma translate_conversation_id_witness :
  exists request,
    fst (convertOpenAIToDifyFormat 0 (KStr "Hello!") VUndef
           (Example.world_of Example.known Example.followup)) = Return request
    /\ JS.prop request "conversation_id"
       = Spec.resolved_id Example.known (KStr "Hello!") Example.followup.
Proof.
  refine (translate_conversation_id 0 (KStr "Hello!") VUndef
            (Example.world_of Example.known Example.followup)
            Example.followup eq_refl _ eq_refl).
  repeat constructor.
Defined.

(** C8. Request translation has no side effects: whatever it is given and
    whether it returns or throws, the registry afterwards is the registry
    before, and so are all array objects that existed before, the inbound
    [messages] array among them (the reversal is done on a copy); nothing is
    posted and nothing is written to the response. *)
Theorem translate_no_side_effects messages key user w :
  let w' := snd (convertOpenAIToDifyFormat messages key user w) in
  conversationStore w' = conversationStore w
  /\ take (length (arrays w)) (arrays w') = arrays w
  /\ clock w' = clock w /\ sent w' = sent w /\ res w' = res w.
Proof.
  simpl. rewrite convertOpenAIToDifyFormat_world.
  unfold after_translation, with_arrays. simpl.
  repeat split. apply take_app_length.
Qed.

(** The model can tell: [reverse] on the caller's array itself, as
    [messages.reverse()] would do, shows in the world. *)
Example reverse_in_place :
  arrays (snd (Arr.reverse 0 (Example.world_of ∅ Example.conversation))) !! 0
  = Some (rev Example.conversation).
Proof. reflexivity. Qed.

(** ** The handler evaluated *)

Lemma try_catch_bind_eval {A B} (m : M A) (k : A -> M B) h w a w' :
  m w = (Return a, w') -> try_catch (bind m k) h w = try_catch (k a) h w'.
Proof. intros H. unfold try_catch, bind. now rewrite H. Qed.

Lemma try_catch_bind_throw {A B} (m : M A) (k : A -> M B) h w e w' :
  m w = (Throw e, w') -> try_catch (bind m k) h w = h e w'.
Proof. intros H. unfold try_catch, bind. now rewrite H. Qed.

Lemma first_in_handler w msgs :
  Arr.head (length (arrays w)) (with_arrays (fun h => h ++ [msgs]) w)
  = (Return (JS.first (VArr msgs)), with_arrays (fun h => h ++ [msgs]) w).
Proof.
  unfold Arr.head, Arr.read, bind, with_arrays. simpl.
  now rewrite list_lookup_middle.
Qed.

Lemma translate_in_handler key user w msgs :
  Spec.message_list msgs ->
  convertOpenAIToDifyFormat (length (arrays w)) key user
    (with_arrays (fun h => h ++ [msgs]) w)
  = (match Spec.last_user msgs with
     | Some m => Return (Pure.request (conversationStore w) key user msgs m)
     | None => Throw (Error "No user message found")
     end, handler_world w msgs).
Proof.
  intros Hwf. unfold handler_world.
  rewrite (convertOpenAIToDifyFormat_eval (length (arrays w)) key user
             (with_arrays (fun h => h ++ [msgs]) w) msgs); [reflexivity | | assumption].
  unfold with_arrays. simpl. now apply list_lookup_middle.
Qed.

(** ** Lines and frames *)

Lemma trimStart_length s : String.length (Str.trimStart s) <= String.length s.
Proof.
  remember (String.length s) as n eqn:Hn. revert s Hn.
  induction n as [n IH] using lt_wf_ind. intros s ->.
  destruct s as [| c1 [| c2 [| c3 r3]]]; simpl; try lia.
  - destruct (Str.ws1 c1); simpl; lia.
  - destruct (Str.ws1 c1).
    + specialize (IH _ (Nat.lt_succ_diag_r _) (String c2 EmptyString) eq_refl).
      simpl in IH. lia.
    + destruct (Str.ws2 c1 c2); simpl; lia.
  - destruct (Str.ws1 c1).
    + specialize (IH (String.length (String c2 (String c3 r3)))
                    (Nat.lt_succ_diag_r _) (String c2 (String c3 r3)) eq_refl).
      simpl in IH. lia.
    + destruct (Str.ws2 c1 c2).
      * assert (Hlt : String.length (String c3 r3) < S (S (S (String.length r3))))
          by (simpl; lia).
        specialize (IH _ Hlt (String c3 r3) eq_refl). simpl in IH. lia.
      * destruct (Str.ws3 c1 c2 c3); [| simpl; lia].
        assert (Hlt : String.length r3 < S (S (S (String.length r3)))) by lia.
        specialize (IH _ Hlt r3 eq_refl). lia.
Qed.

Lemma match_gap_shorter s rest :
  Str.match_gap s = Some rest -> String.length rest < String.length s.
Proof.
  unfold Str.match_gap. destruct s as [| q r]; [discriminate |].
  pose proof (trimStart_length r) as Hle.
  destruct (negb (Ascii.eqb q Str.dquote) || _); [discriminate |].
  destruct (Str.trimStart r) as [| q2 r2]; [discriminate |].
  destruct (Ascii.eqb q2 Str.dquote); [| discriminate].
  intros H. assert (rest = r2) as ->.
  { destruct r2 as [| c r3]; [congruence |].
    destruct (Ascii.eqb c "}"%char) eqn:Hc.
    - apply Ascii.eqb_eq in Hc. subst c. discriminate.
    - destruct c as [[] [] [] [] [] [] [] []]; congruence. }
  simpl in *. lia.
Qed.

(** The repair of a text does not depend on the fuel, once there is
    enough of it: [fix_json] is the global replacement. *)
Lemma insert_commas_fuel fuel1 fuel2 s :
  String.length s < fuel1 -> String.length s < fuel2 ->
  Str.insert_commas fuel1 s = Str.insert_commas fuel2 s.
Proof.
  revert fuel2 s. induction fuel1 as [| fuel1 IH]; intros fuel2 s H1 H2; [lia |].
  destruct fuel2 as [| fuel2]; [lia |]. simpl.
  destruct (Str.match_gap s) as [rest |] eqn:Hgap.
  - apply match_gap_shorter in Hgap. rewrite (IH fuel2 rest); [reflexivity | lia | lia].
  - destruct s as [| c r]; [reflexivity |]. simpl in *. f_equal. apply IH; lia.
Qed.

Lemma split_lines_cons line rest :
  Str.no_newline line = true ->
  Str.split_lines (line +:+ String "010"%char rest) = line :: Str.split_lines rest.
Proof.
  induction line as [| c line IH]; intros H; [reflexivity |].
  simpl in H. apply andb_prop in H. destruct H as [Hc Hline].
  simpl. apply negb_true_iff in Hc. rewrite Hc.
  now rewrite (IH Hline).
Qed.

Lemma split_lines_one line :
  Str.no_newline line = true -> Str.split_lines line = [line].
Proof.
  induction line as [| c line IH]; intros H; [reflexivity |].
  simpl in H. apply andb_prop in H. destruct H as [Hc Hline].
  simpl. apply negb_true_iff in Hc. rewrite Hc.
  now rewrite (IH Hline).
Qed.

Lemma split_join_lines lines :
  lines <> [] ->
  Forall (fun line => Str.no_newline line = true) lines ->
  Str.split_lines (Str.join_lines lines) = lines.
Proof.
  intros Hne Hall. induction Hall as [| line rest Hline Hrest IH]; [congruence |].
  destruct rest as [| next rest].
  - simpl. now apply split_lines_one.
  - change (Str.join_lines (line :: next :: rest))
      with (line +:+ String "010"%char (Str.join_lines (next :: rest))).
    rewrite (split_lines_cons _ _ Hline). f_equal. now apply IH.
Qed.

Lemma event_lines_framed line :
  Str.startsWith line "data:" = true ->
  Str.no_newline line = true ->
  Pure.event_lines (Line.framed line) = [line].
Proof.
  intros Hstart Hline. unfold Pure.event_lines, Line.framed.
  rewrite split_join_lines; [| discriminate | repeat constructor; assumption].
  simpl. now rewrite Hstart.
Qed.

Lemma attach_truthy data part fields :
  JS.truthy (Pure.attach data part (VObj fields)) = true.
Proof.
  unfold Pure.attach, assign_in_choice.
  destruct (JS.truthy (JS.prop data "conversation_id")); [| reflexivity].
  destruct (JS.prop _ "choices") as [| | | | | [| choice rest] |]; reflexivity.
Qed.

Section ServerFacts.

Variable JSON_parse : string -> option value.
Variable JSON_stringify : value -> string.
Variable ToString : value -> string.
Variable Date_now : nat -> Z.
Variable difyClient_post : value -> bool -> post_result.

Local Abbreviation handler := (chat_completions ToString Date_now difyClient_post).

(** The first lines of the handler, on a body with properties. *)
Ltac enter_handler Hbody :=
  unfold chat_completions;
  rewrite (try_catch_bind_eval _ _ _ _ _ _ (returns_get _ "messages" Hbody _));
  rewrite (try_catch_bind_eval _ _ _ _ _ _ (returns_get _ "stream" Hbody _));
  rewrite (try_catch_bind_eval _ _ _ _ _ _ (returns_get _ "user" Hbody _)).

Lemma handler_invalid_messages request body w :
  JS.nullish body = false ->
  JS.isArray (JS.prop body "messages") = false ->
  handler request body w
  = (Return Finished,
     with_res (fun calls => calls ++ [Status (VNum 400);
                 Json (VObj [("error", VStr "Invalid messages format")])]) w).
Proof.
  intros Hbody Hmessages. enter_handler Hbody.
  destruct (JS.prop body "messages"); try discriminate;
    unfold try_catch, bind, res_call_, with_res; simpl;
    now rewrite <- app_assoc.
Qed.

Lemma handler_no_user_message request body w msgs :
  JS.nullish body = false ->
  JS.prop body "messages" = VArr msgs ->
  Spec.message_list msgs ->
  existsb (Spec.has_role "user") msgs = false ->
  handler request body w
  = (Return Finished,
     with_res (fun calls => calls ++ [Status (VNum 500);
                 Json (VObj [("error",
                   VObj [("message", VStr "An internal server error occurred.");
                         ("type", VStr "internal_server_error")])])])
       (handler_world w msgs)).
Proof.
  intros Hbody Hmessages Hwf Huser. enter_handler Hbody. rewrite Hmessages.
  rewrite (try_catch_bind_eval _ _ _ _ (length (arrays w))
             (with_arrays (fun h => h ++ [msgs]) w)) by reflexivity.
  rewrite (try_catch_bind_eval _ _ _ _ _ _ (first_in_handler w msgs)).
  erewrite try_catch_bind_throw.
  2:{ rewrite (translate_in_handler _ _ _ _ Hwf).
      now rewrite (last_user_none _ Huser). }
  unfold on_failure, bind, res_call_, with_res, ret. simpl.
  now rewrite <- (app_assoc (res w)).
Qed.

(** C1. For the client faults the handler does not answer as the
    specification asks.  When [messages] is absent the answer is a 400 whose
    [error] is a bare string, not an object with [message], [type] and
    [status]; when [messages] has no user-role entry the answer is a 500, not
    a 4xx, and its [error] object has no [status]. *)
Theorem client_fault_responses request w :
  let no_messages := VObj [] in
  let no_user := VObj [("messages", VArr [Example.message "assistant" "Hi."])] in
  let invalid := VObj [("error", VStr "Invalid messages format")] in
  let internal :=
    VObj [("error", VObj [("message", VStr "An internal server error occurred.");
                          ("type", VStr "internal_server_error")])] in
  res (snd (handler request no_messages w))
    = res w ++ [Status (VNum 400); Json invalid]
  /\ Spec.error_shape invalid = false
  /\ res (snd (handler request no_user w))
     = res w ++ [Status (VNum 500); Json internal]
  /\ Spec.is_4xx (VNum 500) = false
  /\ Spec.error_shape internal = false.
Proof.
  cbv zeta. split; [| split; [reflexivity | split; [| split; reflexivity]]].
  - now rewrite handler_invalid_messages.
  - erewrite handler_no_user_message; [reflexivity | reflexivity | reflexivity | | reflexivity].
    repeat constructor.
Qed.

Lemma register_conversation_eval data key part response w :
  JS.nullish data = false ->
  register_conversation data key part response w
  = (Return (Pure.attach data part response), Pure.register data key w).
Proof.
  intros Hdata.
  unfold register_conversation, Pure.attach, Pure.register, get, bind, store_set.
  rewrite Hdata. simpl.
  now destruct (JS.truthy (JS.prop data "conversation_id")).
Qed.

Lemma blocking_reply_eval data key w :
  JS.nullish data = false ->
  blocking_reply Date_now data key w
  = (Return (Pure.completion (Date_now (clock w)) data),
     Pure.register data key (tick w)).
Proof.
  intros Hdata. unfold blocking_reply.
  erewrite bind_eval
    by (apply returns_or_else; apply returns_get; assumption).
  rewrite (bind_eval _ _ _ (VNum (Date_now (clock w) / 1000)) (tick w))
    by reflexivity.
  rewrite (bind_eval _ _ _ _ _ (returns_get _ "answer" Hdata _)).
  erewrite bind_eval
    by (apply returns_or_else; [now apply returns_get_opt | apply returns_ret]).
  now rewrite register_conversation_eval.
Qed.

(** The stream translator on any line: it returns, and what it returns is
    what [Pure.line_result] says. *)
Lemma convertDifyToOpenAIStreamFormat_eval line key w :
  convertDifyToOpenAIStreamFormat JSON_parse Date_now line key w
  = (Return (fst (Pure.line_result JSON_parse Date_now line key w)),
     snd (Pure.line_result JSON_parse Date_now line key w)).
Proof.
  unfold convertDifyToOpenAIStreamFormat, Pure.line_result, Pure.payload.
  destruct (Str.is_empty _); [reflexivity |].
  unfold parse.
  destruct (JSON_parse _) as [data |]; [| reflexivity].
  unfold Pure.translated.
  destruct (JS.nullish data) eqn:Hdata.
  { unfold try_catch, bind, ret, get. now rewrite Hdata. }
  rewrite (try_catch_bind_eval _ _ _ _ _ _ (returns_ret data _)).
  rewrite (try_catch_bind_eval _ _ _ _ _ _ (returns_get _ "event" Hdata _)).
  destruct (JS.is_str (JS.prop data "event") "message").
  { erewrite try_catch_bind_eval.
    2:{ apply returns_log with (a := JS.prop data "metadata").
        repeat (eapply returns_bind; [now apply returns_get |]).
        now apply returns_get. }
    erewrite try_catch_bind_eval
      by (apply returns_or_else; apply returns_get; assumption).
    rewrite (try_catch_bind_eval _ _ _ _ (VNum (Date_now (clock w) / 1000)) (tick w))
      by reflexivity.
    rewrite (try_catch_bind_eval _ _ _ _ _ _ (returns_get _ "answer" Hdata _)).
    unfold try_catch. now rewrite register_conversation_eval. }
  rewrite (try_catch_bind_eval _ _ _ _ _ _ (returns_get _ "event" Hdata _)).
  destruct (JS.is_str (JS.prop data "event") "message_end"); [| reflexivity].
  erewrite try_catch_bind_eval.
  2:{ apply returns_log with (a := JS.opt (JS.prop data "metadata") "usage").
      repeat (eapply returns_bind; [now apply returns_get |]).
      apply returns_ret. }
  erewrite try_catch_bind_eval
    by (apply returns_or_else; apply returns_get; assumption).
  rewrite (try_catch_bind_eval _ _ _ _ (VNum (Date_now (clock w) / 1000)) (tick w))
    by reflexivity.
  unfold try_catch. now rewrite register_conversation_eval.
Qed.

Local Abbreviation relay_line := (Pure.relay_line JSON_parse JSON_stringify Date_now).
Local Abbreviation relay_event := (Pure.relay_event JSON_parse JSON_stringify Date_now).

Lemma on_data_eval key chunkStr w :
  on_data JSON_parse JSON_stringify Date_now key chunkStr w
  = (Return tt, fold_left (relay_line key) (Pure.event_lines chunkStr) w).
Proof.
  unfold on_data. fold (Pure.event_lines chunkStr).
  generalize (Pure.event_lines chunkStr). intros lines.
  enough (H : forall w0,
    Arr.for_of lines
      (fun chunk (_ : unit) =>
         let* openAIFormat :=
           convertDifyToOpenAIStreamFormat JSON_parse Date_now chunk key in
         if JS.truthy openAIFormat
         then res_call_
                (Write ("data: " +:+ JSON_stringify openAIFormat +:+ Str.nl +:+ Str.nl))
         else ret tt) tt w0
    = (Return tt, fold_left (relay_line key) lines w0)).
  { unfold try_catch. now rewrite H. }
  induction lines as [| line lines IH]; intros w0; [reflexivity |].
  simpl Arr.for_of. simpl fold_left.
  assert (Hbody :
    (let* openAIFormat :=
       convertDifyToOpenAIStreamFormat JSON_parse Date_now line key in
     if JS.truthy openAIFormat
     then res_call_
            (Write ("data: " +:+ JSON_stringify openAIFormat +:+ Str.nl +:+ Str.nl))
     else ret tt) w0 = (Return tt, relay_line key w0 line)).
  { rewrite (bind_eval _ _ _ _ _ (convertDifyToOpenAIStreamFormat_eval line key w0)).
    unfold Pure.relay_line.
    destruct (Pure.line_result JSON_parse Date_now line key w0) as [chunk w2].
    simpl. now destruct (JS.truthy chunk). }
  rewrite (bind_eval _ _ _ _ _ Hbody). apply IH.
Qed.

Lemma relay_step_eval key ev w :
  relay_step JSON_parse JSON_stringify Date_now key ev w
  = (Return tt, relay_event key w ev).
Proof.
  destruct ev; simpl; [apply on_data_eval | |];
    unfold on_error, on_end, bind, res_call_, with_res; simpl;
    now rewrite <- app_assoc.
Qed.

Lemma relay_eval key events w :
  relay JSON_parse JSON_stringify Date_now key events w
  = (Return tt, fold_left (relay_event key) events w).
Proof.
  unfold relay. revert w.
  induction events as [| ev events IH]; intros w; [reflexivity |].
  simpl. rewrite (bind_eval _ _ _ _ _ (relay_step_eval key ev w)). apply IH.
Qed.

Lemma translated_frame now data key w :
  res (snd (Pure.translated now data key w)) = res w.
Proof.
  unfold Pure.translated, Pure.register.
  repeat match goal with
         | |- context [if ?c then _ else _] => destruct c
         end; reflexivity.
Qed.

Lemma line_result_frame line key w :
  res (snd (Pure.line_result JSON_parse Date_now line key w)) = res w.
Proof.
  unfold Pure.line_result.
  destruct (Str.is_empty _); [reflexivity |].
  destruct (JSON_parse _); [apply translated_frame | reflexivity].
Qed.

Lemma relay_line_calls key w line :
  exists calls,
    res (relay_line key w line) = res w ++ calls
    /\ forallb Spec.body_call calls = true.
Proof.
  unfold Pure.relay_line.
  pose proof (line_result_frame line key w) as Hres.
  destruct (Pure.line_result JSON_parse Date_now line key w) as [chunk w2].
  simpl in Hres. destruct (JS.truthy chunk).
  - eexists. simpl. rewrite Hres. split; reflexivity.
  - exists []. rewrite app_nil_r. split; [assumption | reflexivity].
Qed.

Lemma fold_calls {A} (f : world -> A -> world) elems :
  (forall w x, exists calls,
      res (f w x) = res w ++ calls /\ forallb Spec.body_call calls = true) ->
  forall w, exists calls,
    res (fold_left f elems w) = res w ++ calls
    /\ forallb Spec.body_call calls = true.
Proof.
  intros Hf. induction elems as [| x elems IH]; intros w; simpl.
  - exists []. now rewrite app_nil_r.
  - destruct (Hf w x) as [c1 [H1 B1]]. destruct (IH (f w x)) as [c2 [H2 B2]].
    exists (c1 ++ c2). rewrite H2, H1, <- app_assoc. split; [reflexivity |].
    rewrite forallb_app. now rewrite B1, B2.
Qed.

Lemma relay_event_calls key w ev :
  exists calls,
    res (relay_event key w ev) = res w ++ calls
    /\ forallb Spec.body_call calls = true.
Proof.
  destruct ev; simpl.
  - apply fold_calls. intros w0 line. apply relay_line_calls.
  - eexists. split; reflexivity.
  - eexists. split; reflexivity.
Qed.

Lemma status_of_body_calls calls more :
  forallb Spec.body_call more = true ->
  Spec.status_of (calls ++ more) = Spec.status_of calls.
Proof.
  intros H. unfold Spec.status_of. rewrite omap_app.
  replace (omap _ more) with (@nil value); [now rewrite app_nil_r |].
  induction more as [| c more IH]; [reflexivity |].
  simpl in H. apply andb_prop in H. destruct H as [Hc Hmore].
  destruct c; try discriminate; simpl; now apply IH.
Qed.

(** C9. When the backend stream errors, the relay writes the terminal
    sentinel frame and ends the response; and whatever the backend stream
    emits, the handlers of the relay only write and end: the HTTP status is
    never set once streaming has begun. *)
Theorem stream_error_ends_gracefully key events w :
  let run := relay JSON_parse JSON_stringify Date_now key in
  fst (run (events ++ [ErrorEvent]) w) = Return tt
  /\ res (snd (run (events ++ [ErrorEvent]) w))
     = res (snd (run events w)) ++ [Write sentinel; End_]
  /\ (exists calls,
        res (snd (run events w)) = res w ++ calls
        /\ forallb Spec.body_call calls = true)
  /\ Spec.status_of (res (snd (run (events ++ [ErrorEvent]) w)))
     = Spec.status_of (res w).
Proof.
  cbv zeta. rewrite !relay_eval. simpl fst. simpl snd.
  rewrite fold_left_app. simpl fold_left.
  destruct (fold_calls (relay_event key) events (relay_event_calls key) w)
    as [calls [Hcalls Hbody]].
  repeat split.
  - exists calls. now split.
  - unfold with_res. simpl res. rewrite Hcalls.
    rewrite !status_of_body_calls; [reflexivity | assumption | reflexivity].
Qed.

(** *** The relay on event lines *)

Lemma line_result_carries line data key w :
  Line.carries JSON_parse line data ->
  Pure.line_result JSON_parse Date_now line key w
  = Pure.translated (Date_now (clock w)) data key w.
Proof.
  intros (_ & _ & Hclean & Hparse). unfold Pure.line_result.
  now rewrite Hclean, Hparse.
Qed.

Lemma relay_line_message line data key w :
  Line.carries JSON_parse line data ->
  JS.prop data "event" = VStr "message" ->
  relay_line key w line
  = with_res (fun calls => calls ++
      [Write (Pure.frame JSON_stringify (Pure.message_chunk (Date_now (clock w)) data))])
      (Pure.register data key (tick w)).
Proof.
  intros Hline Hevent. unfold Pure.relay_line.
  rewrite (line_result_carries _ _ _ _ Hline). unfold Pure.translated.
  destruct data; try discriminate. simpl JS.nullish. cbv iota.
  rewrite Hevent. simpl JS.is_str. cbv iota.
  unfold Pure.message_chunk. now rewrite attach_truthy.
Qed.


Lemma relay_line_unparseable line key w :
  JSON_parse (Pure.payload line) = None -> relay_line key w line = w.
Proof.
  intros Hparse. unfold Pure.relay_line, Pure.line_result.
  rewrite Hparse. now destruct (Str.is_empty _).
Qed.

Lemma register_res data key w : res (Pure.register data key w) = res w.
Proof. unfold Pure.register. now destruct (JS.truthy _). Qed.

Lemma message_chunk_delta now data :
  JS.prop (Pure.delta (Pure.message_chunk now data)) "content" = JS.prop data "answer"
  /\ Pure.finish_reason (Pure.message_chunk now data) = VNull.
Proof.
  unfold Pure.message_chunk, Pure.attach.
  destruct (JS.truthy (JS.prop data "conversation_id")); split; reflexivity.
Qed.


(** *** The handler on a request with a user message *)

Lemma on_failure_sent error w :
  sent (snd (on_failure ToString error w)) = sent w
  /\ conversationStore (snd (on_failure ToString error w)) = conversationStore w.
Proof. destruct error; split; reflexivity. Qed.

Lemma blocking_reply_nullish data key w :
  JS.nullish data = true ->
  blocking_reply Date_now data key w = (Throw TypeError, w).
Proof.
  intros Hdata. unfold blocking_reply, or_else, bind, get. now rewrite Hdata.
Qed.

Lemma register_sent data key w : sent (Pure.register data key w) = sent w.
Proof. unfold Pure.register. now destruct (JS.truthy _). Qed.

(** The handler posts one request body, the translated one. *)
Lemma handler_posts request body w msgs m :
  JS.nullish body = false ->
  JS.prop body "messages" = VArr msgs ->
  Spec.message_list msgs ->
  Spec.last_user msgs = Some m ->
  sent (snd (handler request body w))
  = sent w ++ [Pure.outbound (conversationStore w) request body msgs m].
Proof.
  intros Hbody Hmessages Hwf Hlast. enter_handler Hbody. rewrite Hmessages.
  rewrite (try_catch_bind_eval _ _ _ _ (length (arrays w))
             (with_arrays (fun h => h ++ [msgs]) w)) by reflexivity.
  rewrite (try_catch_bind_eval _ _ _ _ _ _ (first_in_handler w msgs)).
  erewrite try_catch_bind_eval
    by (rewrite (translate_in_handler _ _ _ _ Hwf), Hlast; reflexivity).
  unfold Pure.outbound. fold (Pure.conversationKey request msgs).
  set (key := Pure.conversationKey request msgs).
  set (translated := Pure.request (conversationStore w) key (JS.prop body "user") msgs m).
  destruct (JS.truthy (JS.default_to (JS.prop body "stream") (VBool false))).
  - do 3 (erewrite try_catch_bind_eval by reflexivity).
    unfold try_catch, bind, post.
    destruct (difyClient_post translated true) as [data | error]; [reflexivity |].
    now rewrite (proj1 (on_failure_sent _ _)).
  - unfold try_catch, bind at 1, post.
    destruct (difyClient_post _ false) as [data | error];
      [| now rewrite (proj1 (on_failure_sent _ _))].
    destruct (JS.nullish data) eqn:Hdata.
    + rewrite (bind_throw _ _ _ _ _ (blocking_reply_nullish _ _ _ Hdata)).
      now rewrite (proj1 (on_failure_sent _ _)).
    + rewrite (bind_eval _ _ _ _ _ (blocking_reply_eval _ _ _ Hdata)).
      unfold bind, res_call_, with_res. simpl. now rewrite register_sent.
Qed.

(** The handler on a blocking request that the backend answers. *)
Lemma handler_blocking request body w msgs m data :
  JS.nullish body = false ->
  JS.prop body "messages" = VArr msgs ->
  Spec.message_list msgs ->
  Spec.last_user msgs = Some m ->
  JS.truthy (JS.default_to (JS.prop body "stream") (VBool false)) = false ->
  difyClient_post (Pure.outbound (conversationStore w) request body msgs m) false
    = Resolved data ->
  JS.nullish data = false ->
  handler request body w
  = (Return Finished,
     with_res (fun calls => calls ++ [Json (Pure.completion (Date_now (clock w)) data)])
       (Pure.register data (Pure.conversationKey request msgs)
          (tick (with_sent
                   (fun bodies => bodies ++
                      [Pure.outbound (conversationStore w) request body msgs m])
                   (handler_world w msgs))))).
Proof.
  intros Hbody Hmessages Hwf Hlast Hstream Hpost Hdata.
  unfold Pure.outbound in *. rewrite Hstream in *.
  enter_handler Hbody. rewrite Hmessages.
  rewrite (try_catch_bind_eval _ _ _ _ (length (arrays w))
             (with_arrays (fun h => h ++ [msgs]) w)) by reflexivity.
  rewrite (try_catch_bind_eval _ _ _ _ _ _ (first_in_handler w msgs)).
  erewrite try_catch_bind_eval
    by (rewrite (translate_in_handler _ _ _ _ Hwf), Hlast; reflexivity).
  fold (Pure.conversationKey request msgs). rewrite Hstream.
  erewrite try_catch_bind_eval by (unfold post; rewrite Hpost; reflexivity).
  rewrite (try_catch_bind_eval _ _ _ _ _ _ (blocking_reply_eval _ _ _ Hdata)).
  reflexivity.
Qed.

(** C6. A blocking request that the backend answers with the reply
    [{message_id: "m1", answer: "Hello!", conversation_id: "c1"}] is answered
    with one completion: its id is "m1", the message of its first choice has
    role "assistant" and content "Hello!", the finish reason is "stop", the
    usage is zero-filled, the conversation id "c1" is attached, and the
    registry then maps the key of the request to "c1".  For every reply, the
    usage is the usage metadata of the reply when it has any, else zeros. *)
Theorem blocking_completion request body w msgs m :
  JS.nullish body = false ->
  JS.prop body "messages" = VArr msgs ->
  Spec.message_list msgs ->
  Spec.last_user msgs = Some m ->
  JS.truthy (JS.default_to (JS.prop body "stream") (VBool false)) = false ->
  difyClient_post (Pure.outbound (conversationStore w) request body msgs m) false
    = Resolved Example.reply_m1 ->
  (exists response,
     fst (handler request body w) = Return Finished
     /\ res (snd (handler request body w)) = res w ++ [Json response]
     /\ JS.prop response "id" = VStr "m1"
     /\ JS.prop (JS.first (JS.prop response "choices")) "message"
        = VObj [("role", VStr "assistant"); ("content", VStr "Hello!");
                ("conversation_id", VStr "c1")]
     /\ JS.prop (JS.first (JS.prop response "choices")) "finish_reason" = VStr "stop"
     /\ JS.prop response "usage"
        = VObj [("prompt_tokens", VNum 0); ("completion_tokens", VNum 0);
                ("total_tokens", VNum 0)]
     /\ JS.prop response "conversation_id" = VStr "c1"
     /\ conversationStore (snd (handler request body w))
          !! Pure.conversationKey request msgs = Some (VStr "c1"))
  /\ (forall data key w0,
        JS.nullish data = false ->
        exists response,
          fst (blocking_reply Date_now data key w0) = Return response
          /\ JS.prop response "usage"
             = if JS.truthy (JS.opt (JS.prop data "metadata") "usage")
               then JS.opt (JS.prop data "metadata") "usage"
               else VObj [("prompt_tokens", VNum 0); ("completion_tokens", VNum 0);
                          ("total_tokens", VNum 0)]).
Proof.
  intros Hbody Hmessages Hwf Hlast Hstream Hpost. split.
  - rewrite (handler_blocking _ _ _ _ _ _ Hbody Hmessages Hwf Hlast Hstream Hpost eq_refl).
    eexists. split; [reflexivity |]. split; [reflexivity |].
    repeat (split; [reflexivity |]).
    unfold Pure.register, with_store, with_res. simpl.
    apply lookup_insert_eq.
  - intros data key w0 Hdata. rewrite (blocking_reply_eval _ _ _ Hdata).
    eexists. split; [reflexivity |].
    unfold Pure.completion, Pure.attach, JS.or.
    now destruct (JS.truthy (JS.prop data "conversation_id")).
Qed.

(** *** The registry *)

Lemma ids_are_truthy_insert store key id :
  Spec.ids_are_truthy store ->
  JS.truthy id = true ->
  Spec.ids_are_truthy (<[key := id]> store).
Proof.
  intros Hstore Htruthy k v Hk.
  destruct (decide (key = k)) as [-> | Hne].
  - rewrite lookup_insert_eq in Hk. now injection Hk as <-.
  - rewrite lookup_insert_ne in Hk by assumption. exact (Hstore k v Hk).
Qed.

Lemma register_store data key w :
  conversationStore (Pure.register data key w)
  = if JS.truthy (JS.prop data "conversation_id")
    then <[key := JS.prop data "conversation_id"]> (conversationStore w)
    else conversationStore w.
Proof. unfold Pure.register. now destruct (JS.truthy _). Qed.

Lemma translated_store now data key w :
  conversationStore (snd (Pure.translated now data key w)) = conversationStore w
  \/ (JS.truthy (JS.prop data "conversation_id") = true
      /\ conversationStore (snd (Pure.translated now data key w))
         = <[key := JS.prop data "conversation_id"]> (conversationStore w)).
Proof.
  unfold Pure.translated.
  destruct (JS.nullish data); [now left |].
  destruct (JS.truthy (JS.prop data "conversation_id")) eqn:Hid.
  - destruct (JS.is_str _ "message"); [| destruct (JS.is_str _ "message_end")];
      simpl; rewrite ?register_store, ?Hid; auto.
  - left.
    destruct (JS.is_str _ "message"); [| destruct (JS.is_str _ "message_end")];
      simpl; rewrite ?register_store, ?Hid; auto.
Qed.

Lemma line_store line key w :
  conversationStore
    (snd (convertDifyToOpenAIStreamFormat JSON_parse Date_now line key w))
  = conversationStore w
  \/ (exists data,
        JSON_parse (Pure.payload line) = Some data
        /\ JS.truthy (JS.prop data "conversation_id") = true
        /\ conversationStore
             (snd (convertDifyToOpenAIStreamFormat JSON_parse Date_now line key w))
           = <[key := JS.prop data "conversation_id"]> (conversationStore w)).
Proof.
  rewrite convertDifyToOpenAIStreamFormat_eval. simpl snd. unfold Pure.line_result.
  destruct (Str.is_empty _); [now left |].
  destruct (JSON_parse (Pure.payload line)) as [data |] eqn:Hparse; [| now left].
  destruct (translated_store (Date_now (clock w)) data key w) as [H | [Hid H]];
    [now left | right; eauto].
Qed.

Lemma reply_store data key w :
  conversationStore (snd (blocking_reply Date_now data key w)) = conversationStore w
  \/ (JS.truthy (JS.prop data "conversation_id") = true
      /\ conversationStore (snd (blocking_reply Date_now data key w))
         = <[key := JS.prop data "conversation_id"]> (conversationStore w)).
Proof.
  destruct (JS.nullish data) eqn:Hdata.
  - rewrite (blocking_reply_nullish _ _ _ Hdata). now left.
  - rewrite (blocking_reply_eval _ _ _ Hdata). simpl snd. rewrite register_store.
    destruct (JS.truthy (JS.prop data "conversation_id")); [right | left]; auto.
Qed.

Lemma written_truthy before after :
  Registry.written before after -> Spec.ids_are_truthy before -> Spec.ids_are_truthy after.
Proof.
  intros [-> | (key & id & Htruthy & ->)] Hstore; [assumption |].
  now apply ids_are_truthy_insert.
Qed.

Lemma relay_line_store key w line :
  Registry.written (conversationStore w)
    (conversationStore (Pure.relay_line JSON_parse JSON_stringify Date_now key w line)).
Proof.
  unfold Pure.relay_line.
  pose proof (line_store line key w) as H.
  rewrite convertDifyToOpenAIStreamFormat_eval in H. simpl snd in H.
  destruct (Pure.line_result JSON_parse Date_now line key w) as [chunk w2].
  simpl in H.
  assert (Hw : Registry.written (conversationStore w) (conversationStore w2)).
  { destruct H as [-> | (data & _ & Htruthy & ->)]; [now left | right; eauto]. }
  now destruct (JS.truthy chunk).
Qed.

Lemma fold_truthy {A} (f : world -> A -> world) elems :
  (forall w x, Spec.ids_are_truthy (conversationStore w) ->
               Spec.ids_are_truthy (conversationStore (f w x))) ->
  forall w, Spec.ids_are_truthy (conversationStore w) ->
            Spec.ids_are_truthy (conversationStore (fold_left f elems w)).
Proof.
  intros Hf. induction elems as [| x elems IH]; intros w Hw; [assumption |].
  simpl. apply IH. now apply Hf.
Qed.

Lemma relay_truthy key events w :
  Spec.ids_are_truthy (conversationStore w) ->
  Spec.ids_are_truthy
    (conversationStore (snd (relay JSON_parse JSON_stringify Date_now key events w))).
Proof.
  rewrite relay_eval. simpl snd. apply fold_truthy. intros w0 ev Hw0.
  destruct ev; simpl; [| assumption | assumption].
  revert Hw0. apply fold_truthy. intros w1 line.
  apply written_truthy, relay_line_store.
Qed.

Lemma on_failure_returns error w :
  on_failure ToString error w = (Return Finished, snd (on_failure ToString error w)).
Proof. destruct error; reflexivity. Qed.

(** The registry after the handler has run, on any request and with any
    backend. *)
Lemma handler_store request body w :
  exists served w2,
    handler request body w = (Return served, w2)
    /\ Registry.written (conversationStore w) (conversationStore w2).
Proof.
  assert (Hfail : forall error w3,
            conversationStore w3 = conversationStore w ->
            exists served w2,
              on_failure ToString error w3 = (Return served, w2)
              /\ Registry.written (conversationStore w) (conversationStore w2)).
  { intros error w3 Hw3. exists Finished, (snd (on_failure ToString error w3)).
    split; [apply on_failure_returns |].
    left. now rewrite (proj2 (on_failure_sent error w3)). }
  destruct (JS.nullish body) eqn:Hbody.
  { unfold chat_completions.
    rewrite (try_catch_bind_throw _ _ _ w TypeError w)
      by (unfold get; now rewrite Hbody).
    now apply Hfail. }
  enter_handler Hbody.
  destruct (JS.prop body "messages") as [| | b | n | s | msgs | fields];
    try (unfold try_catch, bind, res_call_, with_res, ret; simpl;
         do 2 eexists; split; [reflexivity | now left]).
  rewrite (try_catch_bind_eval _ _ _ _ (length (arrays w))
             (with_arrays (fun h => h ++ [msgs]) w)) by reflexivity.
  rewrite (try_catch_bind_eval _ _ _ _ _ _ (first_in_handler w msgs)).
  set (key := key_of request _). set (user := JS.prop body "user").
  pose proof (convertOpenAIToDifyFormat_world (length (arrays w)) key user
                (with_arrays (fun h => h ++ [msgs]) w)) as Hworld.
  destruct (convertOpenAIToDifyFormat (length (arrays w)) key user
              (with_arrays (fun h => h ++ [msgs]) w)) as [[difyRequest | error] w2] eqn:Ht;
    simpl in Hworld.
  2:{ rewrite (try_catch_bind_throw _ _ _ _ _ _ Ht). apply Hfail. now subst w2. }
  rewrite (try_catch_bind_eval _ _ _ _ _ _ Ht).
  destruct (JS.truthy (JS.default_to (JS.prop body "stream") (VBool false))).
  - do 3 (erewrite try_catch_bind_eval by reflexivity).
    unfold try_catch, bind, post.
    destruct (difyClient_post difyRequest true) as [data | error].
    + do 2 eexists. split; [reflexivity |]. left. now subst w2.
    + apply Hfail. now subst w2.
  - unfold try_catch, bind at 1, post.
    destruct (difyClient_post _ false) as [data | error].
    + destruct (JS.nullish data) eqn:Hdata.
      * rewrite (bind_throw _ _ _ _ _ (blocking_reply_nullish _ _ _ Hdata)).
        apply Hfail. now subst w2.
      * rewrite (bind_eval _ _ _ _ _ (blocking_reply_eval _ _ _ Hdata)).
        unfold bind, res_call_, ret. do 2 eexists. split; [reflexivity |].
        simpl. rewrite register_store. subst w2. simpl.
        destruct (JS.truthy (JS.prop data "conversation_id")) eqn:Hid;
          [right; eauto | now left].
    + apply Hfail. now subst w2.
Qed.

Lemma step_ids_are_truthy w w2 :
  Registry.operation JSON_parse JSON_stringify ToString Date_now difyClient_post w w2 ->
  Spec.ids_are_truthy (conversationStore w) ->
  Spec.ids_are_truthy (conversationStore w2).
Proof.
  intros Hstep Hstore.
  destruct Hstep as [request body w | key events w | messages key user w
                    | data key w | line key w].
  - destruct (handler_store request body w) as (served & w2 & -> & Hw).
    exact (written_truthy _ _ Hw Hstore).
  - now apply relay_truthy.
  - now rewrite convertOpenAIToDifyFormat_world.
  - destruct (reply_store data key w) as [-> | [Htruthy ->]]; [assumption |].
    now apply ids_are_truthy_insert.
  - destruct (line_store line key w) as [-> | (data & Hparse & Htruthy & ->)]; [assumption |].
    now apply ids_are_truthy_insert.
Qed.

Lemma run_ids_are_truthy w w2 :
  rtc (Registry.operation JSON_parse JSON_stringify ToString Date_now difyClient_post)
    w w2 ->
  Spec.ids_are_truthy (conversationStore w) ->
  Spec.ids_are_truthy (conversationStore w2).
Proof.
  induction 1 as [w0 | w0 w1 w3 Hstep _ IH]; intros Hstart; [assumption |].
  apply IH. exact (step_ids_are_truthy _ _ Hstep Hstart).
Qed.

Lemma truthy_string s : JS.truthy (VStr s) = true -> s <> EmptyString.
Proof. intros H ->. discriminate. Qed.

(** C10, amended.  The registry is only ever written with a truthy id
    reported by the backend: the handling of a blocking reply and the
    translation of a stream line leave the registry as it was or set the key
    to the truthy [conversation_id] of the reply or event, and leave it as it
    was when that id is absent or empty.  So every value stored in the
    registry is truthy, whatever requests were handled and whatever streams
    were relayed since it was empty: it is the id as the backend reported it,
    a non-empty string when that was a string.  Nothing makes it a string
    when the backend reports another truthy value. *)
Theorem registry_holds_ids line data key w w1 w2 :
  conversationStore w1 = ∅ ->
  rtc (Registry.operation JSON_parse JSON_stringify ToString Date_now difyClient_post)
    w1 w2 ->
  let after_line :=
    conversationStore
      (snd (convertDifyToOpenAIStreamFormat JSON_parse Date_now line key w)) in
  let after_reply := conversationStore (snd (blocking_reply Date_now data key w)) in
  (after_line = conversationStore w
   \/ exists event,
        JSON_parse (Pure.payload line) = Some event
        /\ JS.truthy (JS.prop event "conversation_id") = true
        /\ after_line = <[key := JS.prop event "conversation_id"]> (conversationStore w))
  /\ (after_reply = conversationStore w
      \/ (JS.truthy (JS.prop data "conversation_id") = true
          /\ after_reply = <[key := JS.prop data "conversation_id"]> (conversationStore w)))
  /\ (forall event,
        JSON_parse (Pure.payload line) = Some event ->
        JS.truthy (JS.prop event "conversation_id") = false ->
        after_line = conversationStore w)
  /\ (JS.truthy (JS.prop data "conversation_id") = false ->
      after_reply = conversationStore w)
  /\ (forall k v,
        conversationStore w2 !! k = Some v ->
        JS.truthy v = true /\ (forall s, v = VStr s -> s <> EmptyString)).
Proof.
  intros Hempty Hrun. cbv zeta.
  split; [apply line_store |]. split; [apply reply_store |].
  split; [| split].
  - intros event Hparse Hfalsy.
    destruct (line_store line key w) as [H | (event2 & Hparse2 & Htruthy & _)];
      [assumption | congruence].
  - intros Hfalsy. destruct (reply_store data key w) as [H | [Htruthy _]];
      [assumption | congruence].
  - intros k v Hk.
    assert (Htruthy : JS.truthy v = true).
    { refine (run_ids_are_truthy _ _ Hrun _ k v Hk).
      intros k0 v0 Hk0. rewrite Hempty in Hk0. now rewrite lookup_empty in Hk0. }
    split; [assumption |]. intros s ->. now apply truthy_string.
Qed.

(** *** Conversation continuity *)

Lemma outbound_conversation_id store request body msgs m :
  JS.prop (Pure.outbound store request body msgs m) "conversation_id"
  = Spec.resolved_id store (Pure.conversationKey request msgs) msgs.
Proof.
  unfold Pure.outbound, Pure.request, Spec.resolved_id, Spec.assistant_ids.
  destruct (JS.truthy (JS.default_to (JS.prop body "stream") (VBool false)));
    simpl JS.prop; now rewrite fold_step_id.
Qed.

Lemma line_registers line data key id w :
  Line.carries JSON_parse line data ->
  JS.prop data "event" = VStr "message" \/ JS.prop data "event" = VStr "message_end" ->
  JS.prop data "conversation_id" = VStr id ->
  id <> EmptyString ->
  conversationStore
    (snd (convertDifyToOpenAIStreamFormat JSON_parse Date_now line key w)) !! key
  = Some (VStr id).
Proof.
  intros Hline Hevent Hid Hne.
  rewrite convertDifyToOpenAIStreamFormat_eval. simpl snd.
  rewrite (line_result_carries _ _ _ _ Hline). unfold Pure.translated.
  assert (Htruthy : JS.truthy (VStr id) = true).
  { simpl. destruct id; [congruence | reflexivity]. }
  destruct data; try (destruct Hevent; discriminate). simpl JS.nullish. cbv iota.
  destruct Hevent as [-> | ->]; simpl; rewrite register_store, Hid, Htruthy;
    apply lookup_insert_eq.
Qed.

(** C3, amended. A request whose key has no registry entry and whose
    messages carry no conversation id in an assistant entry is posted with
    [conversation_id] the empty string.  When the blocking reply, or a
    [message] or [message_end] event of the stream, then reports the
    conversation id [id] for the key, the registry maps the key to [id]; and
    a request deriving the same key, whose messages carry no conversation id
    in an assistant entry, made while the registry maps the key to [id], is
    posted with [conversation_id] equal to [id]. *)
Theorem conversation_continuity request body w msgs m id key :
  JS.nullish body = false ->
  JS.prop body "messages" = VArr msgs ->
  Spec.message_list msgs ->
  Spec.last_user msgs = Some m ->
  Spec.assistant_ids msgs = [] ->
  Pure.conversationKey request msgs = key ->
  id <> EmptyString ->
  (exists posted,
     sent (snd (handler request body w)) = sent w ++ [posted]
     /\ (conversationStore w !! key = None ->
         JS.prop posted "conversation_id" = VStr EmptyString)
     /\ (conversationStore w !! key = Some (VStr id) ->
         JS.prop posted "conversation_id" = VStr id))
  /\ (forall data w0,
        JS.nullish data = false ->
        JS.prop data "conversation_id" = VStr id ->
        conversationStore (snd (blocking_reply Date_now data key w0)) !! key
        = Some (VStr id))
  /\ (forall line data w0,
        Line.carries JSON_parse line data ->
        JS.prop data "event" = VStr "message"
        \/ JS.prop data "event" = VStr "message_end" ->
        JS.prop data "conversation_id" = VStr id ->
        conversationStore
          (snd (convertDifyToOpenAIStreamFormat JSON_parse Date_now line key w0)) !! key
        = Some (VStr id)).
Proof.
  intros Hbody Hmessages Hwf Hlast Hnone Hkey Hne.
  assert (Htruthy : JS.truthy (VStr id) = true).
  { simpl. destruct id; [congruence | reflexivity]. }
  split; [| split].
  - eexists. split; [apply (handler_posts _ _ _ _ _ Hbody Hmessages Hwf Hlast) |].
    rewrite outbound_conversation_id, Hkey.
    unfold Spec.resolved_id, Spec.registered. rewrite Hnone. simpl.
    split; intros ->; simpl; [reflexivity |].
    unfold JS.or. now rewrite Htruthy.
  - intros data w0 Hdata Hid.
    rewrite (blocking_reply_eval _ _ _ Hdata). simpl snd.
    rewrite register_store, Hid, Htruthy. apply lookup_insert_eq.
  - intros line data w0 Hline Hevent Hid.
    now apply line_registers with (data := data).
Qed.

Local Abbreviation frame := (Pure.frame JSON_stringify).


(** C5. The stream translator returns on every line: it never throws.  A
    line that does not parse after the repair, and a line whose event is
    neither [message] nor [message_end], give [null] and change nothing; so a
    data frame with an unparseable line between two [message] lines gives
    exactly the two chunks. *)
Theorem stream_translator_total key w line bad line1 line2 answer1 answer2 :
  (exists chunk w2,
     convertDifyToOpenAIStreamFormat JSON_parse Date_now line key w = (Return chunk, w2))
  /\ (JSON_parse (Pure.payload line) = None ->
      convertDifyToOpenAIStreamFormat JSON_parse Date_now line key w = (Return VNull, w))
  /\ (forall data,
        JSON_parse (Pure.payload line) = Some data ->
        JS.is_str (JS.prop data "event") "message" = false ->
        JS.is_str (JS.prop data "event") "message_end" = false ->
        convertDifyToOpenAIStreamFormat JSON_parse Date_now line key w = (Return VNull, w))
  /\ (Line.message_event JSON_parse line1 answer1 ->
      Line.unparseable JSON_parse bad ->
      Line.message_event JSON_parse line2 answer2 ->
      exists chunk1 chunk2,
        on_data JSON_parse JSON_stringify Date_now key
          (Str.join_lines [line1; bad; line2]) w
        = (Return tt, snd (on_data JSON_parse JSON_stringify Date_now key
                             (Str.join_lines [line1; bad; line2]) w))
        /\ res (snd (on_data JSON_parse JSON_stringify Date_now key
                       (Str.join_lines [line1; bad; line2]) w))
           = res w ++ [Write (frame chunk1); Write (frame chunk2)]
        /\ JS.prop (Pure.delta chunk1) "content" = VStr answer1
        /\ JS.prop (Pure.delta chunk2) "content" = VStr answer2).
Proof.
  rewrite !convertDifyToOpenAIStreamFormat_eval. split; [eauto |].
  split; [| split].
  - intros Hparse. unfold Pure.line_result. rewrite Hparse.
    now destruct (Str.is_empty _).
  - intros data Hparse Hm He. unfold Pure.line_result, Pure.translated.
    rewrite Hparse, Hm, He.
    destruct (Str.is_empty _); [reflexivity |]. now destruct (JS.nullish data).
  - intros (d1 & L1 & E1 & A1) (Nbad & Hbad) (d2 & L2 & E2 & A2).
    pose proof L1 as (S1 & N1 & _). pose proof L2 as (S2 & N2 & _).
    rewrite on_data_eval. unfold Pure.event_lines.
    rewrite split_join_lines; [| discriminate | repeat constructor; assumption].
    simpl List.filter. rewrite S1, S2.
    assert (Hfold : forall w0,
      fold_left (relay_line key)
        (if Str.startsWith bad "data:" then [bad; line2] else [line2]) w0
      = relay_line key w0 line2).
    { intros w0. destruct (Str.startsWith bad "data:"); simpl; [| reflexivity].
      now rewrite (relay_line_unparseable _ _ _ Hbad). }
    simpl fold_left. rewrite Hfold.
    rewrite (relay_line_message _ _ _ _ L1 E1), (relay_line_message _ _ _ _ L2 E2).
    do 2 eexists. split; [reflexivity |]. split.
    { unfold with_res. simpl res. rewrite !register_res. simpl res.
      rewrite <- !app_assoc. reflexivity. }
    rewrite <- A1, <- A2. split; apply message_chunk_delta.
Qed.

End ServerFacts.

(** ** The examples run *)

Lemma carries_known fields :
  Example.JSON_parse (Pure.payload (Example.line fields)) = Some (Example.object fields) ->
  Str.is_empty (Str.trim (Str.replace "data: " EmptyString (Example.line fields))) = false ->
  Str.no_newline (Example.line fields) = true ->
  Line.carries Example.JSON_parse (Example.line fields) (Example.object fields).
Proof. intros Hparse Hclean Hline. now repeat split. Qed.


Lemma stream_translator_total_witness :
  exists chunk1 chunk2,
    on_data Example.JSON_parse Example.JSON_stringify Example.Date_now (KStr "Hello!")
      (Str.join_lines [Example.line Example.hi; Example.garbage;
                       Example.line Example.there]) (Example.world_of ∅ [])
    = (Return tt,
       snd (on_data Example.JSON_parse Example.JSON_stringify Example.Date_now
              (KStr "Hello!")
              (Str.join_lines [Example.line Example.hi; Example.garbage;
                               Example.line Example.there]) (Example.world_of ∅ [])))
    /\ res (snd (on_data Example.JSON_parse Example.JSON_stringify Example.Date_now
                   (KStr "Hello!")
                   (Str.join_lines [Example.line Example.hi; Example.garbage;
                                    Example.line Example.there]) (Example.world_of ∅ [])))
       = [] ++ [Write (Pure.frame Example.JSON_stringify chunk1);
                Write (Pure.frame Example.JSON_stringify chunk2)]
    /\ JS.prop (Pure.delta chunk1) "content" = VStr "Hi"
    /\ JS.prop (Pure.delta chunk2) "content" = VStr " there".
Proof.
  apply (proj2 (proj2 (proj2
           (stream_translator_total Example.JSON_parse Example.JSON_stringify
              Example.Date_now (KStr "Hello!") (Example.world_of ∅ [])
              Example.garbage Example.garbage
              (Example.line Example.hi) (Example.line Example.there) "Hi" " there")))).
  - exists (Example.object Example.hi).
    split; [apply carries_known; vm_compute; reflexivity | split; reflexivity].
  - split; vm_compute; reflexivity.
  - exists (Example.object Example.there).
    split; [apply carries_known; vm_compute; reflexivity | split; reflexivity].
Defined.

(** C3, as stated, fails.  The first request is posted with the empty id and
    the reply registers "abc" for its key; the follow-up derives the same
    key, but its assistant message carries the id "zzz", and it is posted
    with "zzz", not "abc". *)
Lemma continuity_counterexample :
  let handler :=
    chat_completions Example.ToString Example.Date_now Example.abc_backend in
  let w1 := snd (handler 1 (Example.body_of Example.opening) Example.start) in
  let w2 := snd (handler 2 (Example.body_of Example.followup) w1) in
  Pure.conversationKey 1 Example.opening = KStr "Hello!"
  /\ Pure.conversationKey 2 Example.followup = KStr "Hello!"
  /\ conversationStore Example.start !! KStr "Hello!" = None
  /\ Spec.assistant_ids Example.opening = []
  /\ Example.posted_ids w1 = [VStr EmptyString]
  /\ conversationStore w1 !! KStr "Hello!" = Some (VStr "abc")
  /\ Example.posted_ids w2 = [VStr EmptyString; VStr "zzz"]
  /\ VStr "zzz" <> VStr "abc".
Proof.
  cbv zeta. repeat split; try (vm_compute; reflexivity). discriminate.
Qed.

Lemma conversation_continuity_witness :
  let handler :=
    chat_completions Example.ToString Example.Date_now Example.abc_backend in
  let w := World Example.known [] 0 [] [] in
  (exists posted,
     sent (snd (handler 2 (Example.body_of Example.plain_followup) w)) = sent w ++ [posted]
     /\ (conversationStore w !! KStr "Hello!" = None ->
         JS.prop posted "conversation_id" = VStr EmptyString)
     /\ (conversationStore w !! KStr "Hello!" = Some (VStr "abc") ->
         JS.prop posted "conversation_id" = VStr "abc"))
  /\ (forall data w0,
        JS.nullish data = false ->
        JS.prop data "conversation_id" = VStr "abc" ->
        conversationStore
          (snd (blocking_reply Example.Date_now data (KStr "Hello!") w0)) !! KStr "Hello!"
        = Some (VStr "abc"))
  /\ (forall line data w0,
        Line.carries Example.JSON_parse line data ->
        JS.prop data "event" = VStr "message"
        \/ JS.prop data "event" = VStr "message_end" ->
        JS.prop data "conversation_id" = VStr "abc" ->
        conversationStore
          (snd (convertDifyToOpenAIStreamFormat Example.JSON_parse Example.Date_now
                  line (KStr "Hello!") w0)) !! KStr "Hello!"
        = Some (VStr "abc")).
Proof.
  refine (conversation_continuity Example.JSON_parse Example.ToString Example.Date_now
            Example.abc_backend 2 (Example.body_of Example.plain_followup)
            (World Example.known [] 0 [] []) Example.plain_followup
            (Example.message "user" "More?") "abc" (KStr "Hello!")
            eq_refl eq_refl _ eq_refl eq_refl eq_refl _).
  - repeat constructor.
  - discriminate.
Defined.

Lemma blocking_completion_witness :
  let handler :=
    chat_completions Example.ToString Example.Date_now Example.difyClient_post in
  let body := Example.body_of Example.conversation in
  exists response,
    fst (handler 1 body Example.start) = Return Finished
    /\ res (snd (handler 1 body Example.start)) = [] ++ [Json response]
    /\ JS.prop response "id" = VStr "m1"
    /\ JS.prop (JS.first (JS.prop response "choices")) "message"
       = VObj [("role", VStr "assistant"); ("content", VStr "Hello!");
               ("conversation_id", VStr "c1")]
    /\ JS.prop (JS.first (JS.prop response "choices")) "finish_reason" = VStr "stop"
    /\ JS.prop response "usage"
       = VObj [("prompt_tokens", VNum 0); ("completion_tokens", VNum 0);
               ("total_tokens", VNum 0)]
    /\ JS.prop response "conversation_id" = VStr "c1"
    /\ conversationStore (snd (handler 1 body Example.start))
         !! Pure.conversationKey 1 Example.conversation = Some (VStr "c1").
Proof.
  refine (proj1 (blocking_completion Example.ToString Example.Date_now
                   Example.difyClient_post 1 (Example.body_of Example.conversation)
                   Example.start Example.conversation (Example.message "user" "More?")
                   eq_refl eq_refl _ eq_refl eq_refl eq_refl)).
  repeat constructor.
Defined.

(** C10, as stated, fails.  The backend answers a first request with a
    reply whose [conversation_id] is the number 7: that is truthy, so line 351
    stores it, and the registry holds a value that is no string. *)
Lemma registry_counterexample :
  let handler :=
    chat_completions Example.ToString Example.Date_now Example.numeric_backend in
  let w1 := snd (handler 1 (Example.body_of Example.opening) Example.start) in
  conversationStore Example.start = ∅
  /\ JS.prop Example.reply_7 "conversation_id" = VNum 7
  /\ conversationStore (snd (blocking_reply Example.Date_now Example.reply_7
                               (KStr "Hello!") Example.start)) !! KStr "Hello!"
     = Some (VNum 7)
  /\ Pure.conversationKey 1 Example.opening = KStr "Hello!"
  /\ conversationStore w1 !! KStr "Hello!" = Some (VNum 7)
  /\ ~ Spec.ids_are_strings (conversationStore w1).
Proof.
  cbv zeta. repeat split; try (vm_compute; reflexivity).
  intros H.
  destruct (H (KStr "Hello!") (VNum 7)) as (s & Hs & _);
    [vm_compute; reflexivity | discriminate].
Qed.

Lemma registry_holds_ids_witness :
  let handler :=
    chat_completions Example.ToString Example.Date_now Example.numeric_backend in
  let run_relay :=
    relay Example.JSON_parse Example.JSON_stringify Example.Date_now in
  let w1 := snd (handler 1 (Example.body_of Example.opening) Example.start) in
  let w2 := snd (run_relay (KStr "More?") [DataEvent (Example.line Example.named); EndEvent] w1) in
  conversationStore w2 !! KStr "Hello!" = Some (VNum 7)
  /\ conversationStore w2 !! KStr "More?" = Some (VStr "abc")
  /\ JS.truthy (VStr "abc") = true
  /\ (forall s, VStr "abc" = VStr s -> s <> EmptyString).
Proof.
  intros handler run_relay w1 w2.
  split; [vm_compute; reflexivity |]. split; [vm_compute; reflexivity |].
  refine (proj2 (proj2 (proj2 (proj2
            (registry_holds_ids Example.JSON_parse Example.JSON_stringify
               Example.ToString Example.Date_now Example.numeric_backend
               (Example.line Example.named) Example.reply_m1 (KStr "Hello!")
               Example.start Example.start w2 eq_refl _))))
            (KStr "More?") (VStr "abc") _).
  - apply (rtc_l _ _ w1); [apply Registry.op_request |].
    apply rtc_once. apply Registry.op_stream.
  - vm_compute; reflexivity.
Defined.

(** The string operations on small inputs. *)
Example clean_line :
  Str.trim (Str.replace "data: " EmptyString ("data:  x " +:+ Str.nl)) = "x".
Proof. reflexivity. Qed.

Example split_frame :
  Str.split_lines ("data: a" +:+ Str.nl +:+ Str.nl +:+ "data: b")
  = ["data: a"; EmptyString; "data: b"].
Proof. reflexivity. Qed.

(** A missing comma between two properties is put back; a quoted blank
    before the closing brace is left alone. *)
Example repair_missing_comma :
  Str.fix_json ("{" +:+ Example.quoted "a" +:+ ": " +:+ Example.quoted "x" +:+ " "
                +:+ Example.quoted "b" +:+ ": " +:+ Example.quoted " " +:+ "}")
  = Example.text [("a", "x"); ("b", " ")].
Proof. reflexivity. Qed.

(** An entry that is [null] is no message: reading its properties throws a
    [TypeError], here in the arguments of the first [log] call. *)
Example null_entry_throws :
  fst (convertOpenAIToDifyFormat 0 (KStr "Hello!") VUndef
         (Example.world_of ∅ [VNull; Example.message "user" "Hello!"]))
  = Throw TypeError.
Proof. reflexivity. Qed.

(** * More of the server *)

Section MoreServerFacts.

Variable JSON_parse : string -> option value.
Variable JSON_stringify : value -> string.
Variable ToString : value -> string.
Variable Date_now : nat -> Z.
Variable difyClient_post : value -> bool -> post_result.

Local Abbreviation handler := (chat_completions ToString Date_now difyClient_post).
Local Abbreviation translate_line := (convertDifyToOpenAIStreamFormat JSON_parse Date_now).
Local Abbreviation data_handler := (on_data JSON_parse JSON_stringify Date_now).
Local Abbreviation run_relay := (relay JSON_parse JSON_stringify Date_now).

(** ** The handler answers every request *)

Lemma on_failure_eval error w :
  exists status answer,
    on_failure ToString error w
    = (Return Finished,
       with_res (fun calls => calls ++ [Status status; Json answer]) w).
Proof.
  destruct error; do 2 eexists;
    unfold on_failure, bind, res_call_, with_res, ret; simpl;
    rewrite <- (app_assoc (res w)); reflexivity.
Qed.

Ltac open_handler Hbody :=
  unfold chat_completions;
  rewrite (try_catch_bind_eval _ _ _ _ _ _ (returns_get _ "messages" Hbody _));
  rewrite (try_catch_bind_eval _ _ _ _ _ _ (returns_get _ "stream" Hbody _));
  rewrite (try_catch_bind_eval _ _ _ _ _ _ (returns_get _ "user" Hbody _)).

Ltac answered_with calls :=
  exists Finished; eexists; exists calls;
  split; [reflexivity |];
  split; [simpl; rewrite <- ?app_assoc; reflexivity |];
  match calls with
  | ?before ++ [Json ?answer] => exists before, answer; split; reflexivity
  end.

Lemma handler_answers request body w :
  exists served w2 calls,
    handler request body w = (Return served, w2)
    /\ res w2 = res w ++ calls
    /\ match served with
       | Finished =>
           exists before answer,
             calls = before ++ [Json answer]
             /\ forallb Sample.head_call before = true
       | Streaming _ => calls = Sample.sse_headers
       end.
Proof.
  destruct (JS.nullish body) eqn:Hbody.
  { unfold chat_completions.
    rewrite (try_catch_bind_throw _ _ _ w TypeError w)
      by (unfold get; now rewrite Hbody).
    destruct (on_failure_eval TypeError w) as (status & answer & ->).
    answered_with ([Status status] ++ [Json answer]). }
  open_handler Hbody.
  destruct (JS.prop body "messages") as [| | b | n | s | msgs | fields];
    try (unfold try_catch, bind, res_call_, with_res, ret; simpl;
         answered_with ([Status (VNum 400)]
                        ++ [Json (VObj [("error", VStr "Invalid messages format")])])).
  rewrite (try_catch_bind_eval _ _ _ _ (length (arrays w))
             (with_arrays (fun h => h ++ [msgs]) w)) by reflexivity.
  rewrite (try_catch_bind_eval _ _ _ _ _ _ (first_in_handler w msgs)).
  set (key := key_of request _). set (user := JS.prop body "user").
  pose proof (convertOpenAIToDifyFormat_world (length (arrays w)) key user
                (with_arrays (fun h => h ++ [msgs]) w)) as Hworld.
  destruct (convertOpenAIToDifyFormat (length (arrays w)) key user
              (with_arrays (fun h => h ++ [msgs]) w)) as [[difyRequest | error] w2] eqn:Ht;
    simpl in Hworld.
  2:{ rewrite (try_catch_bind_throw _ _ _ _ _ _ Ht).
      destruct (on_failure_eval error w2) as (status & answer & ->). subst w2.
      answered_with ([Status status] ++ [Json answer]). }
  rewrite (try_catch_bind_eval _ _ _ _ _ _ Ht).
  destruct (JS.truthy (JS.default_to (JS.prop body "stream") (VBool false))).
  - do 3 (erewrite try_catch_bind_eval by reflexivity).
    unfold try_catch, bind, post.
    destruct (difyClient_post difyRequest true) as [data | error].
    + exists (Streaming key). eexists. exists Sample.sse_headers. subst w2.
      split; [reflexivity |]. split; [| reflexivity].
      simpl. rewrite <- !app_assoc. reflexivity.
    + match goal with
      | |- context [on_failure ToString error ?w3] =>
          destruct (on_failure_eval error w3) as (status & answer & ->)
      end.
      subst w2. answered_with ((Sample.sse_headers ++ [Status status]) ++ [Json answer]).
  - unfold try_catch, bind at 1, post.
    destruct (difyClient_post _ false) as [data | error].
    + destruct (JS.nullish data) eqn:Hdata.
      * rewrite (bind_throw _ _ _ _ _ (blocking_reply_nullish _ _ _ _ Hdata)).
        match goal with
        | |- context [on_failure ToString TypeError ?w3] =>
            destruct (on_failure_eval TypeError w3) as (status & answer & ->)
        end.
        subst w2. answered_with ([Status status] ++ [Json answer]).
      * rewrite (bind_eval _ _ _ _ _ (blocking_reply_eval _ _ _ _ Hdata)).
        unfold bind, res_call_, ret. subst w2.
        exists Finished. eexists. eexists. split; [reflexivity |]. split.
        { simpl. rewrite register_res. simpl. reflexivity. }
        exists []. eexists. split; reflexivity.
    + match goal with
      | |- context [on_failure ToString error ?w3] =>
          destruct (on_failure_eval error w3) as (status & answer & ->)
      end.
      subst w2. answered_with ([Status status] ++ [Json answer]).
Qed.

(** X1. Whatever the body of the request and whatever the backend does, the
    handler does not throw, and it either completes the response with
    exactly one JSON body, sent last, after header and status calls only, or
    leaves a stream open with just the three event-stream headers set. *)
Theorem handler_always_answers request body w :
  exists served calls,
    fst (handler request body w) = Return served
    /\ res (snd (handler request body w)) = res w ++ calls
    /\ match served with
       | Finished =>
           exists before answer,
             calls = before ++ [Json answer]
             /\ forallb Sample.head_call before = true
       | Streaming _ => calls = Sample.sse_headers
       end.
Proof.
  destruct (handler_answers request body w) as (served & w2 & calls & -> & Hres & Hcalls).
  exists served, calls. repeat split; assumption.
Qed.

(** ** Failures of the backend *)

(** X2. When the backend call is rejected with an axios error, in blocking
    or in streaming mode, the request is answered with the status of the
    backend reply if it has one, else 500, and with an error object that
    carries the message of the backend (else the message of the error), the
    type [dify_api_error] and that status; the registry is left as it was. *)
Theorem backend_failure_reported request body w msgs m response message :
  JS.nullish body = false ->
  JS.prop body "messages" = VArr msgs ->
  Spec.message_list msgs ->
  Spec.last_user msgs = Some m ->
  difyClient_post (Pure.outbound (conversationStore w) request body msgs m)
    (JS.truthy (JS.default_to (JS.prop body "stream") (VBool false)))
    = Rejected (AxiosError response message) ->
  let status := JS.or (JS.opt response "status") (VNum 500) in
  let detail := JS.or (JS.opt (JS.opt response "data") "message") (VStr message) in
  let answer :=
    VObj [("error", VObj [("message", VStr ("Dify API error: " +:+ ToString detail));
                          ("type", VStr "dify_api_error");
                          ("status", status)])] in
  fst (handler request body w) = Return Finished
  /\ res (snd (handler request body w))
     = res w
       ++ (if JS.truthy (JS.default_to (JS.prop body "stream") (VBool false))
           then Sample.sse_headers else [])
       ++ [Status status; Json answer]
  /\ conversationStore (snd (handler request body w)) = conversationStore w.
Proof.
  intros Hbody Hmessages Hwf Hlast Hpost. cbv zeta.
  assert (H : exists w2,
    handler request body w = (Return Finished, w2)
    /\ res w2 = res w
         ++ (if JS.truthy (JS.default_to (JS.prop body "stream") (VBool false))
             then Sample.sse_headers else [])
         ++ [Status (JS.or (JS.opt response "status") (VNum 500));
             Json (VObj [("error",
               VObj [("message",
                      VStr ("Dify API error: " +:+
                            ToString (JS.or (JS.opt (JS.opt response "data") "message")
                                        (VStr message))));
                     ("type", VStr "dify_api_error");
                     ("status", JS.or (JS.opt response "status") (VNum 500))])])]
    /\ conversationStore w2 = conversationStore w).
  { unfold Pure.outbound in Hpost. open_handler Hbody. rewrite Hmessages.
    rewrite (try_catch_bind_eval _ _ _ _ (length (arrays w))
               (with_arrays (fun h => h ++ [msgs]) w)) by reflexivity.
    rewrite (try_catch_bind_eval _ _ _ _ _ _ (first_in_handler w msgs)).
    erewrite try_catch_bind_eval
      by (rewrite (translate_in_handler _ _ _ _ Hwf), Hlast; reflexivity).
    fold (Pure.conversationKey request msgs).
    destruct (JS.truthy (JS.default_to (JS.prop body "stream") (VBool false))).
    - do 3 (erewrite try_catch_bind_eval by reflexivity).
      erewrite try_catch_bind_throw by (unfold post; rewrite Hpost; reflexivity).
      eexists. split; [reflexivity |]. split; [| reflexivity].
      simpl. rewrite <- !app_assoc. reflexivity.
    - erewrite try_catch_bind_throw by (unfold post; rewrite Hpost; reflexivity).
      eexists. split; [reflexivity |]. split; [| reflexivity].
      simpl. rewrite <- !app_assoc. reflexivity. }
  destruct H as (w2 & -> & Hres & Hstore). repeat split; assumption.
Qed.

(** ** The body posted to the backend *)

(** X3. A request with a user message makes the handler post exactly one
    body, whatever the backend answers: its query is the content of the last
    user message, its [user] is the one of the request, else "default-user",
    its [inputs] are empty, and its [response_mode] is "streaming" when the
    client asked for a stream, else "blocking". *)
Theorem posted_body request body w msgs m :
  JS.nullish body = false ->
  JS.prop body "messages" = VArr msgs ->
  Spec.message_list msgs ->
  Spec.last_user msgs = Some m ->
  exists posted,
    sent (snd (handler request body w)) = sent w ++ [posted]
    /\ JS.prop posted "query" = JS.prop m "content"
    /\ JS.prop posted "user" = JS.default_to (JS.prop body "user") (VStr "default-user")
    /\ JS.prop posted "inputs" = VObj []
    /\ JS.prop posted "response_mode"
       = VStr (if JS.truthy (JS.default_to (JS.prop body "stream") (VBool false))
               then "streaming" else "blocking").
Proof.
  intros Hbody Hmessages Hwf Hlast.
  eexists. split; [apply (handler_posts _ _ _ _ _ _ _ _ Hbody Hmessages Hwf Hlast) |].
  unfold Pure.outbound, Pure.request.
  destruct (JS.truthy (JS.default_to (JS.prop body "stream") (VBool false)));
    repeat split.
Qed.

(** ** The key of a conversation *)

Lemma handler_blocking_store request body w msgs m data :
  JS.nullish body = false ->
  JS.prop body "messages" = VArr msgs ->
  Spec.message_list msgs ->
  Spec.last_user msgs = Some m ->
  JS.truthy (JS.default_to (JS.prop body "stream") (VBool false)) = false ->
  difyClient_post (Pure.outbound (conversationStore w) request body msgs m) false
    = Resolved data ->
  JS.nullish data = false ->
  conversationStore (snd (handler request body w))
  = if JS.truthy (JS.prop data "conversation_id")
    then <[Pure.conversationKey request msgs := JS.prop data "conversation_id"]>
           (conversationStore w)
    else conversationStore w.
Proof.
  intros Hbody Hmessages Hwf Hlast Hstream Hpost Hdata.
  rewrite (handler_blocking _ _ _ _ _ _ _ _ _ Hbody Hmessages Hwf Hlast Hstream Hpost Hdata).
  simpl. now rewrite register_store.
Qed.

Lemma string_truthy id : id <> EmptyString -> JS.truthy (VStr id) = true.
Proof. intros H. simpl. destruct id; [congruence | reflexivity]. Qed.

Lemma has_property_not_nullish v name s : JS.prop v name = VStr s -> JS.nullish v = false.
Proof. destruct v; simpl; congruence. Qed.

(** X4. The key of a conversation is the content of its first message and
    nothing else.  So two conversations that open with the same text share
    one registry entry: once the backend has reported an id for the first,
    a request of the second, with other messages after the opening and no id
    of its own, is posted with the id of the first. *)
Theorem shared_opening_shares_id
    requestA requestB bodyA bodyB w opening restA restB mA mB text id data :
  JS.prop opening "content" = VStr text ->
  text <> EmptyString ->
  JS.nullish bodyA = false ->
  JS.prop bodyA "messages" = VArr (opening :: restA) ->
  Spec.message_list (opening :: restA) ->
  Spec.last_user (opening :: restA) = Some mA ->
  JS.truthy (JS.default_to (JS.prop bodyA "stream") (VBool false)) = false ->
  difyClient_post
    (Pure.outbound (conversationStore w) requestA bodyA (opening :: restA) mA) false
    = Resolved data ->
  JS.prop data "conversation_id" = VStr id ->
  id <> EmptyString ->
  JS.nullish bodyB = false ->
  JS.prop bodyB "messages" = VArr (opening :: restB) ->
  Spec.message_list (opening :: restB) ->
  Spec.last_user (opening :: restB) = Some mB ->
  Spec.assistant_ids (opening :: restB) = [] ->
  Pure.conversationKey requestA (opening :: restA) = KStr text
  /\ Pure.conversationKey requestB (opening :: restB) = KStr text
  /\ exists posted,
       sent (snd (handler requestB bodyB (snd (handler requestA bodyA w))))
       = sent (snd (handler requestA bodyA w)) ++ [posted]
       /\ JS.prop posted "conversation_id" = VStr id.
Proof.
  intros Hcontent Htext HbodyA HmsgsA HwfA HlastA Hstream Hpost Hid Hne
         HbodyB HmsgsB HwfB HlastB Hnone.
  assert (Hopening : JS.nullish opening = false)
    by exact (has_property_not_nullish _ _ _ Hcontent).
  assert (Hkey : forall request rest,
            Pure.conversationKey request (opening :: rest) = KStr text).
  { intros request rest. unfold Pure.conversationKey, JS.opt. simpl JS.first.
    rewrite Hopening, Hcontent. unfold JS.or. now rewrite (string_truthy _ Htext). }
  split; [apply Hkey |]. split; [apply Hkey |].
  eexists. split; [apply (handler_posts _ _ _ _ _ _ _ _ HbodyB HmsgsB HwfB HlastB) |].
  rewrite outbound_conversation_id, Hkey.
  rewrite (handler_blocking_store _ _ _ _ _ _ HbodyA HmsgsA HwfA HlastA Hstream Hpost
             (has_property_not_nullish _ _ _ Hid)).
  rewrite Hid, (string_truthy _ Hne), Hkey.
  unfold Spec.resolved_id, Spec.registered. rewrite Hnone, lookup_insert_eq. simpl.
  unfold JS.or. now rewrite (string_truthy _ Hne).
Qed.

(** X5. When the content of the first message is an array or an object, as
    with a list of content parts, the key is that object itself.  The id the
    backend reports is stored under it, but no later request can find it:
    the next request, even with the very same messages, is posted with the
    empty conversation id, unless one of its assistant messages carries an
    id. *)
Theorem structured_content_is_not_continued
    requestA requestB bodyA bodyB w opening restA restB mA mB id data :
  Sample.is_object (JS.prop opening "content") = true ->
  requestA <> requestB ->
  conversationStore w !! KRef requestB = None ->
  JS.nullish bodyA = false ->
  JS.prop bodyA "messages" = VArr (opening :: restA) ->
  Spec.message_list (opening :: restA) ->
  Spec.last_user (opening :: restA) = Some mA ->
  JS.truthy (JS.default_to (JS.prop bodyA "stream") (VBool false)) = false ->
  difyClient_post
    (Pure.outbound (conversationStore w) requestA bodyA (opening :: restA) mA) false
    = Resolved data ->
  JS.prop data "conversation_id" = VStr id ->
  id <> EmptyString ->
  JS.nullish bodyB = false ->
  JS.prop bodyB "messages" = VArr (opening :: restB) ->
  Spec.message_list (opening :: restB) ->
  Spec.last_user (opening :: restB) = Some mB ->
  Spec.assistant_ids (opening :: restB) = [] ->
  conversationStore (snd (handler requestA bodyA w)) !! KRef requestA = Some (VStr id)
  /\ exists posted,
       sent (snd (handler requestB bodyB (snd (handler requestA bodyA w))))
       = sent (snd (handler requestA bodyA w)) ++ [posted]
       /\ JS.prop posted "conversation_id" = VStr EmptyString.
Proof.
  intros Hcontent Hrequests Hfresh HbodyA HmsgsA HwfA HlastA Hstream Hpost Hid Hne
         HbodyB HmsgsB HwfB HlastB Hnone.
  assert (Hopening : JS.nullish opening = false).
  { destruct opening; simpl in Hcontent; try discriminate; reflexivity. }
  assert (Hkey : forall request rest,
            Pure.conversationKey request (opening :: rest) = KRef request).
  { intros request rest. unfold Pure.conversationKey, JS.opt. simpl JS.first.
    rewrite Hopening. destruct (JS.prop opening "content"); try discriminate; reflexivity. }
  rewrite (handler_blocking_store _ _ _ _ _ _ HbodyA HmsgsA HwfA HlastA Hstream Hpost
             (has_property_not_nullish _ _ _ Hid)).
  rewrite Hid, (string_truthy _ Hne), Hkey.
  split; [apply lookup_insert_eq |].
  eexists. split; [apply (handler_posts _ _ _ _ _ _ _ _ HbodyB HmsgsB HwfB HlastB) |].
  rewrite outbound_conversation_id, Hkey.
  rewrite (handler_blocking_store _ _ _ _ _ _ HbodyA HmsgsA HwfA HlastA Hstream Hpost
             (has_property_not_nullish _ _ _ Hid)).
  rewrite Hid, (string_truthy _ Hne), Hkey.
  unfold Spec.resolved_id, Spec.registered. rewrite Hnone.
  rewrite lookup_insert_ne by congruence. now rewrite Hfresh.
Qed.

(** ** One key does not disturb another *)

Lemma line_result_other key other line w :
  other <> key ->
  conversationStore (snd (Pure.line_result JSON_parse Date_now line key w)) !! other
  = conversationStore w !! other.
Proof.
  intros Hne. unfold Pure.line_result.
  destruct (Str.is_empty _); [reflexivity |].
  destruct (JSON_parse _) as [data |]; [| reflexivity].
  destruct (translated_store (Date_now (clock w)) data key w) as [-> | [_ ->]];
    [reflexivity |].
  now rewrite lookup_insert_ne by congruence.
Qed.

Lemma relay_line_other key other w line :
  other <> key ->
  conversationStore (Pure.relay_line JSON_parse JSON_stringify Date_now key w line) !! other
  = conversationStore w !! other.
Proof.
  intros Hne. unfold Pure.relay_line.
  pose proof (line_result_other key other line w Hne) as H.
  destruct (Pure.line_result JSON_parse Date_now line key w) as [chunk w2].
  simpl in H. now destruct (JS.truthy chunk).
Qed.

Lemma fold_other {A} (f : world -> A -> world) other elems :
  (forall w x, conversationStore (f w x) !! other = conversationStore w !! other) ->
  forall w, conversationStore (fold_left f elems w) !! other = conversationStore w !! other.
Proof.
  intros Hf. induction elems as [| x elems IH]; intros w; [reflexivity |].
  simpl. now rewrite IH, Hf.
Qed.

(** X6. What the relay and the blocking branch do for one conversation
    leaves the registry entries of all other keys as they were: over any
    sequence of stream events, and for any reply. *)
Theorem registry_isolation key other events data w :
  other <> key ->
  conversationStore (snd (run_relay key events w)) !! other = conversationStore w !! other
  /\ conversationStore (snd (blocking_reply Date_now data key w)) !! other
     = conversationStore w !! other.
Proof.
  intros Hne. split.
  - rewrite relay_eval. simpl snd. apply fold_other. intros w0 ev.
    destruct ev; simpl; [| reflexivity | reflexivity].
    apply fold_other. intros w1 line. now apply relay_line_other.
  - destruct (reply_store Date_now data key w) as [-> | [_ ->]]; [reflexivity |].
    now rewrite lookup_insert_ne by congruence.
Qed.

(** ** The conversation history *)

Lemma Forall2_map_r {A B} (P : A -> B -> Prop) (f : A -> B) l :
  (forall x, P x (f x)) -> Forall2 P l (List.map f l).
Proof. intros H. induction l; simpl; constructor; auto. Qed.

Lemma content_not_nullish msg : JS.nullish (Pure.content msg) = false.
Proof.
  unfold Pure.content, JS.or.
  repeat match goal with
         | |- context [if JS.truthy ?v then _ else _] =>
             let H := fresh "H" in
             destruct (JS.truthy v) eqn:H; [exact (truthy_not_nullish _ H) |]
         end.
  reflexivity.
Qed.

Lemma entry_id msg :
  JS.prop (Pure.entry msg) "conversation_id"
  = if JS.truthy (Pure.msgConversationId msg) then Pure.msgConversationId msg else VUndef.
Proof.
  unfold Pure.entry. now destruct (JS.truthy (Pure.msgConversationId msg)).
Qed.

Lemma stamp_entry cid msg :
  JS.prop (Pure.stamp cid (Pure.entry msg)) "role" = JS.prop msg "role"
  /\ JS.prop (Pure.stamp cid (Pure.entry msg)) "content" = Pure.content msg
  /\ JS.prop (Pure.stamp cid (Pure.entry msg)) "conversation_id"
     = if JS.truthy (Pure.msgConversationId msg) then Pure.msgConversationId msg else cid.
Proof.
  unfold Pure.stamp. rewrite entry_id. unfold Pure.entry, JS.or.
  destruct (JS.truthy (Pure.msgConversationId msg)) eqn:H; simpl; rewrite ?H; auto.
Qed.

Lemma fold_step_truthy msgs s :
  JS.truthy (fst s) = true -> JS.truthy (fst (fold_left Pure.step msgs s)) = true.
Proof.
  revert s. induction msgs as [| m msgs IH]; intros s Hs; [assumption |].
  simpl. apply IH. simpl. now destruct (JS.truthy (Pure.msgConversationId m)) eqn:Hm.
Qed.

Lemma fold_step_falsy msgs s :
  JS.truthy (fst (fold_left Pure.step msgs s)) = false ->
  Forall (fun msg => JS.truthy (Pure.msgConversationId msg) = false) msgs.
Proof.
  revert s. induction msgs as [| m msgs IH]; intros s Hs; [constructor |].
  simpl in Hs. constructor; [| exact (IH _ Hs)].
  destruct (JS.truthy (Pure.msgConversationId m)) eqn:Hm; [| reflexivity].
  rewrite fold_step_truthy in Hs; [discriminate |]. simpl. now rewrite Hm.
Qed.

Lemma request_history store key user msgs m :
  JS.prop (Pure.request store key user msgs m) "conversation_history"
  = VArr (if JS.truthy (Spec.resolved_id store key msgs)
          then List.map (fun msg => Pure.stamp (Spec.resolved_id store key msgs)
                                      (Pure.entry msg)) (Sample.non_system msgs)
          else List.map Pure.entry (Sample.non_system msgs)).
Proof.
  unfold Pure.request. simpl JS.prop. fold (Sample.non_system msgs).
  rewrite fold_step_history, fold_step_id. simpl.
  fold (Spec.assistant_ids msgs).
  change (default (Spec.registered store key) (last (Spec.assistant_ids msgs)))
    with (Spec.resolved_id store key msgs).
  now rewrite List.map_map.
Qed.

(** X7. The conversation history of the translated request has one entry
    for each non-system message, in the order of the messages: the entry has
    the role of its message; its content is the content of the message when
    that is not empty, and is never missing. *)
Theorem history_follows_messages messages key user w msgs :
  arrays w !! messages = Some msgs ->
  Spec.message_list msgs ->
  existsb (Spec.has_role "user") msgs = true ->
  exists request history,
    fst (convertOpenAIToDifyFormat messages key user w) = Return request
    /\ JS.prop request "conversation_history" = VArr history
    /\ Forall2 (fun msg entry =>
                  JS.prop entry "role" = JS.prop msg "role"
                  /\ (JS.truthy (JS.prop msg "content") = true ->
                      JS.prop entry "content" = JS.prop msg "content")
                  /\ JS.nullish (JS.prop entry "content") = false)
         (Sample.non_system msgs) history.
Proof.
  intros Hmsgs Hwf Huser.
  rewrite (convertOpenAIToDifyFormat_eval _ _ _ _ _ Hmsgs Hwf).
  destruct (last_user_exists _ Huser) as [m ->].
  do 2 eexists. split; [reflexivity |]. split; [apply request_history |].
  assert (Hcontent : forall msg,
    (JS.truthy (JS.prop msg "content") = true -> Pure.content msg = JS.prop msg "content")
    /\ JS.nullish (Pure.content msg) = false).
  { intros msg. split; [| apply content_not_nullish].
    intros H. unfold Pure.content, JS.or. now rewrite H. }
  destruct (JS.truthy (Spec.resolved_id (conversationStore w) key msgs)).
  - apply Forall2_map_r. intros msg.
    destruct (stamp_entry (Spec.resolved_id (conversationStore w) key msgs) msg)
      as (Hrole & Hc & _).
    rewrite Hrole, Hc. split; [reflexivity |]. apply Hcontent.
  - apply Forall2_map_r. intros msg. split; [reflexivity |]. apply Hcontent.
Qed.

(** X8. Once a conversation id is resolved, every entry of the history is
    stamped with an id: the id its own message carries, when that is an
    assistant message that carries one, else the resolved id.  When no id is
    resolved, no entry has a [conversation_id]. *)
Theorem history_is_stamped messages key user w msgs :
  arrays w !! messages = Some msgs ->
  Spec.message_list msgs ->
  existsb (Spec.has_role "user") msgs = true ->
  let resolved := Spec.resolved_id (conversationStore w) key msgs in
  exists request history,
    fst (convertOpenAIToDifyFormat messages key user w) = Return request
    /\ JS.prop request "conversation_id" = resolved
    /\ JS.prop request "conversation_history" = VArr history
    /\ Forall2 (fun msg entry =>
                  JS.prop entry "conversation_id"
                  = if JS.truthy resolved
                    then default resolved (Sample.own_id msg)
                    else VUndef)
         (Sample.non_system msgs) history.
Proof.
  intros Hmsgs Hwf Huser. cbv zeta.
  rewrite (convertOpenAIToDifyFormat_eval _ _ _ _ _ Hmsgs Hwf).
  destruct (last_user_exists _ Huser) as [m ->].
  do 2 eexists. split; [reflexivity |].
  split.
  { unfold Pure.request. simpl JS.prop. now rewrite fold_step_id. }
  split; [apply request_history |].
  destruct (JS.truthy (Spec.resolved_id (conversationStore w) key msgs)) eqn:Hresolved.
  - apply Forall2_map_r. intros msg.
    destruct (stamp_entry (Spec.resolved_id (conversationStore w) key msgs) msg)
      as (_ & _ & ->).
    unfold Sample.own_id. rewrite msgConversationId_carried.
    now destruct (JS.truthy (Pure.msgConversationId msg)).
  - assert (Hnone : Forall (fun msg => JS.truthy (Pure.msgConversationId msg) = false)
                      (Sample.non_system msgs)).
    { apply (fold_step_falsy _ (Spec.registered (conversationStore w) key, [])).
      rewrite fold_step_id. exact Hresolved. }
    induction Hnone as [| msg rest Hmsg _ IH]; simpl; constructor; [| exact IH].
    now rewrite entry_id, Hmsg.
Qed.

(** ** Frames of the backend stream *)

Lemma split_lines_nonempty s : Str.split_lines s <> [].
Proof.
  induction s as [| c r IH]; simpl; [discriminate |].
  destruct (Ascii.eqb c "010"%char); [discriminate |].
  destruct (Str.split_lines r); [contradiction | discriminate].
Qed.

Lemma split_lines_append a b :
  Str.split_lines (a +:+ String "010"%char b) = Str.split_lines a ++ Str.split_lines b.
Proof.
  induction a as [| c r IH]; [reflexivity |].
  simpl. rewrite IH.
  destruct (Ascii.eqb c "010"%char); [reflexivity |].
  pose proof (split_lines_nonempty r) as Hne.
  destruct (Str.split_lines r) as [| line lines]; [contradiction | reflexivity].
Qed.

Lemma event_lines_append a b :
  Pure.event_lines (a +:+ String "010"%char b) = Pure.event_lines a ++ Pure.event_lines b.
Proof. unfold Pure.event_lines. now rewrite split_lines_append, List.filter_app. Qed.

(** X9. The relay does not depend on how the backend groups whole lines
    into data frames: a frame that holds two runs of lines, one after the
    other, does to the response, the registry and the clock exactly what the
    two runs do when they come as two frames. *)
Theorem frames_split_at_line_ends key a b w :
  relay JSON_parse JSON_stringify Date_now key
    [DataEvent (a +:+ String "010"%char b)] w
  = relay JSON_parse JSON_stringify Date_now key [DataEvent a; DataEvent b] w.
Proof.
  rewrite !relay_eval. simpl. now rewrite event_lines_append, fold_left_app.
Qed.

Lemma no_newline_append a b :
  Str.no_newline (a +:+ b) = Str.no_newline a && Str.no_newline b.
Proof.
  induction a as [| c r IH]; [reflexivity |]. simpl. rewrite IH.
  now rewrite andb_assoc.
Qed.

Lemma event_lines_fragment s :
  Str.no_newline s = true -> Str.startsWith s "data:" = false -> Pure.event_lines s = [].
Proof.
  intros Hline Hstart. unfold Pure.event_lines.
  rewrite (split_lines_one _ Hline). simpl. now rewrite Hstart.
Qed.

(** X10. The relay keeps nothing from one data frame to the next.  An event
    line that arrives whole gives one chunk; the same line cut in two by a
    frame boundary, so that its first part does not parse and its second does
    not start with [data:], gives nothing: nothing is written and nothing is
    registered. *)
Theorem line_cut_by_frame_is_lost key w head tail data :
  Line.carries JSON_parse (head +:+ tail) data ->
  JS.prop data "event" = VStr "message" ->
  Str.startsWith tail "data:" = false ->
  JSON_parse (Pure.payload head) = None ->
  (exists chunk,
     res (snd (run_relay key [DataEvent (Line.framed (head +:+ tail))] w))
     = res w ++ [Write (Pure.frame JSON_stringify chunk)]
     /\ JS.prop (Pure.delta chunk) "content" = JS.prop data "answer")
  /\ run_relay key [DataEvent head; DataEvent (Line.framed tail)] w = (Return tt, w).
Proof.
  intros Hline Hevent Htail Hhead.
  pose proof Hline as (Hstart & Hnl & _).
  rewrite no_newline_append in Hnl. apply andb_prop in Hnl. destruct Hnl as [Nh Nt].
  split.
  - rewrite relay_eval. simpl.
    rewrite event_lines_framed by (assumption || (rewrite no_newline_append, Nh, Nt; reflexivity)).
    simpl. rewrite (relay_line_message _ _ _ _ _ _ _ Hline Hevent).
    eexists. split.
    + unfold with_res. simpl. now rewrite register_res.
    + apply message_chunk_delta.
  - rewrite relay_eval. simpl. f_equal.
    assert (Hsecond : Pure.event_lines (Line.framed tail) = []).
    { unfold Pure.event_lines, Line.framed.
      rewrite split_join_lines; [| discriminate | repeat constructor; assumption].
      simpl. now rewrite Htail. }
    rewrite Hsecond. simpl. unfold Pure.event_lines.
    rewrite (split_lines_one _ Nh). simpl.
    destruct (Str.startsWith head "data:"); [| reflexivity].
    simpl. now apply relay_line_unparseable.
Qed.

Lemma trimStart_d s : Str.trimStart (String "d"%char s) = String "d"%char s.
Proof. destruct s as [| c2 [| c3 r]]; reflexivity. Qed.

Lemma trimEnd_d s : Str.trimEnd (String "d"%char s) = String "d"%char (Str.trimEnd s).
Proof. cbn [Str.trimEnd]. now rewrite trimStart_d. Qed.

Lemma payload_starts_with_d line :
  Str.startsWith line "data:" = true ->
  Str.startsWith line "data: " = false ->
  exists rest text,
    Str.trim (Str.replace "data: " EmptyString line) = String "d"%char rest
    /\ Pure.payload line = String "d"%char text.
Proof.
  intros Hstart Hspace. unfold Str.startsWith in *.
  destruct line as [| c r]; [discriminate |].
  assert (c = "d"%char) as ->.
  { apply String.prefix_correct in Hstart. simpl in Hstart. now injection Hstart. }
  assert (Hreplace : Str.replace "data: " EmptyString (String "d"%char r)
                     = String "d"%char (Str.replace "data: " EmptyString r)).
  { change (Str.replace "data: " EmptyString (String "d"%char r))
      with (if String.prefix "data: " (String "d"%char r)
            then EmptyString +:+ Str.drop (String.length "data: ") (String "d"%char r)
            else String "d"%char (Str.replace "data: " EmptyString r)).
    now rewrite Hspace. }
  unfold Pure.payload. rewrite Hreplace. unfold Str.trim.
  rewrite trimStart_d, trimEnd_d.
  do 2 eexists. split; reflexivity.
Qed.

(** X11. An event line that has no space after [data:], which the
    event-stream format allows, is not recognised: the text handed to
    [JSON.parse] still starts with [data:], and with a [JSON.parse] that
    rejects every text starting with the letter d, as the real one does, the
    line gives [null] and changes nothing. *)
Theorem line_without_space_is_dropped line key w :
  (forall text, JSON_parse (String "d"%char text) = None) ->
  Str.startsWith line "data:" = true ->
  Str.startsWith line "data: " = false ->
  translate_line line key w = (Return VNull, w).
Proof.
  intros Hparse Hstart Hspace.
  destruct (payload_starts_with_d line Hstart Hspace) as (rest & text & Hclean & Hpayload).
  rewrite convertDifyToOpenAIStreamFormat_eval. unfold Pure.line_result.
  rewrite Hclean, Hpayload, Hparse. reflexivity.
Qed.

End MoreServerFacts.

(** ** The repair of the JSON text *)

Lemma trimStart_not_white s :
  Repair.starts_white s = false -> Str.trimStart s = s.
Proof.
  destruct s as [| c1 [| c2 [| c3 r3]]]; cbn [Repair.starts_white Str.trimStart];
    intros H; try reflexivity;
    (destruct (Str.ws1 c1); [discriminate |]);
    try (destruct (Str.ws2 c1 c2); [discriminate |]);
    try (destruct (Str.ws3 c1 c2 c3); [discriminate |]);
    reflexivity.
Qed.

Lemma quote_not_white x : Repair.starts_white (String Str.dquote x) = false.
Proof. destruct x as [| c2 [| c3 r3]]; reflexivity. Qed.

(** A quote is no byte of a white-space character: put after a text that
    does not start with white space, it makes none. *)
Lemma not_white_then_quote r x :
  Repair.starts_white r = false ->
  Repair.starts_white (r +:+ String Str.dquote x) = false.
Proof.
  destruct r as [| c1 [| c2 [| c3 r3]]]; intros H.
  - apply quote_not_white.
  - simpl in H. rewrite orb_false_r in H.
    change (Repair.starts_white (String c1 (String Str.dquote x)) = false).
    cbn [Repair.starts_white]. rewrite H.
    unfold Str.ws2, Str.ws3. cbv zeta.
    destruct x as [| c3 r3];
      repeat match goal with
             | |- context [Nat.eqb (nat_of_ascii c1) ?n] =>
                 destruct (Nat.eqb (nat_of_ascii c1) n)
             end; reflexivity.
  - cbn [Repair.starts_white] in H. rewrite orb_false_r in H.
    apply orb_false_elim in H. destruct H as [H1 H2].
    change (Repair.starts_white (String c1 (String c2 (String Str.dquote x))) = false).
    cbn [Repair.starts_white]. rewrite H1, H2.
    unfold Str.ws3. cbv zeta.
    repeat match goal with
           | |- context [Nat.eqb (nat_of_ascii ?c) ?n] =>
               is_var c; destruct (Nat.eqb (nat_of_ascii c) n)
           end; reflexivity.
  - exact H.
Qed.

Lemma match_gap_other c r : Ascii.eqb c Str.dquote = false -> Str.match_gap (String c r) = None.
Proof. intros H. unfold Str.match_gap. now rewrite H. Qed.

Lemma match_gap_not_white r :
  Repair.starts_white r = false -> Str.match_gap (String Str.dquote r) = None.
Proof.
  intros H. unfold Str.match_gap.
  rewrite (trimStart_not_white _ H), Nat.eqb_refl. now rewrite orb_true_r.
Qed.

Lemma match_gap_tight_then c r x :
  Repair.tight (String c r) = true ->
  Str.match_gap (String c r +:+ String Str.dquote x) = None.
Proof.
  intros H. simpl in H. apply andb_prop in H. destruct H as [H _].
  destruct (Ascii.eqb c Str.dquote) eqn:Hc; [| now apply match_gap_other].
  apply Ascii.eqb_eq in Hc. subst c.
  change (String Str.dquote r +:+ String Str.dquote x)
    with (String Str.dquote (r +:+ String Str.dquote x)).
  apply match_gap_not_white, not_white_then_quote. now apply negb_true_iff in H.
Qed.

Lemma match_gap_tight s : Repair.tight s = true -> Str.match_gap s = None.
Proof.
  destruct s as [| c r]; [reflexivity |]. intros H.
  simpl in H. apply andb_prop in H. destruct H as [H _].
  destruct (Ascii.eqb c Str.dquote) eqn:Hc; [| now apply match_gap_other].
  apply Ascii.eqb_eq in Hc. subst c.
  apply match_gap_not_white. now apply negb_true_iff in H.
Qed.

Lemma tight_tail c r : Repair.tight (String c r) = true -> Repair.tight r = true.
Proof. intros H. simpl in H. apply andb_prop in H. tauto. Qed.

Lemma insert_commas_tight fuel s :
  Repair.tight s = true -> Str.insert_commas fuel s = s.
Proof.
  revert s. induction fuel as [| fuel IH]; intros s H; [reflexivity |].
  simpl. rewrite (match_gap_tight _ H).
  destruct s as [| c r]; [reflexivity |]. now rewrite (IH r (tight_tail _ _ H)).
Qed.

(** X12. The repair changes nothing in a text in which no double quote is
    directly followed by a white-space character: so it is with compact JSON
    none of whose strings starts with white space. *)
Theorem repair_keeps_tight_text s :
  Repair.tight s = true -> Str.fix_json s = s.
Proof. intros H. unfold Str.fix_json. now apply insert_commas_tight. Qed.

Lemma length_append a b : String.length (a +:+ b) = String.length a + String.length b.
Proof. induction a as [| c r IH]; simpl; [reflexivity | now rewrite IH]. Qed.

Lemma trimStart_spaces ws rest :
  Repair.spaces ws = true -> Str.trimStart (ws +:+ rest) = Str.trimStart rest.
Proof.
  induction ws as [| c r IH]; intros H; [reflexivity |].
  simpl in H. apply andb_prop in H. destruct H as [Hc Hr].
  change (String c r +:+ rest) with (String c (r +:+ rest)).
  cbn [Str.trimStart]. rewrite Hc. now apply IH.
Qed.

Lemma match_gap_found ws post :
  Repair.blank ws = true -> Repair.closes post = false ->
  Str.match_gap (Repair.gap ws post) = Some post.
Proof.
  unfold Repair.blank, Repair.gap. intros Hws Hpost.
  apply andb_prop in Hws. destruct Hws as [Hne Hspaces].
  unfold Str.match_gap. rewrite Ascii.eqb_refl. simpl negb. simpl orb.
  rewrite (trimStart_spaces _ _ Hspaces), (trimStart_not_white _ (quote_not_white _)).
  assert (Hlen : Nat.eqb (String.length (String Str.dquote post))
                   (String.length (ws +:+ String Str.dquote post)) = false).
  { apply Nat.eqb_neq. rewrite length_append. destruct ws; [discriminate |]. simpl. lia. }
  rewrite Hlen, Ascii.eqb_refl.
  destruct post as [| c p]; [reflexivity |]. simpl in Hpost.
  destruct c as [[] [] [] [] [] [] [] []]; try reflexivity; discriminate.
Qed.

Lemma insert_commas_prefix pre x fuel :
  Repair.tight pre = true ->
  String.length pre <= fuel ->
  Str.insert_commas fuel (pre +:+ String Str.dquote x)
  = pre +:+ Str.insert_commas (fuel - String.length pre) (String Str.dquote x).
Proof.
  revert fuel. induction pre as [| c r IH]; intros fuel Htight Hfuel.
  - simpl. now rewrite Nat.sub_0_r.
  - destruct fuel as [| fuel]; [simpl in Hfuel; lia |].
    pose proof (match_gap_tight_then c r x Htight) as Hgap.
    change (String c r +:+ String Str.dquote x)
      with (String c (r +:+ String Str.dquote x)) in *.
    cbn [Str.insert_commas]. rewrite Hgap.
    rewrite (IH fuel (tight_tail _ _ Htight)) by (simpl in Hfuel; lia).
    reflexivity.
Qed.

Lemma insert_commas_match fuel s rest :
  Str.match_gap s = Some rest ->
  Str.insert_commas (S fuel) s = Repair.comma (Str.insert_commas fuel rest).
Proof. intros H. cbn [Str.insert_commas]. now rewrite H. Qed.

(** X13. Where a double quote, a gap of blanks and a double quote come after
    a text in which no quote is followed by white space, and no closing brace
    follows, the repair puts a quote, a comma, a blank and a quote in place
    of the three, and goes on with the rest.  That is so for two strings
    with a missing comma between them, and as well for a string that consists
    of blanks: its content becomes a comma and a blank. *)
Theorem repair_fills_gap pre ws post :
  Repair.tight pre = true ->
  Repair.blank ws = true ->
  Repair.closes post = false ->
  Str.fix_json (pre +:+ Repair.gap ws post) = pre +:+ Repair.comma (Str.fix_json post).
Proof.
  intros Hpre Hws Hpost. unfold Str.fix_json.
  pose proof (match_gap_found _ _ Hws Hpost) as Hgap. unfold Repair.gap in *.
  rewrite insert_commas_prefix by (assumption || (rewrite length_append; lia)).
  assert (Hfuel : S (String.length (pre +:+ String Str.dquote (ws +:+ String Str.dquote post)))
                  - String.length pre
                  = S (S (String.length ws + S (String.length post)))).
  { rewrite length_append. simpl. rewrite length_append. simpl. lia. }
  rewrite Hfuel, (insert_commas_match _ _ _ Hgap).
  rewrite (insert_commas_fuel _ (S (String.length post)) post) by lia.
  reflexivity.
Qed.

(** ** The earlier translator *)

Lemma old_translator_eval messages w msgs m :
  arrays w !! messages = Some msgs ->
  Spec.message_list msgs ->
  Spec.last_user msgs = Some m ->
  Old.convertOpenAIToDifyFormat messages w
  = (Return
       (VObj [("query", JS.prop m "content");
              ("conversation_id",
               JS.or (JS.opt (default VUndef
                                (last (List.filter (Spec.has_role "assistant") msgs)))
                        "conversationId") (VStr EmptyString));
              ("user", VStr "default-user");
              ("inputs", VObj []);
              ("response_mode", VStr "streaming")]),
     with_arrays (alter (@rev value) messages) w).
Proof.
  intros Hmsgs Hwf Hlast. unfold Old.convertOpenAIToDifyFormat.
  set (w1 := with_arrays (alter (@rev value) messages) w).
  rewrite (bind_eval _ _ _ messages w1) by reflexivity.
  assert (Hread : Arr.read messages w1 = (Return (rev msgs), w1)).
  { unfold Arr.read, w1, with_arrays. simpl.
    unfold loc in *. now rewrite list_lookup_alter_eq, Hmsgs. }
  rewrite (bind_eval _ _ _ _ _ Hread).
  assert (Hfind : forall role,
    returns (Arr.find (fun msg => let* r := get msg "role" in ret (JS.is_str r role))
               (rev msgs))
            (default VUndef (last (List.filter (Spec.has_role role) msgs)))).
  { intros role. rewrite <- find_rev_last. apply returns_find, Forall_rev.
    eapply Forall_impl; [apply Hwf |]. intros msg Hmsg. simpl in Hmsg.
    eapply returns_bind; [now apply returns_get | apply returns_ret]. }
  rewrite (bind_eval _ _ _ _ _ (Hfind "user" w1)).
  fold (Spec.last_user msgs). rewrite Hlast.
  assert (Hm : exists fields, m = VObj fields).
  { unfold Spec.last_user in Hlast. apply last_Some_elem_of in Hlast.
    apply list_elem_of_In, filter_In in Hlast. destruct Hlast as [_ Hrole].
    now apply has_role_object in Hrole. }
  destruct Hm as [fields ->].
  change (default VUndef (Some (VObj fields))) with (VObj fields).
  cbn [JS.truthy negb].
  rewrite (bind_eval _ _ _ _ _ Hread).
  rewrite (bind_eval _ _ _ _ _ (Hfind "assistant" w1)).
  reflexivity.
Qed.

Lemma first_user_exists msgs :
  existsb (Spec.has_role "user") msgs = true ->
  exists first, Sample.first_user msgs = Some first.
Proof.
  intros H. apply existsb_exists in H. destruct H as [m [Hin Hm]].
  unfold Sample.first_user.
  destruct (List.find (Spec.has_role "user") msgs) as [x |] eqn:Hfind; [eauto |].
  now rewrite (find_none _ _ Hfind m Hin) in Hm.
Qed.

(** X14. The translator of the earlier server (src/unnamed/part_000) finds
    the same query as the one of server.js, the content of the last user
    message, but it leaves the caller's array reversed.  Called again on the
    same array it therefore takes the first user message for the last one,
    and puts the array back in order. *)
Theorem earlier_translator_reverses_the_array messages w msgs :
  arrays w !! messages = Some msgs ->
  Spec.message_list msgs ->
  existsb (Spec.has_role "user") msgs = true ->
  let w1 := snd (Old.convertOpenAIToDifyFormat messages w) in
  let w2 := snd (Old.convertOpenAIToDifyFormat messages w1) in
  exists m first request1 request2,
    Spec.last_user msgs = Some m
    /\ Sample.first_user msgs = Some first
    /\ fst (Old.convertOpenAIToDifyFormat messages w) = Return request1
    /\ JS.prop request1 "query" = JS.prop m "content"
    /\ arrays w1 !! messages = Some (rev msgs)
    /\ fst (Old.convertOpenAIToDifyFormat messages w1) = Return request2
    /\ JS.prop request2 "query" = JS.prop first "content"
    /\ arrays w2 !! messages = Some msgs.
Proof.
  intros Hmsgs Hwf Huser. cbv zeta.
  destruct (last_user_exists _ Huser) as [m Hlast].
  destruct (first_user_exists _ Huser) as [first Hfirst].
  rewrite (old_translator_eval _ _ _ _ Hmsgs Hwf Hlast). simpl snd.
  assert (Hrev : arrays (with_arrays (alter (@rev value) messages) w) !! messages
                 = Some (rev msgs)).
  { unfold with_arrays. simpl. unfold loc in *. now rewrite list_lookup_alter_eq, Hmsgs. }
  assert (Hlast2 : Spec.last_user (rev msgs) = Some first).
  { unfold Spec.last_user. rewrite <- find_rev_last, rev_involutive. exact Hfirst. }
  assert (Hwf2 : Spec.message_list (rev msgs)) by now apply Forall_rev.
  rewrite (old_translator_eval _ _ _ _ Hrev Hwf2 Hlast2). simpl.
  exists m, first. do 2 eexists. repeat split; try eassumption.
  unfold loc in *.
  rewrite list_lookup_alter_eq, list_lookup_alter_eq, Hmsgs. simpl. now rewrite rev_involutive.
Qed.

(** ** Logging *)

Lemma lower_not_upper c :
  Nat.leb 65 (nat_of_ascii (Log.lower c)) && Nat.leb (nat_of_ascii (Log.lower c)) 90 = false.
Proof. destruct c as [[] [] [] [] [] [] [] []]; reflexivity. Qed.

Lemma toLowerCase_no_upper s : Log.has_upper (Log.toLowerCase s) = false.
Proof.
  induction s as [| c r IH]; [reflexivity |].
  cbn [Log.toLowerCase Log.has_upper]. now rewrite lower_not_upper, IH.
Qed.

Lemma level_found name n :
  Log.LOG_LEVELS name = Log.Level n ->
  (name = "error" /\ n = 0%Z) \/ (name = "warn" /\ n = 1%Z)
  \/ (name = "info" /\ n = 2%Z) \/ (name = "debug" /\ n = 3%Z).
Proof.
  unfold Log.LOG_LEVELS.
  destruct (String.eqb_spec name "error"); [intros [= <-]; auto |].
  destruct (String.eqb_spec name "warn"); [intros [= <-]; auto |].
  destruct (String.eqb_spec name "info"); [intros [= <-]; auto |].
  destruct (String.eqb_spec name "debug"); [intros [= <-]; auto 6 |].
  destruct (existsb _ _); discriminate.
Qed.

Lemma inherited_lower setting :
  Log.LOG_LEVELS (Log.toLowerCase setting) = Log.Inherited ->
  Log.toLowerCase setting = "constructor" \/ Log.toLowerCase setting = "__proto__".
Proof.
  pose proof (toLowerCase_no_upper setting) as Hlow.
  unfold Log.LOG_LEVELS.
  repeat match goal with
         | |- context [String.eqb ?a ?b] => destruct (String.eqb a b); [discriminate |]
         end.
  destruct (existsb _ _) eqn:Hin; [intros _ | discriminate].
  apply existsb_exists in Hin. destruct Hin as [name [Hname Heq]].
  apply String.eqb_eq in Heq. rewrite Heq in *.
  simpl in Hname.
  repeat (destruct Hname as [<- | Hname]; [auto; discriminate |]).
  contradiction.
Qed.

(** X15. What [log] writes.  An error is written, and a debug message is
    written only when LOG_LEVEL names debug, in any letter case; when the
    variable is unset or names no level, info and warn are written and debug
    is not; a level is written whenever a less severe one is.  All but for
    one case: when LOG_LEVEL is constructor or __proto__, in any letter case,
    the threshold is a member inherited by the table, and nothing is
    written, not even errors. *)
Theorem log_thresholds LOG_LEVEL level :
  (Log.currentLogLevel LOG_LEVEL = Log.Inherited <->
   exists setting,
     LOG_LEVEL = Some setting
     /\ (Log.toLowerCase setting = "constructor" \/ Log.toLowerCase setting = "__proto__"))
  /\ (Log.currentLogLevel LOG_LEVEL = Log.Inherited -> Log.writes LOG_LEVEL level = false)
  /\ (Log.currentLogLevel LOG_LEVEL <> Log.Inherited -> Log.writes LOG_LEVEL "error" = true)
  /\ (Log.writes LOG_LEVEL "debug" = true <->
      exists setting, LOG_LEVEL = Some setting /\ Log.toLowerCase setting = "debug")
  /\ ((LOG_LEVEL = None
       \/ exists setting,
            LOG_LEVEL = Some setting
            /\ Log.LOG_LEVELS (Log.toLowerCase setting) = Log.Nothing) ->
      Log.writes LOG_LEVEL "warn" = true
      /\ Log.writes LOG_LEVEL "info" = true
      /\ Log.writes LOG_LEVEL "debug" = false)
  /\ (forall other a b,
        Log.LOG_LEVELS level = Log.Level a ->
        Log.LOG_LEVELS other = Log.Level b ->
        (a <= b)%Z ->
        Log.writes LOG_LEVEL other = true ->
        Log.writes LOG_LEVEL level = true).
Proof.
  split; [| split; [| split; [| split; [| split]]]].
  - split.
    + destruct LOG_LEVEL as [setting |]; [| discriminate].
      unfold Log.currentLogLevel.
      destruct (Log.LOG_LEVELS (Log.toLowerCase setting)) eqn:Hfound; try discriminate.
      intros _. exists setting. split; [reflexivity |]. now apply inherited_lower.
    + intros (setting & -> & [H | H]); unfold Log.currentLogLevel; now rewrite H.
  - intros H. unfold Log.writes. rewrite H. now destruct (Log.LOG_LEVELS level).
  - intros H. unfold Log.writes.
    destruct (Log.currentLogLevel LOG_LEVEL) as [n | |] eqn:Hcurrent; [| congruence |].
    + assert (Hn : exists name, Log.LOG_LEVELS name = Log.Level n).
      { unfold Log.currentLogLevel in Hcurrent.
        destruct LOG_LEVEL as [setting |]; [| now exists "info"].
        destruct (Log.LOG_LEVELS (Log.toLowerCase setting)) eqn:Hs; try discriminate.
        - injection Hcurrent as <-. eauto.
        - now exists "info". }
      destruct Hn as [name Hn]. apply level_found in Hn.
      simpl. apply Z.leb_le. intuition lia.
    + exfalso. unfold Log.currentLogLevel in Hcurrent.
      destruct LOG_LEVEL as [setting |]; [| discriminate].
      destruct (Log.LOG_LEVELS (Log.toLowerCase setting)); discriminate.
  - unfold Log.writes. simpl Log.LOG_LEVELS. split.
    + destruct (Log.currentLogLevel LOG_LEVEL) as [n | |] eqn:Hcurrent; try discriminate.
      intros Hle. apply Z.leb_le in Hle.
      unfold Log.currentLogLevel in Hcurrent. destruct LOG_LEVEL as [setting |].
      * destruct (Log.LOG_LEVELS (Log.toLowerCase setting)) eqn:Hs; try discriminate.
        -- injection Hcurrent as ->. apply level_found in Hs.
           exists setting. split; [reflexivity |]. intuition lia.
        -- simpl in Hcurrent. injection Hcurrent as <-. lia.
      * simpl in Hcurrent. injection Hcurrent as <-. lia.
    + intros (setting & -> & H). unfold Log.currentLogLevel. now rewrite H.
  - intros H.
    assert (Hcurrent : Log.currentLogLevel LOG_LEVEL = Log.Level 2).
    { destruct H as [-> | (setting & -> & H)]; [reflexivity |].
      unfold Log.currentLogLevel. now rewrite H. }
    unfold Log.writes. rewrite Hcurrent. repeat split.
  - intros other a b Ha Hb Hle. unfold Log.writes. rewrite Ha, Hb.
    destruct (Log.currentLogLevel LOG_LEVEL) as [n | |]; try discriminate.
    intros H. apply Z.leb_le in H. apply Z.leb_le. lia.
Qed.

(** ** The further examples run *)

Lemma backend_failure_reported_witness :
  let handler :=
    chat_completions Example.ToString Example.Date_now Sample.failing_backend in
  let body := Example.body_of Example.conversation in
  let answer :=
    VObj [("error", VObj [("message", VStr "Dify API error: overloaded");
                          ("type", VStr "dify_api_error");
                          ("status", VNum 503)])] in
  fst (handler 1 body Example.start) = Return Finished
  /\ res (snd (handler 1 body Example.start)) = [] ++ [] ++ [Status (VNum 503); Json answer]
  /\ conversationStore (snd (handler 1 body Example.start)) = ∅.
Proof.
  refine (backend_failure_reported Example.ToString Example.Date_now
            Sample.failing_backend 1 (Example.body_of Example.conversation)
            Example.start Example.conversation (Example.message "user" "More?")
            Sample.unavailable "Request failed with status code 503"
            eq_refl eq_refl _ eq_refl eq_refl).
  repeat constructor.
Defined.

Lemma posted_body_witness :
  let handler :=
    chat_completions Example.ToString Example.Date_now Example.difyClient_post in
  let body := Example.body_of Example.conversation in
  exists posted,
    sent (snd (handler 1 body Example.start)) = [] ++ [posted]
    /\ JS.prop posted "query" = VStr "More?"
    /\ JS.prop posted "user" = VStr "default-user"
    /\ JS.prop posted "inputs" = VObj []
    /\ JS.prop posted "response_mode" = VStr "blocking".
Proof.
  refine (posted_body Example.ToString Example.Date_now Example.difyClient_post 1
            (Example.body_of Example.conversation) Example.start Example.conversation
            (Example.message "user" "More?") eq_refl eq_refl _ eq_refl).
  repeat constructor.
Defined.

Lemma shared_opening_shares_id_witness :
  let handler :=
    chat_completions Example.ToString Example.Date_now Example.abc_backend in
  let wA := snd (handler 1 (Example.body_of Example.opening) Example.start) in
  Pure.conversationKey 1 Example.opening = KStr "Hello!"
  /\ Pure.conversationKey 2 Sample.other = KStr "Hello!"
  /\ exists posted,
       sent (snd (handler 2 (Example.body_of Sample.other) wA)) = sent wA ++ [posted]
       /\ JS.prop posted "conversation_id" = VStr "abc".
Proof.
  refine (shared_opening_shares_id Example.ToString Example.Date_now Example.abc_backend
            1 2 (Example.body_of Example.opening) (Example.body_of Sample.other)
            Example.start (Example.message "user" "Hello!") []
            [Example.message "assistant" "Good day.";
             Example.message "user" "What is the weather?"]
            (Example.message "user" "Hello!")
            (Example.message "user" "What is the weather?") "Hello!" "abc"
            Example.reply_abc
            eq_refl _ eq_refl eq_refl _ eq_refl eq_refl eq_refl eq_refl _
            eq_refl eq_refl _ eq_refl eq_refl);
    try discriminate; repeat constructor.
Defined.

Lemma structured_content_is_not_continued_witness :
  let handler :=
    chat_completions Example.ToString Example.Date_now Example.abc_backend in
  let body := Example.body_of Sample.structured in
  let wA := snd (handler 1 body Example.start) in
  conversationStore wA !! KRef 1 = Some (VStr "abc")
  /\ exists posted,
       sent (snd (handler 2 body wA)) = sent wA ++ [posted]
       /\ JS.prop posted "conversation_id" = VStr EmptyString.
Proof.
  refine (structured_content_is_not_continued Example.ToString Example.Date_now
            Example.abc_backend 1 2 (Example.body_of Sample.structured)
            (Example.body_of Sample.structured) Example.start
            (VObj [("role", VStr "user"); ("content", Sample.parts)]) [] []
            (VObj [("role", VStr "user"); ("content", Sample.parts)])
            (VObj [("role", VStr "user"); ("content", Sample.parts)]) "abc"
            Example.reply_abc
            eq_refl _ eq_refl eq_refl eq_refl _ eq_refl eq_refl eq_refl eq_refl _
            eq_refl eq_refl _ eq_refl eq_refl);
    try discriminate; repeat constructor.
Defined.

Lemma registry_isolation_witness :
  conversationStore
    (snd (relay Example.JSON_parse Example.JSON_stringify Example.Date_now (KStr "Hi")
            [DataEvent (Line.framed (Example.line Example.named)); EndEvent]
            (World Example.known [] 0 [] []))) !! KStr "Hello!"
  = Example.known !! KStr "Hello!"
  /\ conversationStore
       (snd (blocking_reply Example.Date_now Example.reply_m1 (KStr "Hi")
               (World Example.known [] 0 [] []))) !! KStr "Hello!"
     = Example.known !! KStr "Hello!".
Proof.
  refine (registry_isolation Example.JSON_parse Example.JSON_stringify Example.Date_now
            (KStr "Hi") (KStr "Hello!") _ Example.reply_m1
            (World Example.known [] 0 [] []) _).
  discriminate.
Defined.

Lemma history_follows_messages_witness :
  exists request history,
    fst (convertOpenAIToDifyFormat 0 (KStr "Be brief.") VUndef
           (Example.world_of ∅ Example.conversation)) = Return request
    /\ JS.prop request "conversation_history" = VArr history
    /\ Forall2 (fun msg entry =>
                  JS.prop entry "role" = JS.prop msg "role"
                  /\ (JS.truthy (JS.prop msg "content") = true ->
                      JS.prop entry "content" = JS.prop msg "content")
                  /\ JS.nullish (JS.prop entry "content") = false)
         (Sample.non_system Example.conversation) history.
Proof.
  refine (history_follows_messages 0 (KStr "Be brief.") VUndef
            (Example.world_of ∅ Example.conversation) Example.conversation
            eq_refl _ eq_refl).
  repeat constructor.
Defined.

Lemma history_is_stamped_witness :
  let resolved := Spec.resolved_id Example.known (KStr "Hello!") Example.followup in
  exists request history,
    fst (convertOpenAIToDifyFormat 0 (KStr "Hello!") VUndef
           (Example.world_of Example.known Example.followup)) = Return request
    /\ JS.prop request "conversation_id" = resolved
    /\ JS.prop request "conversation_history" = VArr history
    /\ Forall2 (fun msg entry =>
                  JS.prop entry "conversation_id"
                  = if JS.truthy resolved
                    then default resolved (Sample.own_id msg)
                    else VUndef)
         (Sample.non_system Example.followup) history.
Proof.
  refine (history_is_stamped 0 (KStr "Hello!") VUndef
            (Example.world_of Example.known Example.followup) Example.followup
            eq_refl _ eq_refl).
  repeat constructor.
Defined.

Lemma line_cut_by_frame_is_lost_witness :
  (exists chunk,
     res (snd (relay Example.JSON_parse Example.JSON_stringify Example.Date_now
                 (KStr "Hello!")
                 [DataEvent (Line.framed (Sample.head +:+ Sample.tail))] Example.start))
     = [] ++ [Write (Pure.frame Example.JSON_stringify chunk)]
     /\ JS.prop (Pure.delta chunk) "content" = JS.prop (Example.object Example.hi) "answer")
  /\ relay Example.JSON_parse Example.JSON_stringify Example.Date_now (KStr "Hello!")
       [DataEvent Sample.head; DataEvent (Line.framed Sample.tail)] Example.start
     = (Return tt, Example.start).
Proof.
  refine (line_cut_by_frame_is_lost Example.JSON_parse Example.JSON_stringify
            Example.Date_now (KStr "Hello!") Example.start Sample.head Sample.tail
            (Example.object Example.hi) _ eq_refl _ _).
  - repeat split; vm_compute; reflexivity.
  - vm_compute; reflexivity.
  - vm_compute; reflexivity.
Defined.

Lemma line_without_space_is_dropped_witness :
  convertDifyToOpenAIStreamFormat Example.JSON_parse Example.Date_now Sample.unspaced
    (KStr "Hello!") Example.start
  = (Return VNull, Example.start).
Proof.
  refine (line_without_space_is_dropped Example.JSON_parse Example.Date_now
            Sample.unspaced (KStr "Hello!") Example.start _ _ _).
  - intros text. reflexivity.
  - vm_compute; reflexivity.
  - vm_compute; reflexivity.
Defined.

Lemma repair_keeps_tight_text_witness :
  Str.fix_json Sample.dashed = Sample.dashed.
Proof.
  refine (repair_keeps_tight_text Sample.dashed _).
  vm_compute; reflexivity.
Defined.

(** The answer of one blank comes out of the repair as a comma and a blank. *)
Lemma repair_fills_gap_witness :
  Str.fix_json (Sample.before_answer +:+ Repair.gap " " Sample.after_answer)
  = Sample.before_answer +:+ Repair.comma (Str.fix_json Sample.after_answer).
Proof.
  refine (repair_fills_gap Sample.before_answer " " Sample.after_answer _ _ _);
    vm_compute; reflexivity.
Defined.

Lemma earlier_translator_reverses_the_array_witness :
  let w := Example.world_of ∅ Example.conversation in
  let w1 := snd (Old.convertOpenAIToDifyFormat 0 w) in
  let w2 := snd (Old.convertOpenAIToDifyFormat 0 w1) in
  exists m first request1 request2,
    Spec.last_user Example.conversation = Some m
    /\ Sample.first_user Example.conversation = Some first
    /\ fst (Old.convertOpenAIToDifyFormat 0 w) = Return request1
    /\ JS.prop request1 "query" = JS.prop m "content"
    /\ arrays w1 !! 0 = Some (rev Example.conversation)
    /\ fst (Old.convertOpenAIToDifyFormat 0 w1) = Return request2
    /\ JS.prop request2 "query" = JS.prop first "content"
    /\ arrays w2 !! 0 = Some Example.conversation.
Proof.
  refine (earlier_translator_reverses_the_array 0
            (Example.world_of ∅ Example.conversation) Example.conversation
            eq_refl _ eq_refl).
  repeat constructor.
Defined.

Lemma log_thresholds_witness :
  Log.writes (Some "DEBUG") "debug" = true
  /\ Log.writes (Some "Constructor") "error" = false.
Proof.
  split.
  - refine (proj2 (proj1 (proj2 (proj2 (proj2 (log_thresholds (Some "DEBUG") "debug"))))) _).
    exists "DEBUG". split; reflexivity.
  - refine (proj1 (proj2 (log_thresholds (Some "Constructor") "error")) _).
    reflexivity.
Defined.

(** ** Tokens neither lost, nor doubled, nor out of order *)

Section RelayOrder.

Variable JSON_parse : string -> option value.
Variable JSON_stringify : value -> string.
Variable Date_now : nat -> Z.

Lemma event_lines_joined lines :
  lines <> [] ->
  Forall (fun line => Str.startsWith line "data:" = true /\ Str.no_newline line = true)
    lines ->
  Pure.event_lines (Str.join_lines lines) = lines.
Proof.
  intros Hne Hall. unfold Pure.event_lines.
  rewrite split_join_lines; [| assumption |].
  - induction Hall as [| line rest [Hstart _] _ IH]; [reflexivity |].
    simpl. rewrite Hstart.
    destruct rest; [reflexivity |]. f_equal. apply IH. discriminate.
  - eapply Forall_impl; [apply Hall |]. now intros line [_ Hnl].
Qed.

Lemma message_lines_relayed key lines answers :
  Forall2 (Line.message_event JSON_parse) lines answers ->
  forall w,
  exists chunks,
    res (fold_left (Pure.relay_line JSON_parse JSON_stringify Date_now key) lines w)
    = res w ++ List.map (fun chunk => Write (Pure.frame JSON_stringify chunk)) chunks
    /\ List.map (fun chunk => JS.prop (Pure.delta chunk) "content") chunks
       = List.map VStr answers.
Proof.
  induction 1 as [| line answer lines answers (data & Hline & Hevent & Hanswer) _ IH];
    intros w.
  - exists []. simpl. now rewrite app_nil_r.
  - simpl fold_left. rewrite (relay_line_message _ _ _ _ _ _ _ Hline Hevent).
    match goal with
    | |- context [fold_left _ lines ?w1] => destruct (IH w1) as (chunks & Hres & Hcontents)
    end.
    exists (Pure.message_chunk (Date_now (clock w)) data :: chunks).
    split.
    + rewrite Hres. unfold with_res. simpl. rewrite register_res. simpl.
      now rewrite <- app_assoc.
    + simpl. rewrite Hcontents, <- Hanswer. f_equal. apply message_chunk_delta.
Qed.

Lemma message_text_event text answer :
  Sent.message_text JSON_parse text answer ->
  Str.fix_json text = text ->
  Line.message_event JSON_parse (Sent.event_line text) answer.
Proof.
  intros (Hnl & Htrim & Hne & data & Hparse & Hevent & Hanswer) Hfix.
  assert (Hclean : Str.trim (Str.replace "data: " EmptyString (Sent.event_line text)) = text).
  { replace (Str.replace "data: " EmptyString (Sent.event_line text)) with text
      by (destruct text; reflexivity).
    exact Htrim. }
  exists data. split; [| now split].
  unfold Line.carries, Pure.payload. rewrite Hclean, Hfix.
  repeat split.
  - unfold Sent.event_line. simpl. exact Hnl.
  - destruct text; [congruence | reflexivity].
  - exact Hparse.
Qed.

(** X16. A data frame made of any number of lines, each with the text of a
    [message] event that the repair of line 175 leaves as it is, is relayed
    as one written frame for each line, in the order of the lines, and the
    content of each chunk is the answer of the event sent on its line: for
    such lines no token is lost, doubled, moved or changed. *)
Theorem answers_are_relayed_in_order key w texts answers :
  texts <> [] ->
  Forall2 (Sent.message_text JSON_parse) texts answers ->
  Forall (fun text => Str.fix_json text = text) texts ->
  let chunkStr := Str.join_lines (List.map Sent.event_line texts) in
  exists chunks,
    on_data JSON_parse JSON_stringify Date_now key chunkStr w
    = (Return tt, snd (on_data JSON_parse JSON_stringify Date_now key chunkStr w))
    /\ res (snd (on_data JSON_parse JSON_stringify Date_now key chunkStr w))
       = res w ++ List.map (fun chunk => Write (Pure.frame JSON_stringify chunk)) chunks
    /\ List.map (fun chunk => JS.prop (Pure.delta chunk) "content") chunks
       = List.map VStr answers.
Proof.
  intros Hne Htexts Hfix. cbv zeta.
  assert (Hlines : Forall2 (Line.message_event JSON_parse)
                     (List.map Sent.event_line texts) answers).
  { clear Hne. induction Htexts as [| text answer texts answers Htext _ IH];
      [constructor |].
    inversion Hfix as [| ? ? Hfix1 Hfix2]; subst.
    simpl. constructor; [now apply message_text_event | now apply IH]. }
  assert (Hne2 : List.map Sent.event_line texts <> []) by (destruct texts; [congruence | discriminate]).
  rewrite on_data_eval. simpl snd.
  rewrite event_lines_joined; [| assumption |].
  - destruct (message_lines_relayed key _ answers Hlines w) as (chunks & Hres & Hc).
    exists chunks. repeat split; assumption.
  - clear - Hlines. induction Hlines as [| line answer lines answers Hline _ IH]; constructor.
    + destruct Hline as (data & (Hstart & Hnl & _) & _). now split.
    + exact IH.
Qed.

End RelayOrder.

Lemma answers_are_relayed_in_order_witness :
  let chunkStr :=
    Str.join_lines (List.map Sent.event_line
                      [Example.text Example.hi; Example.text Example.there]) in
  exists chunks,
    on_data Example.JSON_parse Example.JSON_stringify Example.Date_now (KStr "Hello!")
      chunkStr Example.start
    = (Return tt,
       snd (on_data Example.JSON_parse Example.JSON_stringify Example.Date_now
              (KStr "Hello!") chunkStr Example.start))
    /\ res (snd (on_data Example.JSON_parse Example.JSON_stringify Example.Date_now
                   (KStr "Hello!") chunkStr Example.start))
       = [] ++ List.map (fun chunk => Write (Pure.frame Example.JSON_stringify chunk)) chunks
    /\ List.map (fun chunk => JS.prop (Pure.delta chunk) "content") chunks
       = List.map VStr ["Hi"; " there"].
Proof.
  refine (answers_are_relayed_in_order Example.JSON_parse Example.JSON_stringify
            Example.Date_now (KStr "Hello!") Example.start
            [Example.text Example.hi; Example.text Example.there] ["Hi"; " there"] _ _ _).
  - discriminate.
  - repeat constructor; try (vm_compute; reflexivity); try discriminate.
    + exists (Example.object Example.hi). repeat split; vm_compute; reflexivity.
    + exists (Example.object Example.there). repeat split; vm_compute; reflexivity.
  - repeat constructor; vm_compute; reflexivity.
Defined.
